(** * AddBiomechanicsDataset: windowing and cross-subject alignment

    A shallow embedding of [src/data/AddBiomechanicsDataset.py] and the
    properties its design document states about it.

    Conventions.
    - Python [int] is [Z]; Python lists are [list]; the string-keyed dicts
      of a window are [gmap string].
    - A 2-D numpy array is an [ndarray]: its column count and its rows.
    - float64 and float32 arithmetic is abstract: the class [Numeric] gives
      the element types, numpy's zero, numpy's true division and torch's
      float64-to-float32 conversion.  An IEEE instance on the kernel's
      binary64 floats is given at the end of the model.
    - Exceptions are values of [exn]; code that can raise returns a
      [result].  Code that mutates the dataset object runs in the monad [M]
      over a [Heap] and keeps the heap it reached when it raises.
    - [print] calls write to stdout only and are left out. *)

From stdpp Require Import gmap strings list fin_maps list_numbers.
From Stdlib Require Import ZArith Floats.

Local Open Scope Z_scope.

(* ===================================================================== *)
(** ** Exceptions and results *)
(* ===================================================================== *)

(** The exceptions the modelled code can raise.  [RuntimeError] stands for
    a failure inside the recording library or torch; [AttributeError] is
    what a method call on [None] raises. *)
Inductive exn : Set :=
  | AssertionError
  | IndexError
  | ValueError
  | RuntimeError
  | AttributeError.

#[global] Instance exn_eq_dec : EqDecision exn.
Proof. solve_decision. Defined.

Inductive result (A : Type) : Type :=
  | Ok (a : A)
  | Raise (e : exn).
Arguments Ok {A} a.
Arguments Raise {A} e.

#[global] Instance result_ret : MRet result := λ A a, Ok a.
#[global] Instance result_bind : MBind result := λ A B f r,
  match r with
  | Ok a => f a
  | Raise e => Raise e
  end.

(** [for x in l: acc = f(acc, x)] where the body can raise. *)
Fixpoint foldR {A B} (f : B → A → result B) (b : B) (l : list A) : result B :=
  match l with
  | [] => Ok b
  | x :: l' => b' ← f b x; foldR f b' l'
  end.

(* ===================================================================== *)
(** ** Python built-ins *)
(* ===================================================================== *)

(** [range(n)] and [range(a, b)]. *)
Definition range (n : Z) : list Z := seqZ 0 n.
Definition range2 (a b : Z) : list Z := seqZ a (b - a).

(** [len(l)]. *)
Definition len {A} (l : list A) : Z := Z.of_nat (length l).

(** [l[i]]: a negative index counts from the end; out of range raises. *)
Definition getitem {A} (l : list A) (i : Z) : result A :=
  let j := if decide (i < 0) then i + len l else i in
  if decide (j < 0) then Raise IndexError
  else match l !! Z.to_nat j with
       | Some x => Ok x
       | None => Raise IndexError
       end.

(** A slice bound as [slice.indices] normalises it (step 1). *)
Definition clamp (n i : Z) : Z :=
  if decide (i < 0) then Z.max (i + n) 0 else Z.min i n.

(** [l[lo:hi]]. *)
Definition slice {A} (lo hi : Z) (l : list A) : list A :=
  let lo' := clamp (len l) lo in
  let hi' := clamp (len l) hi in
  take (Z.to_nat (hi' - lo')) (drop (Z.to_nat lo') l).

(** [l[:n]]. *)
Definition slice_to {A} (hi : Z) (l : list A) : list A := slice 0 hi l.

(** [l.index(x) if x in l else -1]. *)
Definition index_or_minus_one (x : string) (l : list string) : Z :=
  match list_find (λ y, y = x) l with
  | Some (i, _) => Z.of_nat i
  | None => -1
  end.

(** [s.endswith(suffix)]. *)
Definition endswith (s suffix : string) : bool :=
  let n := String.length s in
  let k := String.length suffix in
  if decide (k ≤ n)%nat then String.eqb (String.substring (n - k) k s) suffix else false.

(** [s.startswith(prefix)]. *)
Definition startswith (s pre : string) : bool := String.prefix pre s.

(** [os.path.join(a, b)] of posixpath, for two components. *)
Definition os_path_join (a b : string) : string :=
  if startswith b "/" then b
  else if decide (a = "") then b
  else if endswith a "/" then a +:+ b
  else a +:+ "/" +:+ b.

(* ===================================================================== *)
(** ** numpy arrays *)
(* ===================================================================== *)

(** A 2-D array of shape [(length rows, ncols)]. *)
Record ndarray (A : Type) : Type := NdArray {
  ncols : nat;
  rows : list (list A)
}.
Arguments NdArray {A} ncols rows.
Arguments ncols {A} _.
Arguments rows {A} _.

Definition nrows {A} (a : ndarray A) : nat := length (rows a).

(** Every row has the array's column count. *)
Definition rectangular {A} (a : ndarray A) : Prop :=
  Forall (λ r, length r = ncols a) (rows a).

#[global] Instance rectangular_dec {A} (a : ndarray A) : Decision (rectangular a).
Proof. unfold rectangular. apply _. Defined.

(** Width of the column range [lo:hi] in an array of [n] columns. *)
Definition slice_width (n : nat) (lo hi : Z) : nat :=
  Z.to_nat (clamp (Z.of_nat n) hi - clamp (Z.of_nat n) lo).

(** Column [j] of a list of rows. *)
Definition column {A} (j : nat) (rs : list (list A)) : list A :=
  omap (λ r, r !! j) rs.

(** [a.transpose()]. *)
Definition transpose {A} (a : ndarray A) : ndarray A :=
  NdArray (nrows a) ((λ j, column j (rows a)) <$> seq 0 (ncols a)).

(** [a[lo:hi, :]]. *)
Definition slice_rows {A} (lo hi : Z) (a : ndarray A) : ndarray A :=
  NdArray (ncols a) (slice lo hi (rows a)).

(** [a[:, lo:hi]]. *)
Definition slice_cols {A} (lo hi : Z) (a : ndarray A) : ndarray A :=
  NdArray (slice_width (ncols a) lo hi) ((λ r : list A, slice lo hi r) <$> rows a).

(** [a[r0:r1, c0:c1]]. *)
Definition slice2 {A} (r0 r1 c0 c1 : Z) (a : ndarray A) : ndarray A :=
  slice_cols c0 c1 (slice_rows r0 r1 a).

(** [a[r, c]], for indices within the array. *)
Definition entry {A} (a : ndarray A) (r c : nat) : option A :=
  rows a !! r ≫= (λ row, row !! c).

(** Elementwise map, the shape kept. *)
Definition nd_map {A B} (f : A → B) (a : ndarray A) : ndarray B :=
  NdArray (ncols a) ((λ r : list A, f <$> r) <$> rows a).

(** [a[:, lo:hi] = b] with numpy's broadcasting of a 2-D [b]: each axis of
    [b] has the target's extent or extent 1; anything else is a
    [ValueError] ("could not broadcast"). *)
Definition broadcast_row {A} (k : nat) (bcols : nat) (r : list A) : list A :=
  if decide (bcols = k) then r
  else match r with
       | x :: _ => replicate k x
       | [] => []
       end.

Definition broadcast_rows {A} (n : nat) (rs : list (list A)) : list (list A) :=
  if decide (length rs = n) then rs
  else match rs with
       | r :: _ => replicate n r
       | [] => []
       end.

Definition set_cols {A} (a : ndarray A) (lo hi : Z) (b : ndarray A)
  : result (ndarray A) :=
  let lo' := Z.to_nat (clamp (Z.of_nat (ncols a)) lo) in
  let k := slice_width (ncols a) lo hi in
  if decide ((nrows b = nrows a ∨ nrows b = 1%nat) ∧ (ncols b = k ∨ ncols b = 1%nat))
  then
    let brows := broadcast_rows (nrows a) (broadcast_row k (ncols b) <$> rows b) in
    Ok (NdArray (ncols a)
          (zip_with (λ ra rb, take lo' ra ++ rb ++ drop (lo' + k) ra) (rows a) brows))
  else Raise ValueError.

(** The numeric interface: numpy float64 and torch float32 elements, and
    the devices torch can put a tensor on. *)
Class Numeric : Type := {
  float64 : Type;
  float32 : Type;
  (** the [0.0] that [np.zeros] fills with *)
  fzero : float64;
  (** float64 true division, [x / y] *)
  fdiv : float64 → float64 → float64;
  (** the conversion [torch.tensor(…, dtype=torch.float32)] applies *)
  to_float32 : float64 → float32;
  (** what [torch.tensor(…, device=d)] raises when the device [d] cannot
      hold a tensor on this machine; [None] when it can *)
  device_error : string → option exn
}.

Section numpy.
Context `{Numeric}.

(** [np.zeros((r, c))]; a negative dimension raises. *)
Definition np_zeros (r c : Z) : result (ndarray float64) :=
  if decide (r < 0 ∨ c < 0) then Raise ValueError
  else Ok (NdArray (Z.to_nat c) (replicate (Z.to_nat r) (replicate (Z.to_nat c) fzero))).

(** [a / mass] for a Python float [mass]. *)
Definition div_scalar (a : ndarray float64) (mass : float64) : ndarray float64 :=
  nd_map (λ x, fdiv x mass) a.
End numpy.

(* ===================================================================== *)
(** ** The recording library (nimblephysics), as the dataset reads it *)
(* ===================================================================== *)

(** [nimble.biomechanics.MissingGRFReason]: the sentinel the code compares
    against, and every other member of the enumeration. *)
Inductive MissingGRFReason : Set :=
  | notMissingGRF
  | otherMissingGRFReason (code : nat).

#[global] Instance MissingGRFReason_eq_dec : EqDecision MissingGRFReason.
Proof. solve_decision. Defined.

(** Skeletons and their body nodes are opaque handles of the library.
    [Skeleton] is what [readSkel] returns: a skeleton, or [None] when the
    library could not build one. *)
Class Nimble : Type := {
  Skeleton : Type;
  BodyNode : Type;
  (** [skeleton.getBodyNode(name)]: [None] when the skeleton has no such
      body; it raises [AttributeError] when [skeleton] is itself [None] *)
  getBodyNode : Skeleton → string → result (option BodyNode)
}.

Section recording.
Context `{Numeric} `{Nimble}.

(** [SubjectOnDiskTrialPass]: the arrays of one processing pass, as the
    library returns them (one column per frame). *)
Record SubjectOnDiskTrialPass : Type := {
  getPoses : ndarray float64;
  getVels : ndarray float64;
  getAccs : ndarray float64;
  getJointCentersInRootFrame : ndarray float64;
  getRootSpatialVelInRootFrame : ndarray float64;
  getRootSpatialAccInRootFrame : ndarray float64;
  getRootPosHistoryInRootFrame : ndarray float64;
  getRootEulerHistoryInRootFrame : ndarray float64;
  getTaus : ndarray float64;
  getGroundBodyWrenchesInRootFrame : ndarray float64;
  getGroundBodyCopTorqueForceInRootFrame : ndarray float64;
  getComAccsInRootFrame : ndarray float64;
  getResidualWrenchInRootFrame : ndarray float64
}.

Record SubjectOnDiskTrial : Type := {
  getPasses : list SubjectOnDiskTrialPass
}.

Record SubjectOnDiskHeader : Type := {
  getTrials : list SubjectOnDiskTrial
}.

(** [SubjectOnDisk]: one method per field.  [loadAllFrames b] is the
    header proto as [getHeaderProto()] returns it once
    [loadAllFrames(doNotStandardizeForcePlateData=b)] has run, and
    [loadAllFrames_raises b] is the exception that call raises, if it
    raises.  [readSkel] can raise too. *)
Record SubjectOnDisk : Type := {
  getNumDofs : Z;
  getNumJoints : Z;
  getGroundForceBodies : list string;
  getMassKg : float64;
  getNumTrials : Z;
  getMissingGRF : Z → list MissingGRFReason;
  getTrialLength : Z → Z;
  getNumProcessingPasses : Z;
  readSkel : Z → string → result Skeleton;
  loadAllFrames_raises : bool → option exn;
  loadAllFrames : bool → SubjectOnDiskHeader
}.

(** The outside world of the constructor: [os.path.isdir], [os.walk]
    (its [(root, dirs, files)] triples in walk order) and the constructor
    [nimble.biomechanics.SubjectOnDisk(path)]. *)
Class FileSystem : Type := {
  os_path_isdir : string → bool;
  os_walk : string → list (string * list string * list string);
  SubjectOnDisk_open : string → result SubjectOnDisk
}.
End recording.

(* ===================================================================== *)
(** ** Field names *)
(* ===================================================================== *)

Module InputDataKeys.
Definition POS : string := "pos".
Definition VEL : string := "vel".
Definition ACC : string := "acc".
Definition JOINT_CENTERS_IN_ROOT_FRAME : string := "jointCentersInRootFrame".
Definition ROOT_LINEAR_VEL_IN_ROOT_FRAME : string := "rootLinearVelInRootFrame".
Definition ROOT_ANGULAR_VEL_IN_ROOT_FRAME : string := "rootAngularVelInRootFrame".
Definition ROOT_LINEAR_ACC_IN_ROOT_FRAME : string := "rootLinearAccInRootFrame".
Definition ROOT_ANGULAR_ACC_IN_ROOT_FRAME : string := "rootAngularAccInRootFrame".
Definition ROOT_POS_HISTORY_IN_ROOT_FRAME : string := "rootPosHistoryInRootFrame".
Definition ROOT_EULER_HISTORY_IN_ROOT_FRAME : string := "rootEulerHistoryInRootFrame".
End InputDataKeys.

Module OutputDataKeys.
Definition TAU : string := "tau".
Definition GROUND_CONTACT_WRENCHES_IN_ROOT_FRAME : string :=
  "groundContactWrenchesInRootFrame".
Definition RESIDUAL_WRENCH_IN_ROOT_FRAME : string := "residualWrenchInRootFrame".
Definition CONTACT : string := "contact".
Definition COM_ACC_IN_ROOT_FRAME : string := "comAccInRootFrame".
Definition GROUND_CONTACT_COPS_IN_ROOT_FRAME : string :=
  "groundContactCenterOfPressureInRootFrame".
Definition GROUND_CONTACT_TORQUES_IN_ROOT_FRAME : string :=
  "groundContactTorqueInRootFrame".
Definition GROUND_CONTACT_FORCES_IN_ROOT_FRAME : string :=
  "groundContactForceInRootFrame".
End OutputDataKeys.

(* ===================================================================== *)
(** ** The dataset object *)
(* ===================================================================== *)

Section dataset.
Context `{Numeric} `{Nimble} `{!FileSystem}.

(** A torch tensor: float32 data on a device. *)
Record Tensor : Type := {
  tensor_data : ndarray float32;
  tensor_device : string
}.

(** What [torch.tensor(a, dtype=torch.float32, device=device)] returns
    when it returns: a converted copy of the numpy array on the device. *)
Definition torch_tensor (a : ndarray float64) (device : string) : Tensor :=
  {| tensor_data := nd_map to_float32 a; tensor_device := device |}.

(** Whether [torch.tensor(…, device=device)] returns or raises. *)
Definition torch_tensor_returns (device : string) : result unit :=
  match device_error device with
  | Some e => Raise e
  | None => Ok ()
  end.

(** One entry of [self.windows]: [(input_dict, label_dict, subject_index)]. *)
Definition Window : Type := gmap string Tensor * gmap string Tensor * Z.

Definition window_inputs (w : Window) : gmap string Tensor := w.1.1.
Definition window_labels (w : Window) : gmap string Tensor := w.1.2.
Definition window_subject_index (w : Window) : Z := w.2.

(** The attributes of an [AddBiomechanicsDataset].  [num_dofs] and
    [num_joints] are set only when a subject was discovered. *)
Record AddBiomechanicsDataset : Type := {
  subject_paths : list string;
  window_size : Z;
  geometry_folder : string;
  device : string;
  windows : list Window;
  num_dofs : option Z;
  num_joints : option Z;
  contact_bodies : list string;
  skeletons : list Skeleton;
  skeletons_contact_bodies : list (list (option BodyNode))
}.

(** What the code can write: the dataset object and numpy's global
    generator state (the last seed given to [np.random.seed], if any). *)
Record Heap : Type := {
  self : AddBiomechanicsDataset;
  np_random_state : option Z
}.

(** Stateful code that can raise; the heap reached is kept either way. *)
Definition M (A : Type) : Type := Heap → result A * Heap.

#[global] Instance M_ret : MRet M := λ A a h, (Ok a, h).
#[global] Instance M_bind : MBind M := λ A B f m h,
  match m h with
  | (Ok a, h') => f a h'
  | (Raise e, h') => (Raise e, h')
  end.

(** Read an attribute of [self]. *)
Definition gets {A} (f : AddBiomechanicsDataset → A) : M A :=
  λ h, (Ok (f (self h)), h).

(** Run code that touches no state. *)
Definition lift {A} (r : result A) : M A := λ h, (r, h).

Definition with_windows (ws : list Window) (d : AddBiomechanicsDataset)
  : AddBiomechanicsDataset :=
  {| subject_paths := subject_paths d;
     window_size := window_size d;
     geometry_folder := geometry_folder d;
     device := device d;
     windows := ws;
     num_dofs := num_dofs d;
     num_joints := num_joints d;
     contact_bodies := contact_bodies d;
     skeletons := skeletons d;
     skeletons_contact_bodies := skeletons_contact_bodies d |}.

(** [self.windows = ws]. *)
Definition set_windows (ws : list Window) : M unit :=
  λ h, (Ok (), {| self := with_windows ws (self h);
                  np_random_state := np_random_state h |}).

(** [self.windows.append(w)]. *)
Definition windows_append (w : Window) : M unit :=
  λ h, (Ok (), {| self := with_windows (windows (self h) ++ [w]) (self h);
                  np_random_state := np_random_state h |}).

(** [np.random.seed(seed)]: the legacy seeding accepts [0 .. 2**32 - 1]
    and raises [ValueError] otherwise. *)
Definition np_random_seed (seed : Z) : M unit :=
  λ h, if decide (0 ≤ seed < 2 ^ 32)
       then (Ok (), {| self := self h; np_random_state := Some seed |})
       else (Raise ValueError, h).

(** [for x in l: acc = body(acc, x)] over the heap. *)
Fixpoint foldM {A B} (body : B → A → M B) (b : B) (l : list A) : M B :=
  match l with
  | [] => mret b
  | x :: l' => b' ← body b x; foldM body b' l'
  end.
End dataset.

(* ===================================================================== *)
(** ** Construction: discovery and the contact-body registry *)
(* ===================================================================== *)

Section construction.
Context `{Numeric} `{Nimble} `{!FileSystem}.

(** One turn of the loop over the first subject's contact bodies. *)
Definition harmonize_step (registry : list string) (body : string) : list string :=
  if decide (body = "pelvis") then registry
  else if decide (body ∈ registry) then registry
  else registry ++ [body].

(** The loop [for body in contact_bodies: …] started on
    [self.contact_bodies = registry]. *)
Definition harmonize_from (registry raw : list string) : list string :=
  foldl harmonize_step registry raw.

Definition harmonize (raw : list string) : list string := harmonize_from [] raw.

(** The subject paths the constructor discovers. *)
Definition discover (data_path : string) : result (list string) :=
  if os_path_isdir data_path then
    Ok (flat_map
          (λ '(root, dirs, files),
             os_path_join root <$> filter (λ file, endswith file ".b3d") files)
          (os_walk data_path))
  else if endswith data_path ".b3d" then Ok [data_path]
  else Raise AssertionError.

(** One turn of the skeleton-loading loop: the recording is opened again,
    [readSkel] is called on it, and the skeleton it returns is asked for
    the handle of every registry name, in order.  Each of the three can
    raise. *)
Definition load_skeleton (geometry_folder : string) (contact_bodies : list string)
    (subject_path : string) : result (Skeleton * list (option BodyNode)) :=
  subject ← SubjectOnDisk_open subject_path;
  skeleton ← readSkel subject (getNumProcessingPasses subject - 1) geometry_folder;
  handles ← mapM (getBodyNode skeleton) contact_bodies;
  Ok (skeleton, handles).

(** [AddBiomechanicsDataset.__init__]. *)
Definition __init__ (data_path : string) (window_size : Z) (geometry_folder : string)
    (device : string) (testing_with_short_dataset skip_loading_skeletons : bool)
  : result AddBiomechanicsDataset :=
  let windows : list Window := [] in
  subject_paths ← discover data_path;
  header ←
    (if decide (len subject_paths > 0) then
       path ← getitem subject_paths 0;
       subject ← SubjectOnDisk_open path;
       Ok (Some (getNumDofs subject), Some (getNumJoints subject),
           harmonize (getGroundForceBodies subject))
     else Ok (None, None, []));
  let '(num_dofs, num_joints, contact_bodies) := header in
  let subject_paths :=
    if testing_with_short_dataset then slice_to 2 subject_paths else subject_paths in
  loaded ←
    (if negb skip_loading_skeletons
     then mapM (load_skeleton geometry_folder contact_bodies) subject_paths
     else Ok []);
  let windows := if testing_with_short_dataset then slice_to 100 windows else windows in
  Ok {| subject_paths := subject_paths;
        window_size := window_size;
        geometry_folder := geometry_folder;
        device := device;
        windows := windows;
        num_dofs := num_dofs;
        num_joints := num_joints;
        contact_bodies := contact_bodies;
        skeletons := fst <$> loaded;
        skeletons_contact_bodies := snd <$> loaded |}.

(** [__len__]. *)
Definition __len__ (d : AddBiomechanicsDataset) : Z := len (windows d).

(** [__getitem__]. *)
Definition __getitem__ (d : AddBiomechanicsDataset) (index : Z) : result Window :=
  getitem (windows d) index.
End construction.

(* ===================================================================== *)
(** ** The window extractor *)
(* ===================================================================== *)

Section extractor.
Context `{Numeric} `{Nimble} `{!FileSystem}.

(** The arrays [prepare_data_for_subset] pulls once per trial, each
    already transposed to one row per frame. *)
Record TrialArrays : Type := {
  probably_missing : list bool;
  trial_length : Z;
  pos : ndarray float64;
  vel : ndarray float64;
  acc : ndarray float64;
  joint_centers_in_root_frame : ndarray float64;
  root_spatial_vel_in_root_frame : ndarray float64;
  root_spatial_acc_in_root_frame : ndarray float64;
  root_pos_history : ndarray float64;
  root_euler_history : ndarray float64;
  tau : ndarray float64;
  ground_contact_wrenches_in_root_frame : ndarray float64;
  ground_contact_cop_torque_force_in_root_frame : ndarray float64;
  com_acc_in_root_frame : ndarray float64;
  residual_wrench_in_root_frame : ndarray float64
}.

(** The start of the loop over trials, up to the loop over windows. *)
Definition pull_trial (subject : SubjectOnDisk) (header : SubjectOnDiskHeader)
    (trial : Z) : result TrialArrays :=
  let probably_missing :=
    (λ reason, bool_decide (reason ≠ notMissingGRF)) <$> getMissingGRF subject trial in
  let trial_length := getTrialLength subject trial in
  t ← getitem (getTrials header) trial;
  let processing_passes := getPasses t in
  let input_pass_index := 0 in
  p_in ← getitem processing_passes input_pass_index;
  p_out ← getitem processing_passes (-1);
  Ok {| probably_missing := probably_missing;
        trial_length := trial_length;
        pos := transpose (getPoses p_in);
        vel := transpose (getVels p_in);
        acc := transpose (getAccs p_in);
        joint_centers_in_root_frame := transpose (getJointCentersInRootFrame p_in);
        root_spatial_vel_in_root_frame := transpose (getRootSpatialVelInRootFrame p_in);
        root_spatial_acc_in_root_frame := transpose (getRootSpatialAccInRootFrame p_in);
        root_pos_history := transpose (getRootPosHistoryInRootFrame p_in);
        root_euler_history := transpose (getRootEulerHistoryInRootFrame p_in);
        tau := transpose (getTaus p_out);
        ground_contact_wrenches_in_root_frame :=
          transpose (getGroundBodyWrenchesInRootFrame p_out);
        ground_contact_cop_torque_force_in_root_frame :=
          transpose (getGroundBodyCopTorqueForceInRootFrame p_out);
        com_acc_in_root_frame := transpose (getComAccsInRootFrame p_out);
        residual_wrench_in_root_frame := transpose (getResidualWrenchInRootFrame p_out) |}.

(** The scan [for i in range(…): if probably_missing[i]: skip = True; break];
    the value is the final [skip]. *)
Fixpoint any_missing (probably_missing : list bool) (frames : list Z) : result bool :=
  match frames with
  | [] => Ok false
  | i :: frames' =>
      flag ← getitem probably_missing i;
      if (flag : bool) then Ok true else any_missing probably_missing frames'
  end.

(** The three per-contact-body output arrays while they are filled. *)
Definition ContactArrays : Type :=
  ndarray float64 * ndarray float64 * ndarray float64.

(** One turn of [for i in range(len(self.contact_bodies))]. *)
Definition fill_contact (packed : ndarray float64) (mass : float64)
    (window_start window_end_exclusive : Z) (contact_indices : list Z)
    (arrays : ContactArrays) (i : Z) : result ContactArrays :=
  ci ← getitem contact_indices i;
  if decide (ci >= 0) then
    let '(cops, torques, forces) := arrays in
    cops' ← set_cols cops (3 * i) (3 * i + 3)
              (slice2 window_start window_end_exclusive (9 * ci) (9 * ci + 3) packed);
    torques' ← set_cols torques (3 * i) (3 * i + 3)
                 (div_scalar
                    (slice2 window_start window_end_exclusive (9 * ci + 3) (9 * ci + 6) packed)
                    mass);
    forces' ← set_cols forces (3 * i) (3 * i + 3)
                (div_scalar
                   (slice2 window_start window_end_exclusive (9 * ci + 6) (9 * ci + 9) packed)
                   mass);
    Ok (cops', torques', forces')
  else Ok arrays.

(** [numpy_input_dict] once its ten entries are set. *)
Definition numpy_input_dict (d : TrialArrays) (window_start window_end_exclusive : Z)
  : gmap string (ndarray float64) :=
  let frames := slice_rows window_start window_end_exclusive in
  <[InputDataKeys.ROOT_EULER_HISTORY_IN_ROOT_FRAME := frames (root_euler_history d)]>
  (<[InputDataKeys.ROOT_POS_HISTORY_IN_ROOT_FRAME := frames (root_pos_history d)]>
  (<[InputDataKeys.ROOT_ANGULAR_ACC_IN_ROOT_FRAME :=
       slice2 window_start window_end_exclusive 0 3 (root_spatial_acc_in_root_frame d)]>
  (<[InputDataKeys.ROOT_LINEAR_ACC_IN_ROOT_FRAME :=
       slice2 window_start window_end_exclusive 3 6 (root_spatial_acc_in_root_frame d)]>
  (<[InputDataKeys.ROOT_ANGULAR_VEL_IN_ROOT_FRAME :=
       slice2 window_start window_end_exclusive 0 3 (root_spatial_vel_in_root_frame d)]>
  (<[InputDataKeys.ROOT_LINEAR_VEL_IN_ROOT_FRAME :=
       slice2 window_start window_end_exclusive 3 6 (root_spatial_vel_in_root_frame d)]>
  (<[InputDataKeys.JOINT_CENTERS_IN_ROOT_FRAME := frames (joint_centers_in_root_frame d)]>
  (<[InputDataKeys.ACC := frames (acc d)]>
  (<[InputDataKeys.VEL := frames (vel d)]>
  (<[InputDataKeys.POS := frames (pos d)]> ∅))))))))).

(** [numpy_output_dict] once its seven entries are set and the three
    per-contact-body arrays are filled. *)
Definition numpy_output_dict (d : TrialArrays) (mass : float64)
    (window_start window_end_exclusive : Z) (filled : ContactArrays)
  : gmap string (ndarray float64) :=
  let frames := slice_rows window_start window_end_exclusive in
  let '(cops, torques, forces) := filled in
  <[OutputDataKeys.COM_ACC_IN_ROOT_FRAME := frames (com_acc_in_root_frame d)]>
  (<[OutputDataKeys.RESIDUAL_WRENCH_IN_ROOT_FRAME := frames (residual_wrench_in_root_frame d)]>
  (<[OutputDataKeys.GROUND_CONTACT_FORCES_IN_ROOT_FRAME := forces]>
  (<[OutputDataKeys.GROUND_CONTACT_TORQUES_IN_ROOT_FRAME := torques]>
  (<[OutputDataKeys.GROUND_CONTACT_COPS_IN_ROOT_FRAME := cops]>
  (<[OutputDataKeys.GROUND_CONTACT_WRENCHES_IN_ROOT_FRAME :=
       div_scalar (frames (ground_contact_wrenches_in_root_frame d)) mass]>
  (<[OutputDataKeys.TAU := frames (tau d)]> ∅)))))).

(** [contact_indices]: for each registry entry, its position in the
    subject's raw contact-body list, or -1. *)
Definition contact_indices_of (contact_bodies : list string) (subject : SubjectOnDisk)
  : list Z :=
  (λ body, index_or_minus_one body (getGroundForceBodies subject)) <$> contact_bodies.

(** The body of [if not skip:], up to the [append]: the window built for
    [window_start].  The three [np.zeros] calls give equal arrays.  Every
    [torch.tensor] call is given the same device and there is at least one:
    the first raises, or none does. *)
Definition make_window (window_size : Z) (contact_bodies : list string)
    (device : string) (subject_index : Z) (subject : SubjectOnDisk)
    (d : TrialArrays) (window_start : Z) : result Window :=
  let window_end_exclusive := window_start + window_size in
  let mass := getMassKg subject in
  zeros ← np_zeros (window_end_exclusive - window_start) (3 * len contact_bodies);
  let contact_indices := contact_indices_of contact_bodies subject in
  filled ← foldR (fill_contact (ground_contact_cop_torque_force_in_root_frame d) mass
                    window_start window_end_exclusive contact_indices)
                 (zeros, zeros, zeros) (range (len contact_bodies));
  _ ← torch_tensor_returns device;
  let input_dict :=
    (λ a, torch_tensor a device)
      <$> numpy_input_dict d window_start window_end_exclusive in
  let label_dict :=
    (λ a, torch_tensor a device)
      <$> numpy_output_dict d mass window_start window_end_exclusive filled in
  Ok (input_dict, label_dict, subject_index).

(** The body of [for window_start in range(…)]; the value is the new
    [num_skipped]. *)
Definition window_body (subject_index : Z) (subject : SubjectOnDisk) (d : TrialArrays)
    (num_skipped : Z) (window_start : Z) : M Z :=
  size ← gets window_size;
  skip ← lift (any_missing (probably_missing d) (range2 window_start (window_start + size)));
  if negb skip then
    size ← gets window_size;
    bodies ← gets contact_bodies;
    dev ← gets device;
    w ← lift (make_window size bodies dev subject_index subject d window_start);
    windows_append w;;
    mret num_skipped
  else mret (num_skipped + 1).

(** The body of [for trial in range(subject.getNumTrials())]. *)
Definition trial_body (subject_index : Z) (subject : SubjectOnDisk)
    (header : SubjectOnDiskHeader) (num_skipped : Z) (trial : Z) : M Z :=
  d ← lift (pull_trial subject header trial);
  size ← gets window_size;
  foldM (window_body subject_index subject d) num_skipped
        (range (Z.max (trial_length d - size + 1) 0)).

(** The body of [for progress_index, subject_index in enumerate(subset_indices)]:
    seeding, opening the recording and loading its frames can each raise
    before the first trial is read. *)
Definition subject_body (num_skipped : Z) (subject_index : Z) : M Z :=
  np_random_seed subject_index;;
  paths ← gets subject_paths;
  path ← lift (getitem paths subject_index);
  subject ← lift (SubjectOnDisk_open path);
  lift (match loadAllFrames_raises subject true with
        | Some e => Raise e
        | None => Ok ()
        end);;
  let header := loadAllFrames subject true in
  foldM (trial_body subject_index subject header) num_skipped
        (range (getNumTrials subject)).

(** [prepare_data_for_subset], giving back the final value of its local
    [num_skipped]. *)
Definition prepare_data_for_subset_counting (subset_indices : option (list Z)) : M Z :=
  set_windows [];;
  let num_skipped := 0 in
  indices ← match subset_indices with
            | None => paths ← gets subject_paths; mret (range (len paths))
            | Some l => mret l
            end;
  foldM subject_body num_skipped indices.

(** [AddBiomechanicsDataset.prepare_data_for_subset]. *)
Definition prepare_data_for_subset (subset_indices : option (list Z)) : M unit :=
  prepare_data_for_subset_counting subset_indices;; mret ().
End extractor.

(* ===================================================================== *)
(** ** An IEEE instance and a small recording *)
(* ===================================================================== *)

(** float64 values are the kernel's binary64 floats; a float32 value is
    kept as the binary64 float of the same value, reached by rounding to
    24 bits of precision (nearest, ties to even).  The machine of the
    example has the CPU only. *)
Definition round_to_binary32 (x : float) : float :=
  match Prim2SF x with
  | S754_finite s m e => SF2Prim (binary_round 24 128 s m e)
  | _ => x
  end.

Definition ieee_numeric : Numeric := {|
  float64 := float;
  float32 := float;
  fzero := 0%float;
  fdiv := PrimFloat.div;
  to_float32 := round_to_binary32;
  device_error := λ d, if decide (d = "cpu") then None else Some RuntimeError
|}.

(** Skeletons of the example are their list of body names. *)
Definition example_nimble : Nimble := {|
  Skeleton := list string;
  BodyNode := string;
  getBodyNode := λ skeleton name,
    Ok (if decide (name ∈ skeleton) then Some name else None)
|}.

Module Example.
#[local] Existing Instances ieee_numeric example_nimble.

(** An array of [r] rows and [c] columns holding [x] everywhere. *)
Definition full (r c : nat) (x : float) : ndarray float :=
  NdArray c (replicate r (replicate c x)).

(** A pass of [frames] frames for a subject with [dofs] degrees of freedom
    and [bodies] contact bodies; the packed contact array holds [cop],
    [torque], [force] in each body's 3+3+3 slots. *)
Definition packed_column (bodies : nat) (cop torque force : float) : list float :=
  mjoin (replicate bodies (replicate 3 cop ++ replicate 3 torque ++ replicate 3 force)).

Definition example_pass (frames dofs bodies : nat) (x cop torque force : float)
  : SubjectOnDiskTrialPass :=
  {| getPoses := full dofs frames x;
     getVels := full dofs frames x;
     getAccs := full dofs frames x;
     getJointCentersInRootFrame := full 3 frames x;
     getRootSpatialVelInRootFrame :=
       NdArray frames (replicate 3 (replicate frames 1%float)
                       ++ replicate 3 (replicate frames 2%float));
     getRootSpatialAccInRootFrame :=
       NdArray frames (replicate 3 (replicate frames 3%float)
                       ++ replicate 3 (replicate frames 4%float));
     getRootPosHistoryInRootFrame := full 3 frames x;
     getRootEulerHistoryInRootFrame := full 3 frames x;
     getTaus := full dofs frames x;
     getGroundBodyWrenchesInRootFrame := full (6 * bodies) frames force;
     getGroundBodyCopTorqueForceInRootFrame :=
       NdArray frames ((λ v, replicate frames v) <$> packed_column bodies cop torque force);
     getComAccsInRootFrame := full 3 frames x;
     getResidualWrenchInRootFrame := full 6 frames x |}.

(** A subject of 70 kg with two trials: 10 frames with frames 3 and 7
    flagged, then 6 frames with none flagged. *)
Definition flags_3_7 : list MissingGRFReason :=
  (λ i : nat, if decide (i = 3 ∨ i = 7)%nat then otherMissingGRFReason 1 else notMissingGRF)
    <$> seq 0 10.

Definition subject_a : SubjectOnDisk :=
  {| getNumDofs := 2;
     getNumJoints := 1;
     getGroundForceBodies := ["calcn_l"; "calcn_r"; "pelvis"];
     getMassKg := 70%float;
     getNumTrials := 2;
     getMissingGRF := λ trial, if decide (trial = 0) then flags_3_7
                               else replicate 6 notMissingGRF;
     getTrialLength := λ trial, if decide (trial = 0) then 10 else 6;
     getNumProcessingPasses := 2;
     readSkel := λ _ _, Ok ["calcn_l"; "calcn_r"; "pelvis"];
     loadAllFrames_raises := λ _, None;
     loadAllFrames := λ _,
       {| getTrials :=
            [ {| getPasses := [ example_pass 10 2 3 0.5 0.25 35 700;
                                example_pass 10 2 3 0.5 0.25 35 700 ] |};
              {| getPasses := [ example_pass 6 2 3 0.5 0.25 35 700;
                                example_pass 6 2 3 0.5 0.25 35 700 ] |} ] |} |}.

(** A second subject of 50 kg with other contact bodies: one trial of 6
    frames, none flagged. *)
Definition subject_b : SubjectOnDisk :=
  {| getNumDofs := 2;
     getNumJoints := 1;
     getGroundForceBodies := ["calcn_r"; "toes_r"];
     getMassKg := 50%float;
     getNumTrials := 1;
     getMissingGRF := λ _, replicate 6 notMissingGRF;
     getTrialLength := λ _, 6;
     getNumProcessingPasses := 1;
     readSkel := λ _ _, Ok ["calcn_r"; "toes_r"];
     loadAllFrames_raises := λ _, None;
     loadAllFrames := λ _,
       {| getTrials := [ {| getPasses := [ example_pass 6 2 2 0.5 0.125 25 100 ] |} ] |} |}.

(** A folder [data] holding the two recordings and a text file. *)
Definition example_fs : FileSystem := {|
  os_path_isdir := λ p, bool_decide (p = "data");
  os_walk := λ p,
    if decide (p = "data") then [("data", [], ["a.b3d"; "notes.txt"; "b.b3d"])] else [];
  SubjectOnDisk_open := λ p,
    if decide (p = "data/a.b3d") then Ok subject_a
    else if decide (p = "data/b.b3d") then Ok subject_b
    else Raise RuntimeError
|}.

#[local] Existing Instance example_fs.

(** A heap holding the dataset object [d], numpy never seeded. *)
Definition initial_heap (d : AddBiomechanicsDataset) : Heap :=
  {| self := d; np_random_state := None |}.

(** The dataset that
    [AddBiomechanicsDataset("data", 5, "geo", "cpu")] constructs. *)
Definition example_dataset : AddBiomechanicsDataset :=
  {| subject_paths := ["data/a.b3d"; "data/b.b3d"];
     window_size := 5;
     geometry_folder := "geo";
     device := "cpu";
     windows := [];
     num_dofs := Some 2;
     num_joints := Some 1;
     contact_bodies := ["calcn_l"; "calcn_r"];
     skeletons := [["calcn_l"; "calcn_r"; "pelvis"]; ["calcn_r"; "toes_r"]];
     skeletons_contact_bodies :=
       [[Some "calcn_l"; Some "calcn_r"]; [None; Some "calcn_r"]] |}.

(** The window at position [i] of the store after
    [prepare_data_for_subset()] on it. *)
Definition window_at (i : nat) : Window :=
  default (∅, ∅, 0)
    (windows (self (prepare_data_for_subset None (initial_heap example_dataset)).2) !! i).
End Example.

(** A recording whose quotients by the mass are not float32 numbers: a
    subject of 3 kg, one trial of five frames, none flagged, and a
    recorded force, torque and wrench of 1 throughout. *)
Module Rounding.
#[local] Existing Instances ieee_numeric example_nimble.

Definition pass_c : SubjectOnDiskTrialPass := Example.example_pass 5 2 1 0.5 0.25 1 1.

Definition subject_c : SubjectOnDisk :=
  {| getNumDofs := 2;
     getNumJoints := 1;
     getGroundForceBodies := ["calcn_r"];
     getMassKg := 3%float;
     getNumTrials := 1;
     getMissingGRF := λ _, replicate 5 notMissingGRF;
     getTrialLength := λ _, 5;
     getNumProcessingPasses := 1;
     readSkel := λ _ _, Ok ["calcn_r"];
     loadAllFrames_raises := λ _, None;
     loadAllFrames := λ _, {| getTrials := [ {| getPasses := [pass_c] |} ] |} |}.

(** The single file [c.b3d]. *)
Definition rounding_fs : FileSystem := {|
  os_path_isdir := λ _, false;
  os_walk := λ _, [];
  SubjectOnDisk_open := λ p, if decide (p = "c.b3d") then Ok subject_c
                             else Raise RuntimeError
|}.

#[local] Existing Instance rounding_fs.

(** The dataset that [AddBiomechanicsDataset("c.b3d", 5, "geo", "cpu")]
    constructs. *)
Definition rounding_dataset : AddBiomechanicsDataset :=
  {| subject_paths := ["c.b3d"];
     window_size := 5;
     geometry_folder := "geo";
     device := "cpu";
     windows := [];
     num_dofs := Some 2;
     num_joints := Some 1;
     contact_bodies := ["calcn_r"];
     skeletons := [["calcn_r"]];
     skeletons_contact_bodies := [[Some "calcn_r"]] |}.

Definition rounding_heap : Heap := {| self := rounding_dataset; np_random_state := None |}.

(** The one window of the store after [prepare_data_for_subset()]. *)
Definition rounding_window : Window :=
  default (∅, ∅, 0)
    (windows (self (prepare_data_for_subset None rounding_heap).2) !! 0%nat).

(** The field [key] holds the recorded values with [f] applied and
    nothing else done to them: [stored_from] without the conversion,
    which can be said where float32 values are kept as float64 values. *)
Definition exactly_from (fields : gmap string Tensor) (key : string)
    (f : float → float) (raw : ndarray float) (start : Z) (first : nat) : Prop :=
  ∃ tensor, fields !! key = Some tensor
            ∧ ∀ r c : nat, (r < nrows (tensor_data tensor))%nat →
                           (c < ncols (tensor_data tensor))%nat →
                ∃ x, entry raw (first + c) (Z.to_nat start + r) = Some x
                     ∧ entry (tensor_data tensor) r c = Some (f x).
End Rounding.

(** A recording for which [readSkel] returns [None]: there a skeleton is
    a list of body names or [None], and [getBodyNode] on [None] raises
    [AttributeError]. *)
Module NoSkeleton.
#[local] Existing Instance ieee_numeric.

Definition optional_nimble : Nimble := {|
  Skeleton := option (list string);
  BodyNode := string;
  getBodyNode := λ skeleton name,
    match skeleton with
    | Some bodies => Ok (if decide (name ∈ bodies) then Some name else None)
    | None => Raise AttributeError
    end
|}.

#[local] Existing Instance optional_nimble.

(** A subject with one contact body and no trial. *)
Definition subject_d : SubjectOnDisk :=
  {| getNumDofs := 2;
     getNumJoints := 1;
     getGroundForceBodies := ["calcn_r"];
     getMassKg := 60%float;
     getNumTrials := 0;
     getMissingGRF := λ _, [];
     getTrialLength := λ _, 0;
     getNumProcessingPasses := 1;
     readSkel := λ _ _, Ok None;
     loadAllFrames_raises := λ _, None;
     loadAllFrames := λ _, {| getTrials := [] |} |}.

Definition no_skeleton_fs : FileSystem := {|
  os_path_isdir := λ _, false;
  os_walk := λ _, [];
  SubjectOnDisk_open := λ p, if decide (p = "d.b3d") then Ok subject_d
                             else Raise RuntimeError
|}.
End NoSkeleton.

(* ===================================================================== *)
(** ** The extractor as a trace of events *)
(* ===================================================================== *)

(** What a run of [prepare_data_for_subset] does after it has emptied the
    window list, in order: it seeds numpy's generator, appends a window,
    counts a skipped candidate, or raises. *)
Section trace.
Context `{Numeric} `{Nimble} `{!FileSystem}.

Inductive event : Type :=
  | EvSeed (seed : Z)
  | EvWindow (w : Window)
  | EvSkip
  | EvRaise (e : exn).

Definition seeded (seed : Z) (h : Heap) : Heap :=
  {| self := self h; np_random_state := Some seed |}.

Definition appended (w : Window) (h : Heap) : Heap :=
  {| self := with_windows (windows (self h) ++ [w]) (self h);
     np_random_state := np_random_state h |}.

Definition emptied (h : Heap) : Heap :=
  {| self := with_windows [] (self h); np_random_state := np_random_state h |}.

(** Carry out a trace from [num_skipped] and the heap [h]. *)
Fixpoint replay (tr : list event) (num_skipped : Z) (h : Heap) : result Z * Heap :=
  match tr with
  | [] => (Ok num_skipped, h)
  | EvSeed seed :: tr' => replay tr' num_skipped (seeded seed h)
  | EvWindow w :: tr' => replay tr' num_skipped (appended w h)
  | EvSkip :: tr' => replay tr' (num_skipped + 1) h
  | EvRaise e :: _ => (Raise e, h)
  end.

(** The windows a trace appends before it raises, if it does. *)
Fixpoint committed (tr : list event) : list Window :=
  match tr with
  | [] => []
  | EvWindow w :: tr' => w :: committed tr'
  | EvRaise _ :: _ => []
  | _ :: tr' => committed tr'
  end.

(** The candidates a trace counts as skipped before it raises. *)
Fixpoint skipped (tr : list event) : Z :=
  match tr with
  | [] => 0
  | EvSkip :: tr' => 1 + skipped tr'
  | EvRaise _ :: _ => 0
  | _ :: tr' => skipped tr'
  end.

Definition raises (tr : list event) : Prop := ∃ e, EvRaise e ∈ tr.

(** The event of one candidate window start. *)
Definition window_event (size : Z) (bodies : list string) (dev : string)
    (subject_index : Z) (subject : SubjectOnDisk) (d : TrialArrays)
    (window_start : Z) : event :=
  match any_missing (probably_missing d) (range2 window_start (window_start + size)) with
  | Raise e => EvRaise e
  | Ok true => EvSkip
  | Ok false =>
      match make_window size bodies dev subject_index subject d window_start with
      | Ok w => EvWindow w
      | Raise e => EvRaise e
      end
  end.

(** The candidate window starts of a trial of [length] frames. *)
Definition candidate_starts (size length : Z) : list Z :=
  range (Z.max (length - size + 1) 0).

Definition trial_trace (size : Z) (bodies : list string) (dev : string)
    (subject_index : Z) (subject : SubjectOnDisk) (header : SubjectOnDiskHeader)
    (trial : Z) : list event :=
  match pull_trial subject header trial with
  | Raise e => [EvRaise e]
  | Ok d =>
      window_event size bodies dev subject_index subject d
        <$> candidate_starts size (trial_length d)
  end.

Definition subject_trace (paths : list string) (size : Z) (bodies : list string)
    (dev : string) (subject_index : Z) : list event :=
  if decide (0 ≤ subject_index < 2 ^ 32) then
    EvSeed subject_index ::
    match getitem paths subject_index with
    | Raise e => [EvRaise e]
    | Ok path =>
        match SubjectOnDisk_open path with
        | Raise e => [EvRaise e]
        | Ok subject =>
            match loadAllFrames_raises subject true with
            | Some e => [EvRaise e]
            | None =>
                mjoin (trial_trace size bodies dev subject_index subject
                         (loadAllFrames subject true)
                       <$> range (getNumTrials subject))
            end
        end
    end
  else [EvRaise ValueError].

(** The subject indices a call walks over. *)
Definition selected (d : AddBiomechanicsDataset) (subset_indices : option (list Z))
  : list Z :=
  match subset_indices with
  | None => range (len (subject_paths d))
  | Some l => l
  end.

Definition prepare_trace (d : AddBiomechanicsDataset) (subset_indices : option (list Z))
  : list event :=
  mjoin (subject_trace (subject_paths d) (window_size d) (contact_bodies d) (device d)
         <$> selected d subset_indices).
End trace.

(* ===================================================================== *)
(** ** Notions the stated properties use *)
(* ===================================================================== *)

Section notions.
Context `{Numeric} `{Nimble} `{!FileSystem}.

(** The names of [raw] that are not ['pelvis'], each at the place of its
    first occurrence. *)
Fixpoint first_seen (raw : list string) : list string :=
  match raw with
  | [] => []
  | body :: raw' =>
      if decide (body = "pelvis") then first_seen raw'
      else body :: filter (λ other, other ≠ body) (first_seen raw')
  end.

Definition sumZ (l : list Z) : Z := foldr Z.add 0 l.

(** The subject a subject index stands for. *)
Definition subject_at (d : AddBiomechanicsDataset) (subject_index : Z)
  : result SubjectOnDisk :=
  path ← getitem (subject_paths d) subject_index;
  SubjectOnDisk_open path.

(** The number of window starts [0 .. length - size] of a trial: none
    when the trial is shorter than a window. *)
Definition num_candidates (size length : Z) : Z :=
  if decide (length < size) then 0 else length - size + 1.

(** Frame [i] of the trial is flagged as missing its ground truth. *)
Definition frame_flagged (subject : SubjectOnDisk) (trial i : Z) : Prop :=
  ∃ reason, getMissingGRF subject trial !! Z.to_nat i = Some reason
            ∧ reason ≠ notMissingGRF.

#[global] Instance frame_flagged_dec subject trial i :
  Decision (frame_flagged subject trial i).
Proof.
  unfold frame_flagged.
  destruct (getMissingGRF subject trial !! Z.to_nat i) as [reason|].
  - destruct (decide (reason = notMissingGRF)) as [->|Hne].
    + right. intros (r & [= <-] & Hr). by apply Hr.
    + left. eauto.
  - right. by intros (r & [=] & _).
Defined.

(** The candidate at [start] has a flagged frame in [start, start + size). *)
Definition candidate_flagged (size : Z) (subject : SubjectOnDisk) (trial start : Z)
  : Prop :=
  Exists (frame_flagged subject trial) (range2 start (start + size)).

(** Sum of a per-trial count over the trials of the selected subjects. *)
Definition over_selected (count : SubjectOnDisk → Z → Z)
    (d : AddBiomechanicsDataset) (subset_indices : option (list Z)) : Z :=
  sumZ ((λ subject_index,
           match subject_at d subject_index with
           | Ok subject => sumZ (count subject <$> range (getNumTrials subject))
           | Raise _ => 0
           end) <$> selected d subset_indices).

Definition total_candidates (d : AddBiomechanicsDataset) :=
  over_selected
    (λ subject trial, num_candidates (window_size d) (getTrialLength subject trial)) d.

Definition total_flagged (d : AddBiomechanicsDataset) :=
  over_selected
    (λ subject trial,
       len (filter (candidate_flagged (window_size d) subject trial)
              (range (num_candidates (window_size d) (getTrialLength subject trial))))) d.

(** The arrays of a pass. *)
Definition pass_arrays (p : SubjectOnDiskTrialPass) : list (ndarray float64) :=
  [ getPoses p; getVels p; getAccs p; getJointCentersInRootFrame p;
    getRootSpatialVelInRootFrame p; getRootSpatialAccInRootFrame p;
    getRootPosHistoryInRootFrame p; getRootEulerHistoryInRootFrame p;
    getTaus p; getGroundBodyWrenchesInRootFrame p;
    getGroundBodyCopTorqueForceInRootFrame p; getComAccsInRootFrame p;
    getResidualWrenchInRootFrame p ].

(** The recording library's contract on a pass of a trial of [frames]
    frames of a subject with [bodies] contact bodies: every array is
    rectangular with one column per frame, and the packed contact array
    has nine rows per contact body. *)
Definition pass_well_formed (frames : Z) (bodies : nat) (p : SubjectOnDiskTrialPass)
  : Prop :=
  Forall (λ a, rectangular a ∧ Z.of_nat (ncols a) = frames) (pass_arrays p)
  ∧ nrows (getGroundBodyCopTorqueForceInRootFrame p) = (9 * bodies)%nat.

Definition trial_well_formed (subject : SubjectOnDisk) (trial : Z) : Prop :=
  match getTrials (loadAllFrames subject true) !! Z.to_nat trial with
  | Some t =>
      Forall (pass_well_formed (getTrialLength subject trial)
                (length (getGroundForceBodies subject))) (getPasses t)
  | None => True
  end.

Definition subject_well_formed (subject : SubjectOnDisk) : Prop :=
  Forall (trial_well_formed subject) (range (getNumTrials subject)).

#[global] Instance subject_well_formed_dec subject :
  Decision (subject_well_formed subject).
Proof.
  unfold subject_well_formed. apply Forall_dec. intros trial.
  unfold trial_well_formed.
  destruct (getTrials (loadAllFrames subject true) !! Z.to_nat trial); [|left; exact I].
  unfold pass_well_formed. apply _.
Defined.

(** Where a window of the store comes from: the subject index it was
    built for, the subject behind it, the trial, the arrays pulled for
    that trial and the start frame. *)
Record origin (d : AddBiomechanicsDataset) (subset_indices : option (list Z))
    (w : Window) (subject_index : Z) (subject : SubjectOnDisk) (trial : Z)
    (arrays : TrialArrays) (window_start : Z) : Prop := {
  origin_selected : subject_index ∈ selected d subset_indices;
  origin_subject : subject_at d subject_index = Ok subject;
  origin_trial : 0 ≤ trial < getNumTrials subject;
  origin_arrays : pull_trial subject (loadAllFrames subject true) trial = Ok arrays;
  origin_start : 0 ≤ window_start < Z.max (trial_length arrays - window_size d + 1) 0;
  origin_valid :
    any_missing (probably_missing arrays)
      (range2 window_start (window_start + window_size d)) = Ok false;
  origin_window :
    make_window (window_size d) (contact_bodies d) (device d) subject_index subject
      arrays window_start = Ok w
}.

(** Two dataset objects that differ at most in their window list. *)
Definition same_frame (d d' : AddBiomechanicsDataset) : Prop :=
  with_windows [] d = with_windows [] d'.

(** Columns [3*i .. 3*i+3]: the slot of registry entry [i] in a
    per-contact-body output. *)
Definition slot (i : Z) (t : Tensor) : ndarray float32 :=
  slice_cols (3 * i) (3 * i + 3) (tensor_data t).

(** The slots of registry entry [i] in the three arrays being filled. *)
Definition contact_slots (i : Z) (arrays : ContactArrays) : ContactArrays :=
  let '(cops, torques, forces) := arrays in
  (slice_cols (3 * i) (3 * i + 3) cops,
   slice_cols (3 * i) (3 * i + 3) torques,
   slice_cols (3 * i) (3 * i + 3) forces).

(** What the slots of an entry mapped to raw contact body [ci] are
    filled from: the body's packed centre of pressure as recorded, its
    torque and its force divided by the mass. *)
Definition contact_source (packed : ndarray float64) (mass : float64)
    (window_start window_end_exclusive ci : Z) : ContactArrays :=
  (slice2 window_start window_end_exclusive (9 * ci) (9 * ci + 3) packed,
   div_scalar
     (slice2 window_start window_end_exclusive (9 * ci + 3) (9 * ci + 6) packed) mass,
   div_scalar
     (slice2 window_start window_end_exclusive (9 * ci + 6) (9 * ci + 9) packed) mass).

(** The arrays pulled for a trial. *)
Definition trial_arrays_list (d : TrialArrays) : list (ndarray float64) :=
  [ pos d; vel d; acc d; joint_centers_in_root_frame d;
    root_spatial_vel_in_root_frame d; root_spatial_acc_in_root_frame d;
    root_pos_history d; root_euler_history d; tau d;
    ground_contact_wrenches_in_root_frame d;
    ground_contact_cop_torque_force_in_root_frame d;
    com_acc_in_root_frame d; residual_wrench_in_root_frame d ].

(** The pulled arrays of a well-formed trial: rectangular, one row per
    frame, and nine packed columns per raw contact body. *)
Definition arrays_well_formed (frames : Z) (bodies : nat) (d : TrialArrays) : Prop :=
  Forall (λ a, rectangular a ∧ Z.of_nat (nrows a) = frames) (trial_arrays_list d)
  ∧ ncols (ground_contact_cop_torque_force_in_root_frame d) = (9 * bodies)%nat.

(** An array of [m] rows with three columns for each of [n] registry entries. *)
Definition contact_shaped (m n : nat) (a : ndarray float64) : Prop :=
  rectangular a ∧ ncols a = (3 * n)%nat ∧ nrows a = m.

(** The float64 array [a] holds frames of the recorded array [raw], which
    has one row per dimension and one column per frame as the recording
    library returns it: row [r], column [c] of [a] is the recorded value
    of dimension [first + c] at frame [start + r]. *)
Definition frames_of (raw : ndarray float64) (start : Z) (first : nat)
    (a : ndarray float64) : Prop :=
  ∀ r c : nat, (r < nrows a)%nat → (c < ncols a)%nat →
    ∃ x, entry raw (first + c) (Z.to_nat start + r) = Some x
         ∧ entry a r c = Some x.

(** The stored float32 array [t] holds, at row [r] and column [c], the
    recorded value of dimension [first + c] at frame [start + r], with [f]
    applied to it in float64 and the result converted to float32. *)
Definition stored_from (f : float64 → float64) (raw : ndarray float64) (start : Z)
    (first : nat) (t : ndarray float32) : Prop :=
  ∀ r c : nat, (r < nrows t)%nat → (c < ncols t)%nat →
    ∃ x, entry raw (first + c) (Z.to_nat start + r) = Some x
         ∧ entry t r c = Some (to_float32 (f x)).

(** [t] has [size] rows and [width] columns, stored from [raw]. *)
Definition array_from (size : Z) (width : nat) (f : float64 → float64)
    (raw : ndarray float64) (start : Z) (first : nat) (t : ndarray float32) : Prop :=
  Z.of_nat (nrows t) = size ∧ ncols t = width ∧ stored_from f raw start first t.

(** The field [key] of a window is such a tensor. *)
Definition field_from (fields : gmap string Tensor) (key : string) (size : Z)
    (width : nat) (f : float64 → float64) (raw : ndarray float64) (start : Z)
    (first : nat) : Prop :=
  ∃ tensor, fields !! key = Some tensor
            ∧ array_from size width f raw start first (tensor_data tensor).
End notions.

(* ===================================================================== *)
(** ** Further notions *)
(* ===================================================================== *)

(** The keys [prepare_data_for_subset] writes into [numpy_input_dict]
    and into [numpy_output_dict]. *)
Definition input_keys : gset string :=
  list_to_set
    [ InputDataKeys.POS; InputDataKeys.VEL; InputDataKeys.ACC;
      InputDataKeys.JOINT_CENTERS_IN_ROOT_FRAME;
      InputDataKeys.ROOT_LINEAR_VEL_IN_ROOT_FRAME;
      InputDataKeys.ROOT_ANGULAR_VEL_IN_ROOT_FRAME;
      InputDataKeys.ROOT_LINEAR_ACC_IN_ROOT_FRAME;
      InputDataKeys.ROOT_ANGULAR_ACC_IN_ROOT_FRAME;
      InputDataKeys.ROOT_POS_HISTORY_IN_ROOT_FRAME;
      InputDataKeys.ROOT_EULER_HISTORY_IN_ROOT_FRAME ].

Definition output_keys : gset string :=
  list_to_set
    [ OutputDataKeys.TAU;
      OutputDataKeys.GROUND_CONTACT_WRENCHES_IN_ROOT_FRAME;
      OutputDataKeys.GROUND_CONTACT_COPS_IN_ROOT_FRAME;
      OutputDataKeys.GROUND_CONTACT_TORQUES_IN_ROOT_FRAME;
      OutputDataKeys.GROUND_CONTACT_FORCES_IN_ROOT_FRAME;
      OutputDataKeys.RESIDUAL_WRENCH_IN_ROOT_FRAME;
      OutputDataKeys.COM_ACC_IN_ROOT_FRAME ].

Section further_notions.
Context `{Numeric} `{Nimble} `{!FileSystem}.

(** A trial the extractor can pull: the loaded header has the trial, the
    trial has a pass, and there is a missing-ground-truth reason for every
    frame. *)
Definition trial_ready (subject : SubjectOnDisk) (trial : Z) : Prop :=
  match getTrials (loadAllFrames subject true) !! Z.to_nat trial with
  | Some t =>
      getPasses t ≠ []
      ∧ getTrialLength subject trial ≤ len (getMissingGRF subject trial)
  | None => False
  end.

Definition subject_ready (subject : SubjectOnDisk) : Prop :=
  Forall (trial_ready subject) (range (getNumTrials subject)).

#[global] Instance subject_ready_dec subject : Decision (subject_ready subject).
Proof.
  unfold subject_ready. apply Forall_dec. intros trial. unfold trial_ready.
  destruct (getTrials (loadAllFrames subject true) !! Z.to_nat trial); apply _.
Defined.

(** A subject index a call can process: a valid seed, a position of
    [subject_paths], and behind it a recording that opens, loads its
    frames without raising, keeps the recording contract and is ready to
    be pulled. *)
Definition index_ready (d : AddBiomechanicsDataset) (subject_index : Z) : Prop :=
  0 ≤ subject_index < len (subject_paths d)
  ∧ subject_index < 2 ^ 32
  ∧ match subject_at d subject_index with
    | Ok subject =>
        loadAllFrames_raises subject true = None
        ∧ subject_well_formed subject ∧ subject_ready subject
    | Raise _ => False
    end.

#[global] Instance index_ready_dec d subject_index : Decision (index_ready d subject_index).
Proof. unfold index_ready. destruct (subject_at d subject_index); apply _. Defined.

(** The windows a trial contributes, as the results of building them:
    one for each candidate start without a flagged frame, in increasing
    order of the start. *)
Definition trial_windows (d : AddBiomechanicsDataset) (subject_index : Z)
    (subject : SubjectOnDisk) (trial : Z) : list (result Window) :=
  match pull_trial subject (loadAllFrames subject true) trial with
  | Ok arrays =>
      make_window (window_size d) (contact_bodies d) (device d) subject_index
        subject arrays
      <$> filter (λ start, ¬ candidate_flagged (window_size d) subject trial start)
            (range (num_candidates (window_size d) (getTrialLength subject trial)))
  | Raise _ => []
  end.

(** The windows a subject index contributes: those of its trials, in the
    order of the trials. *)
Definition subject_windows (d : AddBiomechanicsDataset) (subject_index : Z)
  : list (result Window) :=
  match subject_at d subject_index with
  | Ok subject =>
      mjoin (trial_windows d subject_index subject <$> range (getNumTrials subject))
  | Raise _ => []
  end.

(** The exception the turn of the subject loop for [subject_index] raises
    up to the opening of the recording, if any: [ValueError] from seeding
    the generator, or else what reading [subject_paths] or opening the
    recording raises. *)
Definition index_fails (d : AddBiomechanicsDataset) (subject_index : Z) : option exn :=
  if decide (0 ≤ subject_index < 2 ^ 32) then
    match subject_at d subject_index with
    | Ok _ => None
    | Raise e => Some e
    end
  else Some ValueError.

(** The seeds a trace gives to numpy before it raises, if it does. *)
Fixpoint seeds (tr : list event) : list Z :=
  match tr with
  | [] => []
  | EvSeed seed :: tr' => seed :: seeds tr'
  | EvRaise _ :: _ => []
  | _ :: tr' => seeds tr'
  end.
End further_notions.

(** A file system in which every path is a folder holding one text
    file and no recording. *)
Definition folder_without_recordings `{Numeric} `{Nimble} : FileSystem := {|
  os_path_isdir := λ _, true;
  os_walk := λ p, [(p, [], ["notes.txt"])];
  SubjectOnDisk_open := λ _, Raise RuntimeError
|}.

(* ===================================================================== *)
(** ** The extractor carries out its trace *)
(* ===================================================================== *)

Section refinement.
Context `{Numeric} `{Nimble} `{!FileSystem}.

Lemma same_frame_fields d d' :
  same_frame d d' →
  subject_paths d = subject_paths d' ∧ window_size d = window_size d'
  ∧ contact_bodies d = contact_bodies d' ∧ device d = device d'
  ∧ skeletons d = skeletons d'
  ∧ skeletons_contact_bodies d = skeletons_contact_bodies d'.
Proof.
  intros Hfr. unfold same_frame in Hfr.
  repeat split.
  - exact (f_equal subject_paths Hfr).
  - exact (f_equal window_size Hfr).
  - exact (f_equal contact_bodies Hfr).
  - exact (f_equal device Hfr).
  - exact (f_equal skeletons Hfr).
  - exact (f_equal skeletons_contact_bodies Hfr).
Qed.

Lemma same_frame_with_windows ws d : same_frame (with_windows ws d) d.
Proof. reflexivity. Qed.

Lemma replay_app tr1 tr2 n h :
  replay (tr1 ++ tr2) n h =
  match replay tr1 n h with
  | (Ok n', h') => replay tr2 n' h'
  | (Raise e, h') => (Raise e, h')
  end.
Proof.
  induction tr1 as [|ev tr1 IH] in n, h |- *; [done|].
  destruct ev; simpl; auto.
Qed.

Lemma replay_same_frame tr n h : same_frame (self (replay tr n h).2) (self h).
Proof.
  induction tr as [|ev tr IH] in n, h |- *; [done|].
  destruct ev; simpl; try done.
  - etrans; [apply IH|done].
  - etrans; [apply IH|done].
Qed.

Lemma mjoin_singletons {A B} (f : A → B) (l : list A) :
  mjoin ((λ x, [f x]) <$> l) = f <$> l.
Proof. induction l as [|x l IH]; [done|]. rewrite !fmap_cons. simpl. by f_equal. Qed.

(** A loop whose body carries out a trace that depends on the frame of
    [self] only carries out the traces of its turns one after the other. *)
Lemma foldM_replay {A} (body : Z → A → M Z)
    (tracef : AddBiomechanicsDataset → A → list event) :
  (∀ d d' x, same_frame d d' → tracef d x = tracef d' x) →
  (∀ n x h, body n x h = replay (tracef (self h) x) n h) →
  ∀ l n h, foldM body n l h = replay (mjoin (tracef (self h) <$> l)) n h.
Proof.
  intros Hframe Hbody l.
  induction l as [|x l IH]; intros n h; [done|].
  simpl. rewrite replay_app. unfold mbind, M_bind.
  rewrite Hbody.
  pose proof (replay_same_frame (tracef (self h) x) n h) as Hfr.
  destruct (replay (tracef (self h) x) n h) as [[n'|e] h']; [|done].
  simpl in Hfr. rewrite IH.
  f_equal. f_equal. apply list_fmap_ext. intros _ y _. by apply Hframe.
Qed.

Lemma window_body_replay subject_index subject d n window_start h :
  window_body subject_index subject d n window_start h =
  replay [window_event (window_size (self h)) (contact_bodies (self h))
            (device (self h)) subject_index subject d window_start] n h.
Proof.
  unfold window_body, window_event, mbind, M_bind, gets, lift, windows_append. simpl.
  destruct (any_missing _ _) as [[|]|e]; simpl; try done.
  by destruct (make_window _ _ _ _ _ _ _).
Qed.

Lemma trial_body_replay subject_index subject header n trial h :
  trial_body subject_index subject header n trial h =
  replay (trial_trace (window_size (self h)) (contact_bodies (self h))
            (device (self h)) subject_index subject header trial) n h.
Proof.
  unfold trial_body, trial_trace, mbind at 1, M_bind at 1, lift. simpl.
  destruct (pull_trial subject header trial) as [d|e]; [|done].
  unfold mbind, M_bind, gets. simpl.
  rewrite (foldM_replay _
    (λ s x, [window_event (window_size s) (contact_bodies s) (device s)
               subject_index subject d x])).
  - by rewrite mjoin_singletons.
  - intros s s' x Hfr. apply same_frame_fields in Hfr as (_ & -> & -> & -> & _). done.
  - intros. apply window_body_replay.
Qed.

Lemma subject_body_replay n subject_index h :
  subject_body n subject_index h =
  replay (subject_trace (subject_paths (self h)) (window_size (self h))
            (contact_bodies (self h)) (device (self h)) subject_index) n h.
Proof.
  unfold subject_body, subject_trace, mbind at 1, M_bind at 1, np_random_seed.
  destruct (decide (0 ≤ subject_index < 2 ^ 32)); [|done].
  unfold mbind, M_bind, gets, lift. simpl.
  destruct (getitem _ _) as [path|e]; [|done].
  destruct (SubjectOnDisk_open path) as [subject|e]; [|done].
  destruct (loadAllFrames_raises subject true) as [e|]; [done|].
  rewrite (foldM_replay _
    (λ s, trial_trace (window_size s) (contact_bodies s) (device s)
            subject_index subject (loadAllFrames subject true))).
  - done.
  - intros s s' x Hfr. apply same_frame_fields in Hfr as (_ & -> & -> & -> & _). done.
  - intros. apply trial_body_replay.
Qed.

Lemma prepare_trace_frame d d' s :
  same_frame d d' → prepare_trace d s = prepare_trace d' s.
Proof.
  intros Hfr. apply same_frame_fields in Hfr as (Hp & Hs & Hb & Hd & _).
  unfold prepare_trace, selected. by rewrite Hp, Hs, Hb, Hd.
Qed.

(** A call empties the window list and then carries out the trace of the
    frame it was called on. *)
Lemma prepare_replay s h :
  prepare_data_for_subset_counting s h =
  replay (prepare_trace (self h) s) 0 (emptied h).
Proof.
  unfold prepare_data_for_subset_counting, mbind at 1, M_bind at 1, set_windows.
  fold (emptied h).
  assert (∀ l, foldM subject_body 0 l (emptied h) =
               replay (mjoin (subject_trace (subject_paths (self h))
                                (window_size (self h)) (contact_bodies (self h))
                                (device (self h)) <$> l)) 0 (emptied h)) as Hloop.
  { intros l.
    rewrite (foldM_replay _
      (λ s, subject_trace (subject_paths s) (window_size s) (contact_bodies s) (device s))).
    - done.
    - intros d d' x Hfr.
      apply same_frame_fields in Hfr as (-> & -> & -> & -> & _). done.
    - intros. apply subject_body_replay. }
  unfold prepare_trace, selected.
  destruct s as [l|]; unfold mbind, M_bind, gets; simpl; apply Hloop.
Qed.
End refinement.

(* ===================================================================== *)
(** ** What a trace leaves behind *)
(* ===================================================================== *)

Section replay_facts.
Context `{Numeric} `{Nimble} `{!FileSystem}.

Lemma replay_windows tr n h :
  windows (self (replay tr n h).2) = windows (self h) ++ committed tr.
Proof.
  induction tr as [|ev tr IH] in n, h |- *; simpl.
  - by rewrite app_nil_r.
  - destruct ev; simpl; rewrite ?IH; simpl; try done.
    + by rewrite <- app_assoc.
    + by rewrite app_nil_r.
Qed.

Lemma replay_outcome_heap tr n h h' : (replay tr n h).1 = (replay tr n h').1.
Proof.
  induction tr as [|ev tr IH] in n, h, h' |- *; [done|].
  destruct ev; simpl; auto.
Qed.

Lemma replay_Ok tr n h n' :
  (replay tr n h).1 = Ok n' → ¬ raises tr ∧ n' = n + skipped tr.
Proof.
  induction tr as [|ev tr IH] in n, h |- *; simpl.
  - intros [= <-]. split; [|lia]. intros (e & He). by apply elem_of_nil in He.
  - destruct ev; simpl; try (intros Hr; apply IH in Hr as (Hnr & ->); split; [|lia];
      intros (e & [He|He]%elem_of_cons); [done|]; apply Hnr; by exists e).
    done.
Qed.

Lemma replay_not_raises tr n h :
  ¬ raises tr → (replay tr n h).1 = Ok (n + skipped tr).
Proof.
  induction tr as [|ev tr IH] in n, h |- *; simpl; intros Hnr.
  - f_equal. lia.
  - assert (¬ raises tr) as Hnr'.
    { intros (e & He). apply Hnr. exists e. by right. }
    destruct ev; simpl; rewrite ?IH by done; try (f_equal; lia).
    exfalso. apply Hnr. exists e. by left.
Qed.

Lemma committed_elem_of tr w : w ∈ committed tr → EvWindow w ∈ tr.
Proof.
  induction tr as [|ev tr IH]; simpl; [by intros ?%elem_of_nil|].
  destruct ev; simpl; intros Hw; try (right; by apply IH).
  - apply elem_of_cons in Hw as [->|Hw]; [by left|right; by apply IH].
  - by apply elem_of_nil in Hw.
Qed.

Lemma raises_app tr1 tr2 : raises (tr1 ++ tr2) ↔ raises tr1 ∨ raises tr2.
Proof.
  unfold raises. split.
  - intros (e & [He|He]%elem_of_app); eauto.
  - intros [(e & He)|(e & He)]; exists e; apply elem_of_app; auto.
Qed.

Lemma committed_app tr1 tr2 :
  ¬ raises tr1 → committed (tr1 ++ tr2) = committed tr1 ++ committed tr2.
Proof.
  induction tr1 as [|ev tr1 IH]; [done|]. intros Hnr.
  assert (¬ raises tr1) as Hnr'.
  { intros (e & He). apply Hnr. exists e. by right. }
  destruct ev; simpl; rewrite ?IH by done; try done.
  exfalso. apply Hnr. exists e. by left.
Qed.

Lemma skipped_app tr1 tr2 :
  ¬ raises tr1 → skipped (tr1 ++ tr2) = skipped tr1 + skipped tr2.
Proof.
  induction tr1 as [|ev tr1 IH]; [done|]. intros Hnr.
  assert (¬ raises tr1) as Hnr'.
  { intros (e & He). apply Hnr. exists e. by right. }
  destruct ev; simpl; rewrite ?IH by done; try lia.
  exfalso. apply Hnr. exists e. by left.
Qed.

(** A window event is a valid candidate whose window was built. *)
Lemma window_event_window size bodies dev subject_index subject d start w :
  window_event size bodies dev subject_index subject d start = EvWindow w →
  any_missing (probably_missing d) (range2 start (start + size)) = Ok false
  ∧ make_window size bodies dev subject_index subject d start = Ok w.
Proof.
  unfold window_event.
  destruct (any_missing _ _) as [[|]|e]; try done.
  destruct (make_window _ _ _ _ _ _ _) as [w'|e]; try done.
  by intros [= ->].
Qed.

(** Every window event of a call's trace has an origin. *)
Lemma prepare_trace_origin d s w :
  EvWindow w ∈ prepare_trace d s →
  ∃ subject_index subject trial arrays start,
    origin d s w subject_index subject trial arrays start.
Proof.
  unfold prepare_trace.
  intros (tr & Hw & (si & -> & Hsi)%list_elem_of_fmap)%list_elem_of_join.
  unfold subject_trace in Hw.
  destruct (decide (0 ≤ si < 2 ^ 32)); [|by apply list_elem_of_singleton in Hw].
  apply elem_of_cons in Hw as [?|Hw]; [done|].
  destruct (getitem (subject_paths d) si) as [path|e] eqn:Hpath;
    [|by apply list_elem_of_singleton in Hw].
  destruct (SubjectOnDisk_open path) as [subject|e] eqn:Hopen;
    [|by apply list_elem_of_singleton in Hw].
  destruct (loadAllFrames_raises subject true) as [e|];
    [by apply list_elem_of_singleton in Hw|].
  apply list_elem_of_join in Hw as (tr & Hw & (trial & -> & Htrial)%list_elem_of_fmap).
  unfold trial_trace in Hw.
  destruct (pull_trial _ _ _) as [arrays|e] eqn:Hpull;
    [|by apply list_elem_of_singleton in Hw].
  apply list_elem_of_fmap in Hw as (start & Hev & Hstart).
  symmetry in Hev. apply window_event_window in Hev as (Hvalid & Hmake).
  unfold range in *. apply elem_of_seqZ in Htrial. apply elem_of_seqZ in Hstart.
  exists si, subject, trial, arrays, start.
  split; try done; [by unfold subject_at; rewrite Hpath | lia..].
Qed.
End replay_facts.

(* ===================================================================== *)
(** ** Construction *)
(* ===================================================================== *)

Section registry_facts.

Lemma first_seen_elem_of raw name :
  name ∈ first_seen raw ↔ name ∈ raw ∧ name ≠ "pelvis".
Proof.
  induction raw as [|body raw IH]; simpl.
  - split; [by intros ?%elem_of_nil | by intros [?%elem_of_nil _]].
  - destruct (decide (body = "pelvis")) as [->|Hbody].
    + rewrite IH, elem_of_cons. intuition congruence.
    + rewrite !elem_of_cons, list_elem_of_filter, IH.
      destruct (decide (name = body)); intuition congruence.
Qed.

Lemma first_seen_NoDup raw : NoDup (first_seen raw).
Proof.
  induction raw as [|body raw IH]; simpl; [constructor|].
  destruct (decide (body = "pelvis")); [done|].
  constructor.
  - rewrite list_elem_of_filter. intros [Hne _]. by apply Hne.
  - by apply NoDup_filter.
Qed.

(** The loop, started on any registry, appends the first occurrences it
    does not hold yet. *)
Lemma harmonize_from_first_seen registry raw :
  harmonize_from registry raw =
  registry ++ filter (λ name, name ∉ registry) (first_seen raw).
Proof.
  unfold harmonize_from.
  induction raw as [|body raw IH] in registry |- *; simpl.
  - by rewrite app_nil_r.
  - unfold harmonize_step at 2.
    destruct (decide (body = "pelvis")) as [->|Hbody]; [apply IH|].
    destruct (decide (body ∈ registry)) as [Hin|Hnin]; rewrite IH.
    + rewrite filter_cons_False by (intros Hn; by apply Hn).
      rewrite list_filter_filter_l; [done|]. intros name Hname ->. done.
    + rewrite filter_cons_True by done.
      rewrite <- app_assoc. simpl. do 2 f_equal.
      rewrite list_filter_filter. apply list_filter_iff.
      intros name. rewrite not_elem_of_app, list_elem_of_singleton. done.
Qed.

Lemma harmonize_first_seen raw : harmonize raw = first_seen raw.
Proof.
  unfold harmonize. rewrite harmonize_from_first_seen. simpl.
  induction (first_seen raw) as [|name l IH]; [done|].
  rewrite filter_cons_True; [by f_equal|]. apply not_elem_of_nil.
Qed.
End registry_facts.

Section construction_facts.
Context `{Numeric} `{Nimble} `{!FileSystem}.

Lemma getitem_nil {A} (i : Z) : getitem ([] : list A) i = Raise IndexError.
Proof.
  unfold getitem, len. simpl.
  destruct (decide (i < 0)); [rewrite decide_True by lia; done|].
  rewrite decide_False by lia. done.
Qed.

Lemma getitem_nonneg {A} (l : list A) i :
  0 ≤ i →
  getitem l i = match l !! Z.to_nat i with
                | Some x => Ok x
                | None => Raise IndexError
                end.
Proof.
  intros Hi. unfold getitem.
  rewrite (decide_False (P := i < 0)) by lia.
  by rewrite decide_False by lia.
Qed.

Lemma getitem_nonneg_Ok {A} (l : list A) i x :
  0 ≤ i → getitem l i = Ok x → l !! Z.to_nat i = Some x.
Proof.
  intros Hi. rewrite getitem_nonneg by done.
  destruct (l !! Z.to_nat i); [by intros [= ->]|done].
Qed.

(** What a successful construction has set. *)
Lemma init_inv data_path size geo dev testing skip d :
  __init__ data_path size geo dev testing skip = Ok d →
  ∃ paths,
    discover data_path = Ok paths
    ∧ windows d = []
    ∧ window_size d = size
    ∧ subject_paths d = (if testing then slice_to 2 paths else paths)
    ∧ match paths with
      | [] => contact_bodies d = []
      | first :: _ =>
          ∃ subject, SubjectOnDisk_open first = Ok subject
                     ∧ contact_bodies d = harmonize (getGroundForceBodies subject)
      end.
Proof.
  unfold __init__. intros Hinit.
  destruct (discover data_path) as [paths|e] eqn:Hdisc; [|done].
  exists paths. simpl in Hinit.
  destruct (decide (len paths > 0)) as [Hlen|Hlen].
  - destruct paths as [|first paths']; [unfold len in Hlen; simpl in Hlen; lia|].
    rewrite getitem_nonneg in Hinit by done. simpl in Hinit.
    destruct (SubjectOnDisk_open first) as [subject|e] eqn:Hopen; [|done].
    simpl in Hinit.
    destruct (if negb skip then _ else _) as [loaded|e]; [|done].
    simpl in Hinit. injection Hinit as <-. simpl.
    repeat split; try done.
    + by destruct testing.
    + by exists subject.
  - destruct paths as [|first paths']; [|unfold len in Hlen; simpl in Hlen; lia].
    simpl in Hinit.
    destruct (if negb skip then _ else _) as [loaded|e]; [|done].
    simpl in Hinit. injection Hinit as <-. simpl.
    repeat split; try done. by destruct testing.
Qed.

(** C3. The contact-body registry a constructed dataset holds is the
    first discovered subject's raw contact-body list in first-seen
    order, without ['pelvis'] and without repeats; a name that only
    other subjects list is not in it. *)
Theorem registry_from_first_subject
    data_path size geo dev testing skip d paths first :
  __init__ data_path size geo dev testing skip = Ok d →
  discover data_path = Ok paths →
  paths !! 0%nat = Some first →
  ∃ subject,
    SubjectOnDisk_open first = Ok subject
    ∧ contact_bodies d = first_seen (getGroundForceBodies subject)
    ∧ NoDup (contact_bodies d)
    ∧ ("pelvis" ∉ contact_bodies d)
    ∧ (∀ name, name ∈ contact_bodies d ↔
               (name ∈ getGroundForceBodies subject ∧ name ≠ "pelvis"))
    ∧ (∀ path' subject' name,
         path' ∈ paths → SubjectOnDisk_open path' = Ok subject' →
         name ∈ getGroundForceBodies subject' →
         name ∉ getGroundForceBodies subject →
         name ∉ contact_bodies d).
Proof.
  intros Hinit Hdisc Hfirst.
  apply init_inv in Hinit as (paths' & Hdisc' & _ & _ & _ & Hreg).
  rewrite Hdisc in Hdisc'. injection Hdisc' as <-.
  destruct paths as [|first' paths']; [done|].
  injection Hfirst as ->.
  destruct Hreg as (subject & Hopen & Hbodies).
  rewrite harmonize_first_seen in Hbodies.
  exists subject. rewrite Hbodies.
  split; [done|]. split; [done|]. split; [apply first_seen_NoDup|].
  split; [rewrite first_seen_elem_of; by intros [_ Hne]|].
  split; [apply first_seen_elem_of|].
  intros path' subject' name _ _ _ Hnot. rewrite first_seen_elem_of. by intros [Hin _].
Qed.

(** C6. Constructing the dataset from a path that is not a directory and
    does not end in ['.b3d'] fails: the constructor's assertion on the
    extension raises. *)
Theorem single_file_needs_extension data_path size geo dev testing skip :
  os_path_isdir data_path = false →
  endswith data_path ".b3d" = false →
  __init__ data_path size geo dev testing skip = Raise AssertionError.
Proof.
  intros Hdir Hext. unfold __init__, discover. by rewrite Hdir, Hext.
Qed.

(** C10. Right after construction the window store is empty, whatever
    the flags: the length is 0 and reading any index raises
    [IndexError]; the truncation of the window list to its first 100
    entries acts on the empty list. *)
Theorem store_empty_after_construction
    data_path size geo dev testing skip d :
  __init__ data_path size geo dev testing skip = Ok d →
  windows d = []
  ∧ __len__ d = 0
  ∧ (∀ index, __getitem__ d index = Raise IndexError)
  ∧ slice_to 100 ([] : list Window) = [].
Proof.
  intros Hinit. apply init_inv in Hinit as (paths & _ & Hw & _).
  unfold __len__, __getitem__. rewrite Hw.
  split; [done|]. split; [done|]. split; [|done].
  intros index. apply getitem_nil.
Qed.
End construction_facts.

(* ===================================================================== *)
(** ** Replacement, frame and determinism of a call *)
(* ===================================================================== *)

Section call_facts.
Context `{Numeric} `{Nimble} `{!FileSystem}.

Lemma same_frame_eq d d' : same_frame d d' → windows d = windows d' → d = d'.
Proof.
  unfold same_frame, with_windows. destruct d, d'. simpl.
  intros [= -> -> -> -> -> -> -> -> ->] ->. done.
Qed.

Lemma prepare_unfold s h :
  prepare_data_for_subset s h =
  match prepare_data_for_subset_counting s h with
  | (Ok _, h') => (Ok (), h')
  | (Raise e, h') => (Raise e, h')
  end.
Proof. reflexivity. Qed.

Lemma prepare_heap s h :
  (prepare_data_for_subset s h).2 = (prepare_data_for_subset_counting s h).2.
Proof.
  rewrite prepare_unfold. by destruct (prepare_data_for_subset_counting s h) as [[?|?] ?].
Qed.

Lemma prepare_outcome s h :
  (prepare_data_for_subset s h).1 =
  match (prepare_data_for_subset_counting s h).1 with
  | Ok _ => Ok ()
  | Raise e => Raise e
  end.
Proof.
  rewrite prepare_unfold. by destruct (prepare_data_for_subset_counting s h) as [[?|?] ?].
Qed.

Lemma prepare_Ok s h h' :
  prepare_data_for_subset s h = (Ok (), h') ↔
  ∃ n, prepare_data_for_subset_counting s h = (Ok n, h').
Proof.
  rewrite prepare_unfold.
  destruct (prepare_data_for_subset_counting s h) as [[n|e] h'']; split.
  - intros [= ->]. by exists n.
  - by intros (n' & [= _ ->]).
  - done.
  - by intros (n' & [=]).
Qed.

Lemma prepare_windows s h :
  windows (self (prepare_data_for_subset s h).2) = committed (prepare_trace (self h) s).
Proof. by rewrite prepare_heap, prepare_replay, replay_windows. Qed.

Lemma prepare_same_frame s h :
  same_frame (self (prepare_data_for_subset s h).2) (self h).
Proof.
  rewrite prepare_heap, prepare_replay.
  etrans; [apply replay_same_frame|done].
Qed.

Lemma prepare_outcome_frame s h1 h2 :
  same_frame (self h1) (self h2) →
  (prepare_data_for_subset s h1).1 = (prepare_data_for_subset s h2).1
  ∧ self (prepare_data_for_subset s h1).2 = self (prepare_data_for_subset s h2).2.
Proof.
  intros Hfr. split.
  - rewrite !prepare_outcome, !prepare_replay.
    rewrite (prepare_trace_frame _ _ s Hfr).
    by rewrite (replay_outcome_heap _ _ (emptied h1) (emptied h2)).
  - apply same_frame_eq.
    + etrans; [apply prepare_same_frame|].
      etrans; [exact Hfr|]. symmetry. apply prepare_same_frame.
    + rewrite !prepare_windows. by rewrite (prepare_trace_frame _ _ s Hfr).
Qed.

Lemma make_window_subject_index size bodies dev subject_index subject d start w :
  make_window size bodies dev subject_index subject d start = Ok w →
  window_subject_index w = subject_index.
Proof.
  unfold make_window. destruct (np_zeros _ _) as [zeros|e]; [|done]. simpl.
  destruct (foldR _ _ _) as [filled|e]; [|done]. simpl.
  destruct (torch_tensor_returns _) as [[]|e]; [|done]. simpl.
  by intros [= <-].
Qed.

(** C7. Two calls with the same subset on dataset objects that differ at
    most in their previous window list end the same way and leave the
    same dataset object, window for window; so does a second call
    made right after a first. *)
Theorem prepare_twice_identical s h1 h2 :
  same_frame (self h1) (self h2) →
  (prepare_data_for_subset s h1).1 = (prepare_data_for_subset s h2).1
  ∧ windows (self (prepare_data_for_subset s h1).2)
    = windows (self (prepare_data_for_subset s h2).2)
  ∧ (prepare_data_for_subset s (prepare_data_for_subset s h1).2).1
    = (prepare_data_for_subset s h1).1
  ∧ self (prepare_data_for_subset s (prepare_data_for_subset s h1).2).2
    = self (prepare_data_for_subset s h1).2.
Proof.
  intros Hfr.
  destruct (prepare_outcome_frame s h1 h2 Hfr) as (Hr & Hs).
  pose proof (prepare_same_frame s h1) as Hagain.
  destruct (prepare_outcome_frame s _ _ Hagain) as (Hr' & Hs').
  repeat split; [done|by rewrite Hs|done..].
Qed.

(** C9. A call starts by emptying the window list: whatever windows the
    object held before, the call ends the same way with the same store;
    every window of that store was built by this call for a subject index
    of the requested subset; and the registry, the subject paths, the
    window size and the loaded skeletons are as before. *)
Theorem prepare_replaces_store s h previous :
  let before :=
    {| self := with_windows previous (self h);
       np_random_state := np_random_state h |} in
  let after := (prepare_data_for_subset s h).2 in
  prepare_data_for_subset s before = prepare_data_for_subset s h
  ∧ (∀ w, w ∈ windows (self after) →
       window_subject_index w ∈ selected (self h) s
       ∧ ∃ subject trial arrays start,
           origin (self h) s w (window_subject_index w) subject trial arrays start)
  ∧ contact_bodies (self after) = contact_bodies (self h)
  ∧ subject_paths (self after) = subject_paths (self h)
  ∧ window_size (self after) = window_size (self h)
  ∧ skeletons (self after) = skeletons (self h)
  ∧ skeletons_contact_bodies (self after) = skeletons_contact_bodies (self h).
Proof.
  intros before after. split; [|split].
  - rewrite !prepare_unfold, !prepare_replay. done.
  - intros w Hw. subst after. rewrite prepare_windows in Hw.
    apply committed_elem_of, prepare_trace_origin in Hw
      as (si & subject & trial & arrays & start & Horigin).
    pose proof (make_window_subject_index _ _ _ _ _ _ _ _ (origin_window _ _ _ _ _ _ _ _ Horigin))
      as ->.
    split; [by destruct Horigin|]. by exists subject, trial, arrays, start.
  - pose proof (prepare_same_frame s h) as Hfr.
    apply same_frame_fields in Hfr as (? & ? & ? & ? & ? & ?). done.
Qed.
End call_facts.

(* ===================================================================== *)
(** ** Counting candidates *)
(* ===================================================================== *)

Section counting_facts.
Context `{Numeric} `{Nimble} `{!FileSystem}.

Lemma pull_trial_inv subject header trial d :
  pull_trial subject header trial = Ok d →
  ∃ t p_in p_out,
    getitem (getTrials header) trial = Ok t
    ∧ getitem (getPasses t) 0 = Ok p_in
    ∧ getitem (getPasses t) (-1) = Ok p_out
    ∧ probably_missing d
      = (λ reason, bool_decide (reason ≠ notMissingGRF)) <$> getMissingGRF subject trial
    ∧ trial_length d = getTrialLength subject trial
    ∧ pos d = transpose (getPoses p_in)
    ∧ vel d = transpose (getVels p_in)
    ∧ acc d = transpose (getAccs p_in)
    ∧ joint_centers_in_root_frame d = transpose (getJointCentersInRootFrame p_in)
    ∧ root_spatial_vel_in_root_frame d = transpose (getRootSpatialVelInRootFrame p_in)
    ∧ root_spatial_acc_in_root_frame d = transpose (getRootSpatialAccInRootFrame p_in)
    ∧ root_pos_history d = transpose (getRootPosHistoryInRootFrame p_in)
    ∧ root_euler_history d = transpose (getRootEulerHistoryInRootFrame p_in)
    ∧ tau d = transpose (getTaus p_out)
    ∧ ground_contact_wrenches_in_root_frame d
      = transpose (getGroundBodyWrenchesInRootFrame p_out)
    ∧ ground_contact_cop_torque_force_in_root_frame d
      = transpose (getGroundBodyCopTorqueForceInRootFrame p_out)
    ∧ com_acc_in_root_frame d = transpose (getComAccsInRootFrame p_out)
    ∧ residual_wrench_in_root_frame d = transpose (getResidualWrenchInRootFrame p_out).
Proof.
  unfold pull_trial. intros Hpull.
  destruct (getitem (getTrials header) trial) as [t|e] eqn:Ht; [|done].
  simpl in Hpull.
  destruct (getitem (getPasses t) 0) as [p_in|e] eqn:Hin; [|done].
  simpl in Hpull.
  destruct (getitem (getPasses t) (-1)) as [p_out|e] eqn:Hout; [|done].
  simpl in Hpull.
  injection Hpull as <-. exists t, p_in, p_out. simpl. repeat split; done.
Qed.

Lemma flagged_lookup subject trial i :
  frame_flagged subject trial i ↔
  ((λ reason, bool_decide (reason ≠ notMissingGRF)) <$> getMissingGRF subject trial)
    !! Z.to_nat i = Some true.
Proof.
  unfold frame_flagged. rewrite list_lookup_fmap.
  destruct (getMissingGRF subject trial !! Z.to_nat i) as [reason|]; simpl.
  - split.
    + intros (r & [= <-] & Hr). by rewrite bool_decide_eq_true_2.
    + intros [= Hr%bool_decide_eq_true_1]. eauto.
  - split; [by intros (r & [=] & _)|done].
Qed.

(** What the scan for a flagged frame returns when it does not raise. *)
Lemma any_missing_Ok flags frames b :
  Forall (λ i, 0 ≤ i) frames →
  any_missing flags frames = Ok b →
  if b then Exists (λ i, flags !! Z.to_nat i = Some true) frames
  else Forall (λ i, flags !! Z.to_nat i = Some false) frames.
Proof.
  induction 1 as [|i frames Hi _ IH]; simpl.
  - by intros [= <-].
  - destruct (getitem flags i) as [flag|e] eqn:Hget; [|done]. simpl.
    apply getitem_nonneg_Ok in Hget; [|done].
    destruct flag.
    + intros [= <-]. by left.
    + intros Hrest. specialize (IH Hrest).
      destruct b; [by right|by constructor].
Qed.

Lemma range2_nonneg a b : 0 ≤ a → Forall (λ i, 0 ≤ i) (range2 a b).
Proof.
  intros Ha. apply Forall_forall. intros i Hi%elem_of_seqZ. lia.
Qed.

Lemma range_nonneg n : Forall (λ i, 0 ≤ i) (range n).
Proof. apply Forall_forall. intros i Hi%elem_of_seqZ. lia. Qed.

(** The scan says whether the candidate is flagged. *)
Lemma any_missing_flagged size subject trial start b :
  0 ≤ start →
  any_missing ((λ reason, bool_decide (reason ≠ notMissingGRF))
                 <$> getMissingGRF subject trial)
    (range2 start (start + size)) = Ok b →
  (b = true ↔ candidate_flagged size subject trial start).
Proof.
  intros Hstart Hscan.
  apply any_missing_Ok in Hscan; [|by apply range2_nonneg].
  unfold candidate_flagged. destruct b.
  - split; [intros _|done].
    eapply Exists_impl; [exact Hscan|]. intros i. by rewrite flagged_lookup.
  - split; [done|]. intros Hex. exfalso.
    apply Exists_exists in Hex as (i & Hi & Hflag).
    rewrite Forall_forall in Hscan. specialize (Hscan i Hi).
    apply flagged_lookup in Hflag. congruence.
Qed.

Lemma not_raises_cons ev tr : ¬ raises (ev :: tr) → ¬ raises tr.
Proof. intros Hnr (e & He). apply Hnr. exists e. by right. Qed.

(** One trial: every candidate is appended or counted as skipped, and
    the skipped ones are the flagged ones. *)
Lemma window_events_tally size bodies dev subject_index subject trial d starts :
  probably_missing d
    = (λ reason, bool_decide (reason ≠ notMissingGRF)) <$> getMissingGRF subject trial →
  Forall (λ start, 0 ≤ start) starts →
  let tr := window_event size bodies dev subject_index subject d <$> starts in
  ¬ raises tr →
  len (committed tr) + skipped tr = len starts
  ∧ skipped tr = len (filter (candidate_flagged size subject trial) starts).
Proof.
  intros Hflags Hstarts. simpl.
  induction Hstarts as [|start starts Hstart _ IH]; [done|].
  rewrite fmap_cons. intros Hnr.
  specialize (IH (not_raises_cons _ _ Hnr)) as (IHc & IHs).
  remember (window_event size bodies dev subject_index subject d <$> starts) as rest.
  unfold window_event in Hnr |- *.
  rewrite Hflags in Hnr |- *.
  destruct (any_missing _ (range2 start (start + size))) as [b|e] eqn:Hscan.
  - apply any_missing_flagged in Hscan; [|done].
    destruct b.
    + rewrite filter_cons_True by (by apply Hscan).
      unfold len in *. simpl. lia.
    + rewrite filter_cons_False by (intros ?%Hscan; done).
      destruct (make_window _ _ _ _ _ _ _) as [w|e].
      * unfold len in *. simpl. lia.
      * exfalso. apply Hnr. exists e. by left.
  - exfalso. apply Hnr. exists e. by left.
Qed.

Lemma candidate_starts_range size length :
  candidate_starts size length = range (num_candidates size length).
Proof.
  unfold candidate_starts, num_candidates. f_equal.
  destruct (decide (length < size)); lia.
Qed.

Lemma len_range n : 0 ≤ n → len (range n) = n.
Proof. intros Hn. unfold len, range. rewrite length_seqZ. lia. Qed.

Lemma num_candidates_nonneg size length : 0 ≤ num_candidates size length.
Proof. unfold num_candidates. destruct (decide (length < size)); lia. Qed.

Lemma trial_tally size bodies dev subject_index subject trial :
  let tr := trial_trace size bodies dev subject_index subject
              (loadAllFrames subject true) trial in
  ¬ raises tr →
  len (committed tr) + skipped tr = num_candidates size (getTrialLength subject trial)
  ∧ skipped tr
    = len (filter (candidate_flagged size subject trial)
             (range (num_candidates size (getTrialLength subject trial)))).
Proof.
  simpl. unfold trial_trace.
  destruct (pull_trial _ _ _) as [d|e] eqn:Hpull.
  - apply pull_trial_inv in Hpull as (_ & _ & _ & _ & _ & _ & Hflags & Hlen & _).
    rewrite candidate_starts_range, Hlen. intros Hnr.
    destruct (window_events_tally size bodies dev subject_index subject trial d
                (range (num_candidates size (getTrialLength subject trial)))
                Hflags (range_nonneg _) Hnr) as (Hc & Hs).
    rewrite len_range in Hc by apply num_candidates_nonneg. done.
  - intros Hnr. exfalso. apply Hnr. exists e. by left.
Qed.

(** Tallies of the turns of a loop add up. *)
Lemma tally_turns {A} (f : A → list event) (cands flagged : A → Z) (l : list A) :
  ¬ raises (mjoin (f <$> l)) →
  (∀ x, x ∈ l → ¬ raises (f x) →
        len (committed (f x)) + skipped (f x) = cands x ∧ skipped (f x) = flagged x) →
  len (committed (mjoin (f <$> l))) + skipped (mjoin (f <$> l)) = sumZ (cands <$> l)
  ∧ skipped (mjoin (f <$> l)) = sumZ (flagged <$> l).
Proof.
  induction l as [|x l IH]; [done|].
  rewrite !fmap_cons. simpl. intros Hnr Hturn.
  apply (not_iff_compat (raises_app (f x) (mjoin (f <$> l)))) in Hnr.
  apply Decidable.not_or in Hnr as (Hnr1 & Hnr2).
  destruct IH as (IHc & IHs); [done|intros y Hy; apply Hturn; by right|].
  destruct (Hturn x) as (Hc & Hs); [by left|done|].
  rewrite committed_app, skipped_app by done.
  unfold len in *. rewrite length_app. unfold sumZ in *. simpl. lia.
Qed.

Lemma subject_tally d subject_index :
  let tr := subject_trace (subject_paths d) (window_size d) (contact_bodies d)
              (device d) subject_index in
  ¬ raises tr →
  ∃ subject,
    subject_at d subject_index = Ok subject
    ∧ len (committed tr) + skipped tr
      = sumZ ((λ trial, num_candidates (window_size d) (getTrialLength subject trial))
                <$> range (getNumTrials subject))
    ∧ skipped tr
      = sumZ ((λ trial,
                 len (filter (candidate_flagged (window_size d) subject trial)
                        (range (num_candidates (window_size d)
                                  (getTrialLength subject trial)))))
                <$> range (getNumTrials subject)).
Proof.
  simpl. unfold subject_trace, subject_at.
  destruct (decide (0 ≤ subject_index < 2 ^ 32));
    [|intros Hnr; exfalso; apply Hnr; eexists; by left].
  intros Hnr%not_raises_cons.
  destruct (getitem _ _) as [path|e]; [|exfalso; apply Hnr; eexists; by left].
  simpl.
  destruct (SubjectOnDisk_open path) as [subject|e];
    [|exfalso; apply Hnr; eexists; by left].
  destruct (loadAllFrames_raises subject true) as [e|];
    [exfalso; apply Hnr; eexists; by left|].
  exists subject. split; [done|]. simpl.
  apply tally_turns; [done|].
  intros trial _ Hnr'. by apply trial_tally.
Qed.

(** C5. When a call completes, the length of the store is the number of
    candidate window starts over the trials of the selected subjects,
    less the final [num_skipped]; and [num_skipped] is the number of
    those candidates with a flagged frame in their range. *)
Theorem length_is_candidates_less_skipped s h h' :
  prepare_data_for_subset s h = (Ok (), h') →
  ∃ num_skipped,
    prepare_data_for_subset_counting s h = (Ok num_skipped, h')
    ∧ __len__ (self h') = total_candidates (self h) s - num_skipped
    ∧ num_skipped = total_flagged (self h) s.
Proof.
  intros (n & Hrun)%prepare_Ok. exists n. split; [done|].
  rewrite prepare_replay in Hrun.
  pose proof (replay_windows (prepare_trace (self h) s) 0 (emptied h)) as Hw.
  pose proof (replay_Ok (prepare_trace (self h) s) 0 (emptied h) n) as Hok.
  rewrite Hrun in Hw, Hok. simpl in Hw, Hok.
  destruct Hok as (Hnr & ->); [done|].
  unfold __len__. rewrite Hw.
  unfold prepare_trace in *.
  destruct (tally_turns
    (subject_trace (subject_paths (self h)) (window_size (self h))
       (contact_bodies (self h)) (device (self h)))
    (λ si, match subject_at (self h) si with
           | Ok subject =>
               sumZ ((λ trial, num_candidates (window_size (self h))
                                 (getTrialLength subject trial))
                       <$> range (getNumTrials subject))
           | Raise _ => 0
           end)
    (λ si, match subject_at (self h) si with
           | Ok subject =>
               sumZ ((λ trial,
                        len (filter (candidate_flagged (window_size (self h)) subject trial)
                               (range (num_candidates (window_size (self h))
                                         (getTrialLength subject trial)))))
                       <$> range (getNumTrials subject))
           | Raise _ => 0
           end)
    (selected (self h) s) Hnr) as (Hc & Hs).
  { intros si _ Hnr'.
    destruct (subject_tally (self h) si Hnr') as (subject & -> & Hc & Hs). done. }
  unfold total_candidates, total_flagged, over_selected.
  rewrite <- Hc, <- Hs. lia.
Qed.
End counting_facts.

(* ===================================================================== *)
(** ** Slices and column assignment *)
(* ===================================================================== *)

Section slice_facts.
Context {A : Type}.
Implicit Types (l r : list A).

Lemma clamp_inside n i : 0 ≤ i → i ≤ n → clamp n i = i.
Proof. intros. unfold clamp. rewrite decide_False by lia. lia. Qed.

Lemma clamp_bounds n i : 0 ≤ n → 0 ≤ clamp n i ≤ n.
Proof. intros. unfold clamp. destruct (decide (i < 0)); lia. Qed.

Lemma slice_inside lo hi l :
  0 ≤ lo → lo ≤ hi → hi ≤ len l →
  slice lo hi l = take (Z.to_nat (hi - lo)) (drop (Z.to_nat lo) l).
Proof.
  intros. unfold slice. by rewrite !clamp_inside by lia.
Qed.

Lemma length_slice lo hi l :
  length (slice lo hi l) = Z.to_nat (clamp (len l) hi - clamp (len l) lo).
Proof.
  unfold slice. rewrite length_take, length_drop.
  pose proof (clamp_bounds (len l) lo). pose proof (clamp_bounds (len l) hi).
  unfold len in *. lia.
Qed.

Lemma length_slice_inside lo hi l :
  0 ≤ lo → lo ≤ hi → hi ≤ len l → length (slice lo hi l) = Z.to_nat (hi - lo).
Proof. intros. rewrite length_slice, !clamp_inside by lia. done. Qed.

Lemma slice_fmap {B} (f : A → B) lo hi l :
  slice lo hi (f <$> l) = f <$> slice lo hi l.
Proof.
  unfold slice, len. by rewrite length_fmap, fmap_take, fmap_drop.
Qed.

Lemma segment_lookup l lo k x :
  take k (drop lo l) !! x = if decide (x < k)%nat then l !! (lo + x)%nat else None.
Proof. by rewrite lookup_take, lookup_drop. Qed.

(** A row with the columns [lo .. lo + length rb] replaced by [rb]. *)
Lemma splice_lookup (ra rb : list A) (lo y : nat) :
  (lo ≤ length ra)%nat →
  (take lo ra ++ rb ++ drop (lo + length rb) ra) !! y =
  if decide (y < lo)%nat then ra !! y
  else if decide (y < lo + length rb)%nat then rb !! (y - lo)%nat
  else ra !! y.
Proof.
  intros Hlo.
  assert (length (take lo ra) = lo) as Htake by (rewrite length_take; lia).
  destruct (decide (y < lo)%nat).
  - rewrite lookup_app_l by lia. by rewrite lookup_take_lt.
  - rewrite lookup_app_r by lia. rewrite Htake.
    destruct (decide (y < lo + length rb)%nat).
    + by rewrite lookup_app_l by lia.
    + rewrite lookup_app_r by lia. rewrite lookup_drop. f_equal. lia.
Qed.

Lemma splice_length (ra rb : list A) (lo : nat) :
  (lo + length rb ≤ length ra)%nat →
  length (take lo ra ++ rb ++ drop (lo + length rb) ra) = length ra.
Proof.
  intros. rewrite !length_app, length_take, length_drop. lia.
Qed.

Lemma splice_segment_same (ra rb : list A) (lo : nat) :
  (lo + length rb ≤ length ra)%nat →
  take (length rb) (drop lo (take lo ra ++ rb ++ drop (lo + length rb) ra)) = rb.
Proof.
  intros Hfit. apply list_eq. intros x.
  rewrite segment_lookup, splice_lookup by lia.
  destruct (decide (x < length rb)%nat).
  - rewrite decide_False by lia. rewrite decide_True by lia. f_equal. lia.
  - symmetry. apply lookup_ge_None. lia.
Qed.

Lemma splice_segment_other (ra rb : list A) (lo lo2 k2 : nat) :
  (lo + length rb ≤ length ra)%nat →
  (lo2 + k2 ≤ lo ∨ lo + length rb ≤ lo2)%nat →
  take k2 (drop lo2 (take lo ra ++ rb ++ drop (lo + length rb) ra))
  = take k2 (drop lo2 ra).
Proof.
  intros Hfit Hapart. apply list_eq. intros x.
  rewrite !segment_lookup, splice_lookup by lia.
  destruct (decide (x < k2)%nat); [|done].
  destruct Hapart.
  - by rewrite decide_True by lia.
  - by rewrite !decide_False by lia.
Qed.

End slice_facts.

Section array_facts.
Context {A : Type}.
Implicit Types (l r : list A) (a b : ndarray A).

Lemma nrows_transpose a : nrows (transpose a) = ncols a.
Proof. unfold nrows, transpose. simpl. by rewrite length_fmap, length_seq. Qed.

Lemma nrows_slice_rows lo hi a :
  0 ≤ lo → lo ≤ hi → hi ≤ Z.of_nat (nrows a) →
  nrows (slice_rows lo hi a) = Z.to_nat (hi - lo).
Proof. intros. unfold nrows, slice_rows. simpl. by apply length_slice_inside. Qed.

Lemma nrows_slice_cols lo hi a : nrows (slice_cols lo hi a) = nrows a.
Proof. unfold nrows, slice_cols. simpl. by rewrite length_fmap. Qed.

Lemma nrows_nd_map {B} (f : A → B) a : nrows (nd_map f a) = nrows a.
Proof. unfold nrows, nd_map. simpl. by rewrite length_fmap. Qed.

Lemma ncols_nd_map {B} (f : A → B) a : ncols (nd_map f a) = ncols a.
Proof. reflexivity. Qed.

Lemma column_length (j : nat) (rs : list (list A)) :
  Forall (λ r, j < length r)%nat rs → length (column j rs) = length rs.
Proof.
  unfold column. induction 1 as [|r rs Hr _ IH]; [done|]. simpl.
  destruct (r !! j) eqn:Hj; simpl; [by f_equal|].
  apply lookup_ge_None in Hj. lia.
Qed.

Lemma rectangular_transpose a : rectangular a → rectangular (transpose a).
Proof.
  unfold rectangular, transpose. simpl. intros Ha.
  apply Forall_fmap, Forall_forall. intros j Hj%elem_of_seq. simpl.
  rewrite column_length; [done|].
  eapply Forall_impl; [exact Ha|]. simpl. intros r ->. lia.
Qed.

Lemma rectangular_slice_rows lo hi a : rectangular a → rectangular (slice_rows lo hi a).
Proof.
  unfold rectangular, slice_rows, slice. simpl. intros Ha.
  by apply Forall_take, Forall_drop.
Qed.

Lemma rectangular_slice_cols lo hi a : rectangular a → rectangular (slice_cols lo hi a).
Proof.
  unfold rectangular, slice_cols. simpl. intros Ha.
  apply Forall_fmap. eapply Forall_impl; [exact Ha|]. simpl.
  intros r Hr. rewrite length_slice. unfold slice_width, len. by rewrite Hr.
Qed.

Lemma rectangular_nd_map {B} (f : A → B) a : rectangular a → rectangular (nd_map f a).
Proof.
  unfold rectangular, nd_map. simpl. intros Ha.
  apply Forall_fmap. eapply Forall_impl; [exact Ha|]. simpl.
  intros r Hr. by rewrite length_fmap.
Qed.

Lemma slice_cols_nd_map {B} (f : A → B) lo hi a :
  slice_cols lo hi (nd_map f a) = nd_map f (slice_cols lo hi a).
Proof.
  unfold slice_cols, nd_map. simpl. f_equal.
  rewrite <- !list_fmap_compose. apply list_fmap_ext. intros _ r _. simpl.
  apply slice_fmap.
Qed.

(** The rows assigned by [a[:, lo:hi] = b], once broadcast, are as many
    as the rows of [a] and as wide as the column range. *)
Lemma broadcast_shape (n k : nat) b :
  rectangular b →
  (nrows b = n ∨ nrows b = 1%nat) → (ncols b = k ∨ ncols b = 1%nat) →
  let brows := broadcast_rows n (broadcast_row k (ncols b) <$> rows b) in
  length brows = n ∧ Forall (λ rb, length rb = k) brows.
Proof.
  intros Hb Hn Hk. simpl.
  assert (Forall (λ rb, length rb = k) (broadcast_row k (ncols b) <$> rows b)) as Hwide.
  { apply Forall_fmap. eapply Forall_impl; [exact Hb|]. simpl.
    intros r Hr. unfold broadcast_row.
    destruct (decide (ncols b = k)); [congruence|].
    destruct Hk as [?|Hone]; [done|].
    destruct r as [|x r]; [simpl in Hr; lia|]. by rewrite length_replicate. }
  unfold broadcast_rows. rewrite length_fmap. fold (nrows b).
  destruct (decide (nrows b = n)) as [Heq|Hne].
  { split; [|done]. by rewrite length_fmap. }
  destruct Hn as [?|Hone]; [done|].
  destruct (broadcast_row k (ncols b) <$> rows b) as [|rb rest] eqn:Hrows.
  - apply (f_equal length) in Hrows. rewrite length_fmap in Hrows.
    unfold nrows in Hone. simpl in Hrows. lia.
  - rewrite length_replicate. split; [done|].
    apply Forall_replicate. by apply Forall_cons in Hwide as [? _].
Qed.

(** The effect of [a[:, lo:hi] = b] on a rectangular [a] when the column
    range lies within it. *)
Lemma set_cols_spec a lo hi b a' :
  set_cols a lo hi b = Ok a' →
  rectangular a → rectangular b →
  0 ≤ lo → lo ≤ hi → hi ≤ Z.of_nat (ncols a) →
  ncols a' = ncols a ∧ nrows a' = nrows a ∧ rectangular a'
  ∧ (∀ lo2 hi2, 0 ≤ lo2 → lo2 ≤ hi2 → hi2 ≤ Z.of_nat (ncols a) →
                hi2 ≤ lo ∨ hi ≤ lo2 →
                slice_cols lo2 hi2 a' = slice_cols lo2 hi2 a)
  ∧ (nrows b = nrows a → Z.of_nat (ncols b) = hi - lo → slice_cols lo hi a' = b).
Proof.
  intros Hset Ha Hb Hlo Hhi Hfit. unfold set_cols in Hset.
  assert (slice_width (ncols a) lo hi = Z.to_nat (hi - lo)) as Hwidth.
  { unfold slice_width. by rewrite !clamp_inside by lia. }
  rewrite clamp_inside, Hwidth in Hset by lia.
  destruct (decide _) as [(Hn & Hk)|]; [|done].
  injection Hset as <-.
  destruct (broadcast_shape (nrows a) (Z.to_nat (hi - lo)) b Hb Hn Hk) as (Hlen & Hwide).
  set (brows := broadcast_rows (nrows a)
                  (broadcast_row (Z.to_nat (hi - lo)) (ncols b) <$> rows b)) in *.
  (* the rows of [a] and the rows written into them, side by side *)
  assert (∀ x ra rb, rows a !! x = Some ra → brows !! x = Some rb →
            length ra = ncols a ∧ length rb = Z.to_nat (hi - lo)) as Hrow.
  { intros x ra rb Hra Hrb. split.
    - by eapply (Forall_lookup_1 _ _ _ _ Ha).
    - by eapply (Forall_lookup_1 _ _ _ _ Hwide). }
  split; [done|]. split; [|split; [|split]].
  - unfold nrows. simpl. rewrite length_zip_with. unfold nrows in Hlen. lia.
  - unfold rectangular. simpl. apply Forall_forall.
    intros r (x & ra & rb & -> & Hra & Hrb)%elem_of_lookup_zip_with.
    destruct (Hrow x ra rb Hra Hrb) as (Hla & Hlb).
    rewrite <- Hlb. rewrite splice_length; lia.
  - intros lo2 hi2 Hlo2 Hhi2 Hfit2 Hapart.
    unfold slice_cols. simpl. f_equal. apply list_eq. intros x.
    rewrite !list_lookup_fmap, lookup_zip_with.
    destruct (rows a !! x) as [ra|] eqn:Hra; simpl; [|done].
    destruct (brows !! x) as [rb|] eqn:Hrb; simpl.
    + destruct (Hrow x ra rb Hra Hrb) as (Hla & Hlb).
      f_equal. rewrite <- Hlb.
      assert (length (take (Z.to_nat lo) ra ++ rb
                      ++ drop (Z.to_nat lo + length rb) ra) = length ra) as Hsp
        by (apply splice_length; lia).
      rewrite !slice_inside by (unfold len; rewrite ?Hsp; lia).
      apply splice_segment_other; lia.
    + apply lookup_ge_None in Hrb. apply lookup_lt_Some in Hra.
      unfold nrows in Hlen. lia.
  - intros Hsame Hsamek.
    assert (brows = rows b) as Hbrows.
    { unfold brows, broadcast_rows. rewrite length_fmap. fold (nrows b).
      rewrite decide_True by done.
      rewrite <- (list_fmap_id (rows b)) at 2. apply list_fmap_ext.
      intros _ r _. unfold broadcast_row. rewrite decide_True by lia. done. }
    destruct b as [bcols brs]. unfold slice_cols. simpl in *.
    f_equal; [rewrite Hwidth; lia|].
    apply list_eq. intros x.
    rewrite list_lookup_fmap, lookup_zip_with, Hbrows.
    destruct (brs !! x) as [rb|] eqn:Hrb; simpl.
    + destruct (rows a !! x) as [ra|] eqn:Hra; simpl.
      * rewrite <- Hbrows in Hrb.
        destruct (Hrow x ra rb Hra Hrb) as (Hla & Hlb).
        f_equal. rewrite <- Hlb.
        assert (length (take (Z.to_nat lo) ra ++ rb
                        ++ drop (Z.to_nat lo + length rb) ra) = length ra) as Hsp
          by (apply splice_length; lia).
        rewrite slice_inside by (unfold len; rewrite ?Hsp; lia).
        replace (Z.to_nat (hi - lo)) with (length rb) by lia.
        apply splice_segment_same. lia.
      * apply lookup_ge_None in Hra. apply lookup_lt_Some in Hrb.
        unfold nrows in Hsame. simpl in Hsame. lia.
    + destruct (rows a !! x) as [ra|] eqn:Hra; simpl; [|done].
      apply lookup_ge_None in Hrb. apply lookup_lt_Some in Hra.
      unfold nrows in Hsame. simpl in Hsame. lia.
Qed.
End array_facts.

Section entry_facts.
Context {A : Type}.
Implicit Types (a : ndarray A).

Lemma entry_nd_map {B} (f : A → B) a r c : entry (nd_map f a) r c = f <$> entry a r c.
Proof.
  unfold entry, nd_map. simpl. rewrite list_lookup_fmap.
  destruct (rows a !! r) as [row|]; simpl; [|done]. by rewrite list_lookup_fmap.
Qed.

Lemma column_lookup (j : nat) (rs : list (list A)) (i : nat) :
  Forall (λ row, j < length row)%nat rs →
  column j rs !! i = rs !! i ≫= (λ row, row !! j).
Proof.
  unfold column. intros Hrs.
  induction Hrs as [|row rs Hrow _ IH] in i |- *; [done|]. simpl.
  destruct (row !! j) as [x|] eqn:Hx; [|apply lookup_ge_None in Hx; lia].
  destruct i as [|i]; simpl; [done|]. apply IH.
Qed.

(** [a.transpose()[r, c]] is [a[c, r]]. *)
Lemma entry_transpose a r c : rectangular a → entry (transpose a) r c = entry a c r.
Proof.
  intros Ha. unfold entry, transpose. simpl. rewrite list_lookup_fmap.
  destruct (decide (r < ncols a)%nat) as [Hr|Hr].
  - rewrite lookup_seq_lt by done. simpl. apply column_lookup.
    eapply Forall_impl; [exact Ha|]. simpl. intros row ->. done.
  - rewrite lookup_seq_ge by lia. simpl.
    destruct (rows a !! c) as [row|] eqn:Hrow; simpl; [|done].
    symmetry. apply lookup_ge_None_2.
    rewrite (Forall_lookup_1 _ _ _ _ Ha Hrow). lia.
Qed.

(** [a[lo:hi, :][r, c]] is [a[lo + r, c]]. *)
Lemma entry_slice_rows lo hi a r c :
  0 ≤ lo → lo ≤ hi → hi ≤ Z.of_nat (nrows a) → (r < Z.to_nat (hi - lo))%nat →
  entry (slice_rows lo hi a) r c = entry a (Z.to_nat lo + r) c.
Proof.
  intros Hlo Hhi Hfit Hr. unfold entry, slice_rows. simpl.
  rewrite slice_inside by (unfold nrows, len in *; lia).
  by rewrite segment_lookup, decide_True by done.
Qed.

(** [a[:, lo:hi][r, c]] is [a[r, lo + c]], for [c] within the width of the
    column range. *)
Lemma entry_slice_cols lo hi a r c :
  rectangular a → 0 ≤ lo → lo ≤ hi → (c < slice_width (ncols a) lo hi)%nat →
  entry (slice_cols lo hi a) r c = entry a r (Z.to_nat lo + c)
  ∧ (Z.to_nat lo + c < ncols a)%nat.
Proof.
  intros Ha Hlo Hhi Hc. unfold slice_width, clamp in Hc.
  rewrite !decide_False in Hc by lia.
  split; [|lia].
  unfold entry, slice_cols. simpl. rewrite list_lookup_fmap.
  destruct (rows a !! r) as [row|] eqn:Hrow; simpl; [|done].
  pose proof (Forall_lookup_1 _ _ _ _ Ha Hrow) as Hlen. simpl in Hlen.
  unfold slice, clamp, len. rewrite Hlen, !decide_False by lia.
  rewrite segment_lookup, decide_True by lia. f_equal. lia.
Qed.
End entry_facts.

(* ===================================================================== *)
(** ** Filling the per-contact-body outputs *)
(* ===================================================================== *)

Section fill_facts.
Context `{Numeric}.

Lemma np_zeros_shaped r c zeros :
  np_zeros r c = Ok zeros →
  0 ≤ r ∧ 0 ≤ c
  ∧ zeros = NdArray (Z.to_nat c) (replicate (Z.to_nat r) (replicate (Z.to_nat c) fzero))
  ∧ rectangular zeros ∧ ncols zeros = Z.to_nat c ∧ nrows zeros = Z.to_nat r.
Proof.
  unfold np_zeros. destruct (decide (r < 0 ∨ c < 0)); [done|].
  intros [= <-]. split; [lia|]. split; [lia|]. split; [done|].
  unfold rectangular, nrows. simpl. rewrite length_replicate.
  split; [|done]. apply Forall_replicate. by rewrite length_replicate.
Qed.

Lemma slice2_shape (r0 r1 c0 c1 : Z) (a : ndarray float64) :
  rectangular a →
  rectangular (slice2 r0 r1 c0 c1 a)
  ∧ (0 ≤ r0 → r0 ≤ r1 → r1 ≤ Z.of_nat (nrows a) →
     nrows (slice2 r0 r1 c0 c1 a) = Z.to_nat (r1 - r0))
  ∧ (0 ≤ c0 → c0 ≤ c1 → c1 ≤ Z.of_nat (ncols a) →
     Z.of_nat (ncols (slice2 r0 r1 c0 c1 a)) = c1 - c0).
Proof.
  intros Ha. unfold slice2. split; [|split].
  - by apply rectangular_slice_cols, rectangular_slice_rows.
  - intros. rewrite nrows_slice_cols. by apply nrows_slice_rows.
  - intros. simpl. unfold slice_width. rewrite !clamp_inside by lia. lia.
Qed.

(** One turn of the filling loop on arrays of the right shape. *)
Lemma fill_contact_spec packed mass ws we cis (m n : nat) arrays i arrays' :
  fill_contact packed mass ws we cis arrays i = Ok arrays' →
  rectangular packed →
  0 ≤ i < Z.of_nat n →
  (let '(cops, torques, forces) := arrays in
   contact_shaped m n cops ∧ contact_shaped m n torques ∧ contact_shaped m n forces) →
  (let '(cops, torques, forces) := arrays' in
   contact_shaped m n cops ∧ contact_shaped m n torques ∧ contact_shaped m n forces)
  ∧ (∀ j, 0 ≤ j < Z.of_nat n → j ≠ i → contact_slots j arrays' = contact_slots j arrays)
  ∧ (∀ ci, getitem cis i = Ok ci → ci < 0 → arrays' = arrays)
  ∧ (∀ ci, getitem cis i = Ok ci → 0 ≤ ci →
           0 ≤ ws → ws ≤ we → we ≤ Z.of_nat (nrows packed) → Z.to_nat (we - ws) = m →
           9 * ci + 9 ≤ Z.of_nat (ncols packed) →
           contact_slots i arrays' = contact_source packed mass ws we ci).
Proof.
  unfold fill_contact. intros Hfill Hpacked Hi Hshaped.
  destruct (getitem cis i) as [ci|e]; [|done]. simpl in Hfill.
  destruct arrays as [[cops torques] forces].
  destruct Hshaped as ((Hc1 & Hc2 & Hc3) & (Ht1 & Ht2 & Ht3) & (Hf1 & Hf2 & Hf3)).
  destruct (decide (ci >= 0)) as [Hci|Hci]; cycle 1.
  { injection Hfill as <-. repeat split; try done.
    intros ci' [= <-] ?. lia. }
  destruct (set_cols cops _ _ _) as [cops'|e] eqn:Hcops; [|done]. simpl in Hfill.
  destruct (set_cols torques _ _ _) as [torques'|e] eqn:Htorques; [|done].
  simpl in Hfill.
  destruct (set_cols forces _ _ _) as [forces'|e] eqn:Hforces; [|done].
  simpl in Hfill. injection Hfill as <-.
  destruct (slice2_shape ws we (9 * ci) (9 * ci + 3) packed Hpacked) as (Hr1 & Hn1 & Hk1).
  destruct (slice2_shape ws we (9 * ci + 3) (9 * ci + 6) packed Hpacked) as (Hr2 & Hn2 & Hk2).
  destruct (slice2_shape ws we (9 * ci + 6) (9 * ci + 9) packed Hpacked) as (Hr3 & Hn3 & Hk3).
  apply set_cols_spec in Hcops as (Hc2' & Hc3' & Hc1' & Hcother & Hcsame);
    [|done|done|lia..].
  apply set_cols_spec in Htorques as (Ht2' & Ht3' & Ht1' & Htother & Htsame);
    [|done|by apply rectangular_nd_map|lia..].
  apply set_cols_spec in Hforces as (Hf2' & Hf3' & Hf1' & Hfother & Hfsame);
    [|done|by apply rectangular_nd_map|lia..].
  split; [|split; [|split]].
  - unfold contact_shaped. rewrite Hc2', Hc3', Ht2', Ht3', Hf2', Hf3'. done.
  - intros j Hj Hne. unfold contact_slots.
    assert (0 ≤ 3 * j ∧ 3 * j ≤ 3 * j + 3 ∧ 3 * j + 3 ≤ Z.of_nat (3 * n)
            ∧ (3 * j + 3 ≤ 3 * i ∨ 3 * i + 3 ≤ 3 * j)) as (? & ? & Hfitj & ?) by lia.
    rewrite Hcother, Htother, Hfother by (rewrite ?Hc2, ?Ht2, ?Hf2; assumption).
    done.
  - intros ci' [= <-] ?. lia.
  - intros ci' [= <-] _ Hws Hwe Hrows Hm Hcols.
    specialize (Hn1 Hws Hwe Hrows). specialize (Hn2 Hws Hwe Hrows).
    specialize (Hn3 Hws Hwe Hrows).
    unfold contact_slots, contact_source, div_scalar.
    rewrite Hcsame, Htsame, Hfsame; [done| | | | | |].
    + unfold div_scalar. rewrite nrows_nd_map. congruence.
    + unfold div_scalar. rewrite ncols_nd_map, Hk3 by lia. lia.
    + unfold div_scalar. rewrite nrows_nd_map. congruence.
    + unfold div_scalar. rewrite ncols_nd_map, Hk2 by lia. lia.
    + congruence.
    + rewrite Hk1 by lia. lia.
Qed.

(** The filling loop over distinct registry positions. *)
Lemma fill_loop_spec packed mass ws we cis (m n : nat) positions arrays arrays' :
  foldR (fill_contact packed mass ws we cis) arrays positions = Ok arrays' →
  rectangular packed →
  NoDup positions →
  Forall (λ i, 0 ≤ i < Z.of_nat n) positions →
  (let '(cops, torques, forces) := arrays in
   contact_shaped m n cops ∧ contact_shaped m n torques ∧ contact_shaped m n forces) →
  (let '(cops, torques, forces) := arrays' in
   contact_shaped m n cops ∧ contact_shaped m n torques ∧ contact_shaped m n forces)
  ∧ (∀ j, 0 ≤ j < Z.of_nat n →
          j ∉ positions ∨ (∃ ci, getitem cis j = Ok ci ∧ ci < 0) →
          contact_slots j arrays' = contact_slots j arrays)
  ∧ (∀ j ci, j ∈ positions → getitem cis j = Ok ci → 0 ≤ ci →
             0 ≤ ws → ws ≤ we → we ≤ Z.of_nat (nrows packed) →
             Z.to_nat (we - ws) = m →
             9 * ci + 9 ≤ Z.of_nat (ncols packed) →
             contact_slots j arrays' = contact_source packed mass ws we ci).
Proof.
  intros Hloop Hpacked Hnodup Hrange.
  induction positions as [|i positions IH] in arrays, Hloop, Hnodup, Hrange |- *;
    intros Hshaped.
  - injection Hloop as <-. split; [done|]. split; [done|].
    by intros j ci ?%elem_of_nil.
  - simpl in Hloop.
    destruct (fill_contact packed mass ws we cis arrays i) as [arrays1|e] eqn:Hstep;
      [|done].
    simpl in Hloop.
    apply NoDup_cons in Hnodup as (Hfresh & Hnodup).
    apply Forall_cons in Hrange as (Hi & Hrange).
    destruct (fill_contact_spec _ _ _ _ _ m n _ _ _ Hstep Hpacked Hi Hshaped)
      as (Hshaped1 & Hother & Hskip & Hsame).
    destruct (IH arrays1 Hloop Hnodup Hrange Hshaped1) as (Hshaped' & Hkeep & Hfilled).
    split; [done|]. split.
    + intros j Hj Hcase.
      destruct (decide (j = i)) as [->|Hne].
      * destruct Hcase as [Hnot|(ci & Hci & Hneg)].
        { exfalso. apply Hnot. by left. }
        rewrite (Hkeep i Hj (or_introl Hfresh)). by rewrite (Hskip ci Hci Hneg).
      * assert (j ∉ positions ∨ (∃ ci, getitem cis j = Ok ci ∧ ci < 0)) as Hcase'.
        { destruct Hcase as [Hnot|?]; [|by right].
          left. intros Hin. apply Hnot. by right. }
        rewrite (Hkeep j Hj Hcase'). by apply Hother.
    + intros j ci [->|Hin]%elem_of_cons Hci Hpos Hws Hwe Hrows Hm Hcols.
      * rewrite (Hkeep i Hi (or_introl Hfresh)). by apply Hsame.
      * by apply Hfilled.
Qed.
End fill_facts.

(* ===================================================================== *)
(** ** The windows of the store *)
(* ===================================================================== *)

Section window_facts.
Context `{Numeric} `{Nimble} `{!FileSystem}.

Lemma getitem_elem_of {A} (l : list A) i x : getitem l i = Ok x → x ∈ l.
Proof.
  unfold getitem. destruct (decide _); [done|].
  destruct (l !! _) eqn:Hl; [|done]. intros [= <-].
  by eapply list_elem_of_lookup_2.
Qed.

Lemma getitem_fmap_lookup {A B} (f : A → B) (l : list A) (i : nat) x :
  l !! i = Some x → getitem (f <$> l) (Z.of_nat i) = Ok (f x).
Proof.
  intros Hl. rewrite getitem_nonneg by lia.
  by rewrite Nat2Z.id, list_lookup_fmap, Hl.
Qed.

(** [l.index(x) if x in l else -1]: -1 when absent, else the first position. *)
Lemma index_or_minus_one_absent name raw :
  name ∉ raw → index_or_minus_one name raw = -1.
Proof.
  intros Hname. unfold index_or_minus_one.
  destruct (list_find _ raw) as [[c y]|] eqn:Hfind; [|done].
  apply list_find_Some in Hfind as (Hc & -> & _).
  exfalso. apply Hname. by eapply list_elem_of_lookup_2.
Qed.

Lemma index_or_minus_one_present name raw :
  name ∈ raw →
  ∃ c : nat, index_or_minus_one name raw = Z.of_nat c
             ∧ raw !! c = Some name ∧ (c < length raw)%nat.
Proof.
  intros Hname. unfold index_or_minus_one.
  destruct (list_find _ raw) as [[c y]|] eqn:Hfind.
  - apply list_find_Some in Hfind as (Hc & -> & _).
    exists c. split; [done|]. split; [done|]. by eapply lookup_lt_Some.
  - apply list_find_None in Hfind. rewrite Forall_forall in Hfind.
    exfalso. by apply (Hfind name).
Qed.

Lemma origin_of_window s h w :
  w ∈ windows (self (prepare_data_for_subset s h).2) →
  ∃ subject_index subject trial arrays start,
    origin (self h) s w subject_index subject trial arrays start.
Proof.
  rewrite prepare_windows. intros Hw.
  by apply committed_elem_of, prepare_trace_origin in Hw.
Qed.

(** A well-formed subject gives well-formed pulled arrays. *)
Lemma pull_trial_well_formed subject trial d :
  subject_well_formed subject →
  0 ≤ trial < getNumTrials subject →
  pull_trial subject (loadAllFrames subject true) trial = Ok d →
  arrays_well_formed (getTrialLength subject trial)
    (length (getGroundForceBodies subject)) d.
Proof.
  intros Hwf Htrial Hpull.
  unfold subject_well_formed in Hwf. rewrite Forall_forall in Hwf.
  specialize (Hwf trial). unfold range in Hwf. rewrite elem_of_seqZ in Hwf.
  specialize (Hwf ltac:(lia)). unfold trial_well_formed in Hwf.
  apply pull_trial_inv in Hpull
    as (t & p_in & p_out & Ht & Hin & Hout & _ & _ & Hfields).
  apply getitem_nonneg_Ok in Ht; [|lia]. rewrite Ht in Hwf.
  rewrite Forall_forall in Hwf.
  pose proof (Hwf p_in (getitem_elem_of _ _ _ Hin)) as (Hwf_in & _).
  pose proof (Hwf p_out (getitem_elem_of _ _ _ Hout)) as (Hwf_out & Hpacked).
  unfold pass_arrays in Hwf_in, Hwf_out.
  repeat match goal with
         | Hf : Forall _ (_ :: _) |- _ => apply Forall_cons in Hf as [[? ?] Hf]
         end.
  unfold arrays_well_formed, trial_arrays_list.
  destruct Hfields as (-> & -> & -> & -> & -> & -> & -> & -> & -> & -> & -> & -> & ->).
  split.
  - repeat (apply Forall_cons; split;
            [split; [by apply rectangular_transpose|by rewrite nrows_transpose]|]).
    apply Forall_nil_2.
  - by rewrite <- Hpacked.
Qed.

Lemma make_window_inv size bodies dev subject_index subject d start w :
  make_window size bodies dev subject_index subject d start = Ok w →
  ∃ zeros filled,
    np_zeros size (3 * len bodies) = Ok zeros
    ∧ foldR (fill_contact (ground_contact_cop_torque_force_in_root_frame d)
               (getMassKg subject) start (start + size)
               (contact_indices_of bodies subject))
            (zeros, zeros, zeros) (range (len bodies)) = Ok filled
    ∧ window_inputs w
      = (λ a, torch_tensor a dev) <$> numpy_input_dict d start (start + size)
    ∧ window_labels w
      = (λ a, torch_tensor a dev)
          <$> numpy_output_dict d (getMassKg subject) start (start + size) filled
    ∧ window_subject_index w = subject_index.
Proof.
  unfold make_window. replace (start + size - start) with size by lia.
  destruct (np_zeros _ _) as [zeros|e]; [|done]. simpl.
  destruct (foldR _ _ _) as [filled|e] eqn:Hfill; [|done]. simpl.
  destruct (torch_tensor_returns _) as [[]|e]; [|done]. simpl.
  intros [= <-]. by exists zeros, filled.
Qed.

(** What the origin of a window gives under the recording contract. *)
Lemma origin_bounds d s w subject_index subject trial arrays start :
  origin d s w subject_index subject trial arrays start →
  0 ≤ window_size d ∧ 0 ≤ start
  ∧ start + window_size d ≤ getTrialLength subject trial
  ∧ trial_length arrays = getTrialLength subject trial.
Proof.
  intros [_ _ _ Hpull Hstart _ Hmake].
  apply make_window_inv in Hmake as (zeros & _ & Hzeros%np_zeros_shaped & _).
  apply pull_trial_inv in Hpull as (_ & _ & _ & _ & _ & _ & _ & Hlen & _).
  rewrite Hlen in Hstart. lia.
Qed.

Lemma frames_rows (a : ndarray float64) start size frames :
  Z.of_nat (nrows a) = frames → 0 ≤ start → 0 ≤ size → start + size ≤ frames →
  Z.of_nat (nrows (slice_rows start (start + size) a)) = size.
Proof. intros. rewrite nrows_slice_rows by lia. lia. Qed.

(** The filled per-contact-body arrays of a window. *)
Lemma filled_spec size bodies subject d start zeros filled frames :
  np_zeros size (3 * len bodies) = Ok zeros →
  foldR (fill_contact (ground_contact_cop_torque_force_in_root_frame d)
           (getMassKg subject) start (start + size)
           (contact_indices_of bodies subject))
        (zeros, zeros, zeros) (range (len bodies)) = Ok filled →
  arrays_well_formed frames (length (getGroundForceBodies subject)) d →
  0 ≤ start → start + size ≤ frames →
  (let '(cops, torques, forces) := filled in
   contact_shaped (Z.to_nat size) (length bodies) cops
   ∧ contact_shaped (Z.to_nat size) (length bodies) torques
   ∧ contact_shaped (Z.to_nat size) (length bodies) forces)
  ∧ (∀ (i : nat) name,
       bodies !! i = Some name → name ∉ getGroundForceBodies subject →
       contact_slots (Z.of_nat i) filled = contact_slots (Z.of_nat i) (zeros, zeros, zeros))
  ∧ (∀ (i : nat) name,
       bodies !! i = Some name → name ∈ getGroundForceBodies subject →
       contact_slots (Z.of_nat i) filled
       = contact_source (ground_contact_cop_torque_force_in_root_frame d)
           (getMassKg subject) start (start + size)
           (index_or_minus_one name (getGroundForceBodies subject))).
Proof.
  intros Hzeros Hfill (Hall & Hpacked) Hstart Hfit.
  apply np_zeros_shaped in Hzeros as (Hsize & _ & _ & Hrect & Hcols & Hrows).
  assert (rectangular (ground_contact_cop_torque_force_in_root_frame d)
          ∧ Z.of_nat (nrows (ground_contact_cop_torque_force_in_root_frame d)) = frames)
    as (Hprect & Hprows).
  { rewrite Forall_forall in Hall. apply Hall.
    unfold trial_arrays_list. do 10 right. by left. }
  assert (contact_shaped (Z.to_nat size) (length bodies) zeros) as Hshaped.
  { split; [done|]. split; [|done]. rewrite Hcols. unfold len. lia. }
  destruct (fill_loop_spec _ _ _ _ _ (Z.to_nat size) (length bodies) _ _ _ Hfill Hprect)
    as (Hshaped' & Hkeep & Hfilled).
  { apply NoDup_seqZ. }
  { apply Forall_forall. intros i Hi%elem_of_seqZ. unfold len in Hi. lia. }
  { done. }
  split; [done|]. split.
  - intros i name Hname Habsent.
    apply Hkeep; [apply lookup_lt_Some in Hname; lia|].
    right. exists (-1). split; [|lia].
    unfold contact_indices_of. rewrite (getitem_fmap_lookup _ _ _ _ Hname).
    by rewrite index_or_minus_one_absent.
  - intros i name Hname Hpresent.
    destruct (index_or_minus_one_present _ _ Hpresent) as (c & Hc & _ & Hlt).
    apply Hfilled; try lia.
    + apply elem_of_seqZ. apply lookup_lt_Some in Hname. unfold len. lia.
    + unfold contact_indices_of. by rewrite (getitem_fmap_lookup _ _ _ _ Hname).
Qed.
End window_facts.

Section window_properties.
Context `{Numeric} `{Nimble} `{!FileSystem}.

Lemma subject_at_open d subject_index subject :
  subject_at d subject_index = Ok subject →
  ∃ path, SubjectOnDisk_open path = Ok subject.
Proof.
  unfold subject_at. destruct (getitem _ _) as [path|e]; [|done]. simpl. eauto.
Qed.

Lemma origin_well_formed d s w subject_index subject trial arrays start :
  (∀ path subject, SubjectOnDisk_open path = Ok subject → subject_well_formed subject) →
  origin d s w subject_index subject trial arrays start →
  arrays_well_formed (getTrialLength subject trial)
    (length (getGroundForceBodies subject)) arrays.
Proof.
  intros Hwf [_ Hsubject Htrial Hpull _ _ _].
  apply subject_at_open in Hsubject as (path & Hopen).
  eapply pull_trial_well_formed; eauto.
Qed.

Lemma zeros_slot size (n i : nat) zeros :
  np_zeros size (3 * Z.of_nat n) = Ok zeros → (i < n)%nat →
  np_zeros size 3 = Ok (slice_cols (3 * Z.of_nat i) (3 * Z.of_nat i + 3) zeros).
Proof.
  intros (Hsize & _ & -> & _)%np_zeros_shaped Hi.
  unfold np_zeros. rewrite decide_False by lia. f_equal.
  unfold slice_cols. simpl. f_equal.
  - unfold slice_width. rewrite !clamp_inside by lia. lia.
  - rewrite fmap_replicate. f_equal.
    rewrite slice_inside by (unfold len; rewrite ?length_replicate; lia).
    rewrite drop_replicate, take_replicate.
    match goal with
    | |- _ = replicate ?k _ => replace k with 3%nat by lia
    end.
    done.
Qed.

(** C1. Every window of the store was built from a run of
    [window_size] frames of one trial: each input and each output array
    has [window_size] rows, every frame of the run carries the
    not-missing sentinel, and the run ends within the trial. *)
Theorem windows_are_whole_valid_runs s h w :
  (∀ path subject, SubjectOnDisk_open path = Ok subject → subject_well_formed subject) →
  w ∈ windows (self (prepare_data_for_subset s h).2) →
  ∃ subject_index subject trial arrays start,
    origin (self h) s w subject_index subject trial arrays start
    ∧ map_Forall (λ _ t, Z.of_nat (nrows (tensor_data t)) = window_size (self h))
        (window_inputs w)
    ∧ map_Forall (λ _ t, Z.of_nat (nrows (tensor_data t)) = window_size (self h))
        (window_labels w)
    ∧ (∀ i, start ≤ i < start + window_size (self h) →
            getMissingGRF subject trial !! Z.to_nat i = Some notMissingGRF)
    ∧ 0 ≤ start
    ∧ start + window_size (self h) ≤ getTrialLength subject trial.
Proof.
  intros Hwf (si & subject & trial & arrays & start & Horigin)%origin_of_window.
  exists si, subject, trial, arrays, start. split; [done|].
  pose proof (origin_bounds _ _ _ _ _ _ _ _ Horigin) as (Hsize & Hstart & Hfit & Hlen).
  pose proof (origin_well_formed _ _ _ _ _ _ _ _ Hwf Horigin) as Harrays.
  pose proof Harrays as (Hall & _).
  destruct Horigin as [_ _ _ Hpull _ Hvalid Hmake].
  apply make_window_inv in Hmake as (zeros & filled & Hzeros & Hfill & -> & -> & _).
  destruct (filled_spec _ _ _ _ _ _ _ _ Hzeros Hfill Harrays Hstart Hfit)
    as (Hshaped & _ & _).
  unfold trial_arrays_list in Hall.
  repeat match goal with
         | Hf : Forall _ (_ :: _) |- _ => apply Forall_cons in Hf as [[? ?] Hf]
         end.
  assert (∀ a : ndarray float64,
            Z.of_nat (nrows a) = getTrialLength subject trial →
            Z.of_nat (nrows (slice_rows start (start + window_size (self h)) a))
            = window_size (self h)) as Hframes.
  { intros a Ha. by eapply frames_rows. }
  split; [|split; [|split; [|done]]].
  - apply map_Forall_fmap. unfold numpy_input_dict, slice2.
    repeat (apply map_Forall_insert_2;
            [simpl; rewrite nrows_nd_map, ?nrows_slice_cols; by apply Hframes|]).
    apply map_Forall_empty.
  - apply map_Forall_fmap. unfold numpy_output_dict.
    destruct filled as [[cops torques] forces].
    destruct Hshaped as ((_ & _ & Hc) & (_ & _ & Ht) & (_ & _ & Hf)).
    repeat (apply map_Forall_insert_2;
            [simpl; unfold div_scalar; rewrite ?nrows_nd_map;
             first [by apply Hframes | lia]|]).
    apply map_Forall_empty.
  - intros i Hi.
    apply pull_trial_inv in Hpull as (_ & _ & _ & _ & _ & _ & Hflags & _).
    rewrite Hflags in Hvalid.
    apply any_missing_Ok in Hvalid; [|by apply range2_nonneg].
    rewrite Forall_forall in Hvalid.
    specialize (Hvalid i). unfold range2 in Hvalid. rewrite elem_of_seqZ in Hvalid.
    specialize (Hvalid ltac:(lia)).
    rewrite list_lookup_fmap in Hvalid.
    destruct (getMissingGRF subject trial !! Z.to_nat i) as [reason|]; [|done].
    simpl in Hvalid. injection Hvalid as Hreason.
    apply bool_decide_eq_false_1 in Hreason.
    f_equal. by destruct (decide (reason = notMissingGRF)).
Qed.

(** C8. In every window of the store, the root angular velocity and
    acceleration inputs are columns 0..3, and the root linear velocity
    and acceleration inputs are columns 3..6, of the frames of the
    window in the root spatial velocity and acceleration arrays of the
    trial's first pass, converted to float32. *)
Theorem root_motion_split s h w :
  w ∈ windows (self (prepare_data_for_subset s h).2) →
  ∃ subject_index subject trial arrays start t p_in,
    origin (self h) s w subject_index subject trial arrays start
    ∧ getitem (getTrials (loadAllFrames subject true)) trial = Ok t
    ∧ getitem (getPasses t) 0 = Ok p_in
    ∧ let frames := slice_rows start (start + window_size (self h)) in
      let vel6 := transpose (getRootSpatialVelInRootFrame p_in) in
      let acc6 := transpose (getRootSpatialAccInRootFrame p_in) in
      let dev := device (self h) in
      window_inputs w !! InputDataKeys.ROOT_ANGULAR_VEL_IN_ROOT_FRAME
        = Some (torch_tensor (slice_cols 0 3 (frames vel6)) dev)
      ∧ window_inputs w !! InputDataKeys.ROOT_LINEAR_VEL_IN_ROOT_FRAME
        = Some (torch_tensor (slice_cols 3 6 (frames vel6)) dev)
      ∧ window_inputs w !! InputDataKeys.ROOT_ANGULAR_ACC_IN_ROOT_FRAME
        = Some (torch_tensor (slice_cols 0 3 (frames acc6)) dev)
      ∧ window_inputs w !! InputDataKeys.ROOT_LINEAR_ACC_IN_ROOT_FRAME
        = Some (torch_tensor (slice_cols 3 6 (frames acc6)) dev).
Proof.
  intros (si & subject & trial & arrays & start & Horigin)%origin_of_window.
  pose proof Horigin as [_ _ _ Hpull _ _ Hmake].
  apply pull_trial_inv in Hpull
    as (t & p_in & _ & Ht & Hin & _ & _ & _ & _ & _ & _ & _ & Hvel & Hacc & _).
  apply make_window_inv in Hmake as (_ & _ & _ & _ & Hinputs & _).
  exists si, subject, trial, arrays, start, t, p_in.
  split; [done|]. split; [done|]. split; [done|]. simpl.
  rewrite Hinputs, <- Hvel, <- Hacc. repeat split.
Qed.

Lemma slot_torch_tensor i (a : ndarray float64) dev :
  slot i (torch_tensor a dev) = nd_map to_float32 (slice_cols (3 * i) (3 * i + 3) a).
Proof. unfold slot, torch_tensor. simpl. apply slice_cols_nd_map. Qed.

Lemma raw_entry (raw : ndarray float64) (frames : Z) (dim frame : nat) :
  rectangular raw → Z.of_nat (ncols raw) = frames →
  (dim < nrows raw)%nat → Z.of_nat frame < frames →
  ∃ x, entry raw dim frame = Some x.
Proof.
  intros Hraw Hcols Hdim Hframe. unfold entry.
  destruct (lookup_lt_is_Some_2 (rows raw) dim Hdim) as [row Hrow].
  rewrite Hrow. simpl. apply lookup_lt_is_Some_2.
  rewrite (Forall_lookup_1 _ _ _ _ Hraw Hrow). lia.
Qed.

(** The frames [start .. start + size] of a recorded array, one row per
    frame. *)
Lemma frames_of_rows (raw : ndarray float64) start size frames :
  rectangular raw → Z.of_nat (ncols raw) = frames →
  0 ≤ start → 0 ≤ size → start + size ≤ frames →
  let a := slice_rows start (start + size) (transpose raw) in
  Z.of_nat (nrows a) = size ∧ ncols a = nrows raw ∧ frames_of raw start 0 a.
Proof.
  intros Hraw Hcols Hstart Hsize Hfit. simpl.
  assert (nrows (slice_rows start (start + size) (transpose raw)) = Z.to_nat size)
    as Hrows.
  { rewrite nrows_slice_rows by (rewrite ?nrows_transpose; lia). f_equal. lia. }
  split; [lia|]. split; [done|].
  intros r c Hr Hc. rewrite Hrows in Hr. simpl in Hc.
  rewrite entry_slice_rows by (rewrite ?nrows_transpose; lia).
  rewrite entry_transpose by done. simpl.
  destruct (raw_entry raw frames c (Z.to_nat start + r)) as (x & Hx); [done..|lia|].
  by exists x.
Qed.

(** The same frames, columns [lo .. hi] only. *)
Lemma frames_of_columns (raw : ndarray float64) start size frames lo hi :
  rectangular raw → Z.of_nat (ncols raw) = frames →
  0 ≤ start → 0 ≤ size → start + size ≤ frames → 0 ≤ lo → lo ≤ hi →
  let a := slice2 start (start + size) lo hi (transpose raw) in
  Z.of_nat (nrows a) = size
  ∧ ncols a = slice_width (nrows raw) lo hi
  ∧ frames_of raw start (Z.to_nat lo) a.
Proof.
  intros Hraw Hcols Hstart Hsize Hfit Hlo Hhi. simpl.
  destruct (frames_of_rows raw start size frames) as (Hrows & Hwidth & Hframes);
    [done..|].
  unfold slice2. rewrite nrows_slice_cols.
  split; [done|]. split; [simpl; done|].
  intros r c Hr Hc. rewrite nrows_slice_cols in Hr.
  assert (rectangular (slice_rows start (start + size) (transpose raw))) as Hrect
    by (by apply rectangular_slice_rows, rectangular_transpose).
  destruct (entry_slice_cols lo hi _ r c Hrect Hlo Hhi Hc) as (-> & Hin).
  destruct (Hframes r (Z.to_nat lo + c)%nat Hr Hin) as (x & Hx & Ha).
  by exists x.
Qed.

Lemma stored_from_copy raw start first (a : ndarray float64) :
  frames_of raw start first a →
  stored_from (λ x, x) raw start first (nd_map to_float32 a).
Proof.
  intros Hframes r c Hr Hc. rewrite nrows_nd_map in Hr. rewrite ncols_nd_map in Hc.
  destruct (Hframes r c Hr Hc) as (x & Hx & Ha).
  exists x. split; [done|]. by rewrite entry_nd_map, Ha.
Qed.

Lemma stored_from_div raw start first (a : ndarray float64) mass :
  frames_of raw start first a →
  stored_from (λ x, fdiv x mass) raw start first (nd_map to_float32 (div_scalar a mass)).
Proof.
  intros Hframes r c Hr Hc. unfold div_scalar in *.
  rewrite !nrows_nd_map in Hr. rewrite !ncols_nd_map in Hc.
  destruct (Hframes r c Hr Hc) as (x & Hx & Ha).
  exists x. split; [done|]. by rewrite !entry_nd_map, Ha.
Qed.

(** A whole recorded array of a well-formed pass, stored as it is or
    divided by the mass. *)
Lemma array_from_rows (raw : ndarray float64) start size frames :
  rectangular raw ∧ Z.of_nat (ncols raw) = frames →
  0 ≤ start → 0 ≤ size → start + size ≤ frames →
  let a := slice_rows start (start + size) (transpose raw) in
  array_from size (nrows raw) (λ x, x) raw start 0 (nd_map to_float32 a)
  ∧ ∀ mass, array_from size (nrows raw) (λ x, fdiv x mass) raw start 0
              (nd_map to_float32 (div_scalar a mass)).
Proof.
  intros (Hraw & Hcols) Hstart Hsize Hfit. simpl.
  destruct (frames_of_rows raw start size frames) as (Hrows & Hwidth & Hframes);
    [done..|].
  split; [|intros mass]; (split; [|split]).
  - by rewrite nrows_nd_map.
  - done.
  - by apply stored_from_copy.
  - unfold div_scalar. by rewrite !nrows_nd_map.
  - done.
  - by apply stored_from_div.
Qed.

(** A column range of a recorded array, stored as it is or divided by
    the mass. *)
Lemma array_from_columns (raw : ndarray float64) start size frames lo hi :
  rectangular raw ∧ Z.of_nat (ncols raw) = frames →
  0 ≤ start → 0 ≤ size → start + size ≤ frames → 0 ≤ lo → lo ≤ hi →
  let a := slice2 start (start + size) lo hi (transpose raw) in
  let width := slice_width (nrows raw) lo hi in
  array_from size width (λ x, x) raw start (Z.to_nat lo) (nd_map to_float32 a)
  ∧ ∀ mass, array_from size width (λ x, fdiv x mass) raw start (Z.to_nat lo)
              (nd_map to_float32 (div_scalar a mass)).
Proof.
  intros (Hraw & Hcols) Hstart Hsize Hfit Hlo Hhi. simpl.
  destruct (frames_of_columns raw start size frames lo hi)
    as (Hrows & Hwidth & Hframes); [done..|].
  split; [|intros mass]; (split; [|split]).
  - by rewrite nrows_nd_map.
  - done.
  - by apply stored_from_copy.
  - unfold div_scalar. by rewrite !nrows_nd_map.
  - done.
  - by apply stored_from_div.
Qed.

(** [l.index(x)]: the first position of [x]. *)
Lemma index_or_minus_one_first name raw :
  name ∈ raw →
  ∃ c : nat, index_or_minus_one name raw = Z.of_nat c
             ∧ raw !! c = Some name ∧ (c < length raw)%nat
             ∧ ∀ c' : nat, (c' < c)%nat → raw !! c' ≠ Some name.
Proof.
  intros Hname. unfold index_or_minus_one.
  destruct (list_find _ raw) as [[c y]|] eqn:Hfind.
  - apply list_find_Some in Hfind as (Hc & -> & Hfirst).
    exists c. split; [done|]. split; [done|]. split; [by eapply lookup_lt_Some|].
    intros c' Hlt Hc'. by apply (Hfirst c' name).
  - apply list_find_None in Hfind. rewrite Forall_forall in Hfind.
    exfalso. by apply (Hfind name).
Qed.

(** The passes a window was read from, under the recording contract. *)
Lemma origin_passes d s w subject_index subject trial arrays start :
  (∀ path subject, SubjectOnDisk_open path = Ok subject → subject_well_formed subject) →
  origin d s w subject_index subject trial arrays start →
  ∃ t p_in p_out,
    getitem (getTrials (loadAllFrames subject true)) trial = Ok t
    ∧ getitem (getPasses t) 0 = Ok p_in
    ∧ getitem (getPasses t) (-1) = Ok p_out
    ∧ pass_well_formed (getTrialLength subject trial)
        (length (getGroundForceBodies subject)) p_in
    ∧ pass_well_formed (getTrialLength subject trial)
        (length (getGroundForceBodies subject)) p_out
    ∧ arrays
      = {| probably_missing :=
             (λ reason, bool_decide (reason ≠ notMissingGRF))
               <$> getMissingGRF subject trial;
           trial_length := getTrialLength subject trial;
           pos := transpose (getPoses p_in);
           vel := transpose (getVels p_in);
           acc := transpose (getAccs p_in);
           joint_centers_in_root_frame := transpose (getJointCentersInRootFrame p_in);
           root_spatial_vel_in_root_frame :=
             transpose (getRootSpatialVelInRootFrame p_in);
           root_spatial_acc_in_root_frame :=
             transpose (getRootSpatialAccInRootFrame p_in);
           root_pos_history := transpose (getRootPosHistoryInRootFrame p_in);
           root_euler_history := transpose (getRootEulerHistoryInRootFrame p_in);
           tau := transpose (getTaus p_out);
           ground_contact_wrenches_in_root_frame :=
             transpose (getGroundBodyWrenchesInRootFrame p_out);
           ground_contact_cop_torque_force_in_root_frame :=
             transpose (getGroundBodyCopTorqueForceInRootFrame p_out);
           com_acc_in_root_frame := transpose (getComAccsInRootFrame p_out);
           residual_wrench_in_root_frame :=
             transpose (getResidualWrenchInRootFrame p_out) |}.
Proof.
  intros Hwf [_ Hsubject Htrial Hpull _ _ _].
  apply subject_at_open in Hsubject as (path & Hopen).
  specialize (Hwf path subject Hopen).
  unfold subject_well_formed in Hwf. rewrite Forall_forall in Hwf.
  specialize (Hwf trial). unfold range in Hwf. rewrite elem_of_seqZ in Hwf.
  specialize (Hwf ltac:(lia)). unfold trial_well_formed in Hwf.
  unfold pull_trial in Hpull.
  destruct (getitem (getTrials _) trial) as [t|e] eqn:Ht; [|done]. simpl in Hpull.
  destruct (getitem (getPasses t) 0) as [p_in|e] eqn:Hin; [|done]. simpl in Hpull.
  destruct (getitem (getPasses t) (-1)) as [p_out|e] eqn:Hout; [|done].
  simpl in Hpull. injection Hpull as <-.
  apply getitem_nonneg_Ok in Ht as Hlookup; [|lia]. rewrite Hlookup in Hwf.
  rewrite Forall_forall in Hwf.
  exists t, p_in, p_out. repeat (split; [done|]).
  split; [by apply Hwf, (getitem_elem_of _ _ _ Hin)|].
  split; [by apply Hwf, (getitem_elem_of _ _ _ Hout)|]. done.
Qed.

(** C2. In every window of the store, under the recording contract:
    the ground-contact wrench output holds, frame by frame and component
    by component, the wrench recorded in the trial's last pass divided by
    the subject's mass, and the torque and force slots of every registry
    entry the subject records hold the torque and force recorded for that
    body in the last pass, divided by the mass; its centre-of-pressure
    slot, the joint torques, the residual wrench and the centre-of-mass
    acceleration hold the values recorded in the last pass, and the ten
    inputs the values recorded in the first pass, with no arithmetic on
    them.  The division is numpy's float64 division, and every value is
    stored converted to float32. *)
Theorem outputs_divided_by_mass s h w :
  (∀ path subject, SubjectOnDisk_open path = Ok subject → subject_well_formed subject) →
  w ∈ windows (self (prepare_data_for_subset s h).2) →
  ∃ subject_index subject trial arrays start t p_in p_out,
    origin (self h) s w subject_index subject trial arrays start
    ∧ getitem (getTrials (loadAllFrames subject true)) trial = Ok t
    ∧ getitem (getPasses t) 0 = Ok p_in
    ∧ getitem (getPasses t) (-1) = Ok p_out
    ∧ let size := window_size (self h) in
      let mass := getMassKg subject in
      let per_mass := λ x, fdiv x mass in
      let unscaled := λ x : float64, x in
      let raw_bodies := getGroundForceBodies subject in
      let packed := getGroundBodyCopTorqueForceInRootFrame p_out in
      let output := λ key f raw,
        field_from (window_labels w) key size (nrows raw) f raw start 0 in
      let input := λ key raw,
        field_from (window_inputs w) key size (nrows raw) unscaled raw start 0 in
      let input_columns := λ key raw (lo hi : Z),
        field_from (window_inputs w) key size (slice_width (nrows raw) lo hi)
          unscaled raw start (Z.to_nat lo) in
      output OutputDataKeys.GROUND_CONTACT_WRENCHES_IN_ROOT_FRAME per_mass
        (getGroundBodyWrenchesInRootFrame p_out)
      ∧ (∀ (i : nat) name,
           contact_bodies (self h) !! i = Some name → name ∈ raw_bodies →
           ∃ (c : nat) cops torques forces,
             raw_bodies !! c = Some name
             ∧ (∀ c' : nat, (c' < c)%nat → raw_bodies !! c' ≠ Some name)
             ∧ window_labels w !! OutputDataKeys.GROUND_CONTACT_COPS_IN_ROOT_FRAME
               = Some cops
             ∧ window_labels w !! OutputDataKeys.GROUND_CONTACT_TORQUES_IN_ROOT_FRAME
               = Some torques
             ∧ window_labels w !! OutputDataKeys.GROUND_CONTACT_FORCES_IN_ROOT_FRAME
               = Some forces
             ∧ array_from size 3 unscaled packed start (9 * c)
                 (slot (Z.of_nat i) cops)
             ∧ array_from size 3 per_mass packed start (9 * c + 3)
                 (slot (Z.of_nat i) torques)
             ∧ array_from size 3 per_mass packed start (9 * c + 6)
                 (slot (Z.of_nat i) forces))
      ∧ output OutputDataKeys.TAU unscaled (getTaus p_out)
      ∧ output OutputDataKeys.RESIDUAL_WRENCH_IN_ROOT_FRAME unscaled
          (getResidualWrenchInRootFrame p_out)
      ∧ output OutputDataKeys.COM_ACC_IN_ROOT_FRAME unscaled (getComAccsInRootFrame p_out)
      ∧ input InputDataKeys.POS (getPoses p_in)
      ∧ input InputDataKeys.VEL (getVels p_in)
      ∧ input InputDataKeys.ACC (getAccs p_in)
      ∧ input InputDataKeys.JOINT_CENTERS_IN_ROOT_FRAME (getJointCentersInRootFrame p_in)
      ∧ input InputDataKeys.ROOT_POS_HISTORY_IN_ROOT_FRAME
          (getRootPosHistoryInRootFrame p_in)
      ∧ input InputDataKeys.ROOT_EULER_HISTORY_IN_ROOT_FRAME
          (getRootEulerHistoryInRootFrame p_in)
      ∧ input_columns InputDataKeys.ROOT_ANGULAR_VEL_IN_ROOT_FRAME
          (getRootSpatialVelInRootFrame p_in) 0 3
      ∧ input_columns InputDataKeys.ROOT_LINEAR_VEL_IN_ROOT_FRAME
          (getRootSpatialVelInRootFrame p_in) 3 6
      ∧ input_columns InputDataKeys.ROOT_ANGULAR_ACC_IN_ROOT_FRAME
          (getRootSpatialAccInRootFrame p_in) 0 3
      ∧ input_columns InputDataKeys.ROOT_LINEAR_ACC_IN_ROOT_FRAME
          (getRootSpatialAccInRootFrame p_in) 3 6.
Proof.
  intros Hwf (si & subject & trial & arrays & start & Horigin)%origin_of_window.
  pose proof (origin_bounds _ _ _ _ _ _ _ _ Horigin) as (Hsize & Hstart & Hfit & _).
  pose proof (origin_well_formed _ _ _ _ _ _ _ _ Hwf Horigin) as Harrays.
  pose proof (origin_passes _ _ _ _ _ _ _ _ Hwf Horigin)
    as (t & p_in & p_out & Ht & Hp_in & Hp_out & (Hin & _) & (Hout & Hpacked) & Hpulled).
  pose proof Horigin as [_ _ _ _ _ _ Hmake].
  apply make_window_inv in Hmake
    as (zeros & filled & Hzeros & Hfill & Hinputs & Hlabels & _).
  destruct (filled_spec _ _ _ _ _ _ _ _ Hzeros Hfill Harrays Hstart Hfit)
    as (_ & _ & Hmapped).
  destruct filled as [[cops torques] forces].
  rewrite Forall_forall in Hin, Hout.
  exists si, subject, trial, arrays, start, t, p_in, p_out.
  repeat (split; [done|]). subst arrays. cbv zeta.
  set (size := window_size (self h)) in *.
  set (stop := start + size) in *.
  set (dev := device (self h)) in *.
  (* a whole array of a pass, copied or divided *)
  assert (∀ p raw,
            (∀ a, a ∈ pass_arrays p →
                  rectangular a ∧ Z.of_nat (ncols a) = getTrialLength subject trial) →
            raw ∈ pass_arrays p →
            array_from size (nrows raw) (λ x, x) raw start 0
              (tensor_data (torch_tensor (slice_rows start stop (transpose raw)) dev))
            ∧ array_from size (nrows raw) (λ x, fdiv x (getMassKg subject)) raw start 0
                (tensor_data
                   (torch_tensor
                      (div_scalar (slice_rows start stop (transpose raw))
                         (getMassKg subject)) dev))) as Hwhole.
  { intros p raw Hp Hraw.
    destruct (array_from_rows raw start size (getTrialLength subject trial)
                (Hp raw Hraw) Hstart Hsize Hfit) as (Hcopy & Hdiv).
    split; [exact Hcopy|exact (Hdiv (getMassKg subject))]. }
  (* a column range of an array of a pass, copied or divided *)
  assert (∀ p raw lo hi,
            (∀ a, a ∈ pass_arrays p →
                  rectangular a ∧ Z.of_nat (ncols a) = getTrialLength subject trial) →
            raw ∈ pass_arrays p → 0 ≤ lo → lo ≤ hi →
            array_from size (slice_width (nrows raw) lo hi) (λ x, x) raw start
              (Z.to_nat lo)
              (nd_map to_float32 (slice2 start stop lo hi (transpose raw)))
            ∧ array_from size (slice_width (nrows raw) lo hi)
                (λ x, fdiv x (getMassKg subject)) raw start (Z.to_nat lo)
                (nd_map to_float32
                   (div_scalar (slice2 start stop lo hi (transpose raw))
                      (getMassKg subject)))) as Hpart.
  { intros p raw lo hi Hp Hraw Hlo Hhi.
    destruct (array_from_columns raw start size (getTrialLength subject trial) lo hi
                (Hp raw Hraw) Hstart Hsize Hfit Hlo Hhi) as (Hcopy & Hdiv).
    split; [exact Hcopy|exact (Hdiv (getMassKg subject))]. }
  split.
  { eexists. split; [rewrite Hlabels; reflexivity|].
    apply (Hwhole p_out); [done|]. unfold pass_arrays. do 9 right. by left. }
  split.
  { intros i name Hname Hpresent.
    specialize (Hmapped i name Hname Hpresent).
    destruct (index_or_minus_one_first _ _ Hpresent) as (c & Hc & Hraw & Hlt & Hfirst).
    rewrite Hc in Hmapped. unfold contact_slots, contact_source in Hmapped.
    pose proof (f_equal (λ x : ContactArrays, x.1.1) Hmapped) as Hcops.
    pose proof (f_equal (λ x : ContactArrays, x.1.2) Hmapped) as Htorques.
    pose proof (f_equal (λ x : ContactArrays, x.2) Hmapped) as Hforces.
    simpl in Hcops, Htorques, Hforces.
    assert (getGroundBodyCopTorqueForceInRootFrame p_out ∈ pass_arrays p_out) as Hpk
      by (unfold pass_arrays; do 10 right; by left).
    assert (∀ lo hi, 9 * Z.of_nat c ≤ lo → hi = lo + 3 → hi ≤ 9 * Z.of_nat c + 9 →
              slice_width (nrows (getGroundBodyCopTorqueForceInRootFrame p_out)) lo hi
              = 3%nat) as Hthree.
    { intros lo hi Hlo -> Hhi. unfold slice_width, clamp. rewrite Hpacked.
      rewrite !decide_False by lia. lia. }
    exists c, (torch_tensor cops dev), (torch_tensor torques dev),
      (torch_tensor forces dev).
    split; [done|]. split; [done|].
    split; [rewrite Hlabels; reflexivity|].
    split; [rewrite Hlabels; reflexivity|].
    split; [rewrite Hlabels; reflexivity|].
    rewrite !slot_torch_tensor, Hcops, Htorques, Hforces.
    destruct (Hpart p_out _ (9 * Z.of_nat c) (9 * Z.of_nat c + 3) Hout Hpk)
      as (Hcop & _); [lia..|].
    destruct (Hpart p_out _ (9 * Z.of_nat c + 3) (9 * Z.of_nat c + 6) Hout Hpk)
      as (_ & Htorque); [lia..|].
    destruct (Hpart p_out _ (9 * Z.of_nat c + 6) (9 * Z.of_nat c + 9) Hout Hpk)
      as (_ & Hforce); [lia..|].
    rewrite Hthree in Hcop, Htorque, Hforce by lia.
    replace (Z.to_nat (9 * Z.of_nat c)) with (9 * c)%nat in Hcop by lia.
    replace (Z.to_nat (9 * Z.of_nat c + 3)) with (9 * c + 3)%nat in Htorque by lia.
    replace (Z.to_nat (9 * Z.of_nat c + 6)) with (9 * c + 6)%nat in Hforce by lia.
    done. }
  repeat split.
  all: try (eexists; split; [rewrite Hlabels; reflexivity|];
            apply (Hwhole p_out); [done|];
            unfold pass_arrays;
            repeat (apply elem_of_cons; first [left; reflexivity | right])).
  all: try (eexists; split; [rewrite Hinputs; reflexivity|];
            apply (Hwhole p_in); [done|];
            unfold pass_arrays;
            repeat (apply elem_of_cons; first [left; reflexivity | right])).
  all: eexists; (split; [rewrite Hinputs; reflexivity|]);
       apply (Hpart p_in); [done| |lia|lia];
       unfold pass_arrays;
       repeat (apply elem_of_cons; first [left; reflexivity | right]).
Qed.

(** C4. For a registry entry whose name is not in a subject's raw
    contact-body list, the entry's slot is zero throughout in the centre
    of pressure, torque and force outputs of every window of that
    subject, and the turn of the filling loop for that entry changes
    nothing and does not raise. *)
Theorem absent_bodies_zero s h w :
  (∀ path subject, SubjectOnDisk_open path = Ok subject → subject_well_formed subject) →
  w ∈ windows (self (prepare_data_for_subset s h).2) →
  ∃ subject_index subject trial arrays start cops torques forces,
    origin (self h) s w subject_index subject trial arrays start
    ∧ window_labels w !! OutputDataKeys.GROUND_CONTACT_COPS_IN_ROOT_FRAME = Some cops
    ∧ window_labels w !! OutputDataKeys.GROUND_CONTACT_TORQUES_IN_ROOT_FRAME
      = Some torques
    ∧ window_labels w !! OutputDataKeys.GROUND_CONTACT_FORCES_IN_ROOT_FRAME
      = Some forces
    ∧ ∀ (i : nat) name,
        contact_bodies (self h) !! i = Some name →
        name ∉ getGroundForceBodies subject →
        ∃ zeros,
          np_zeros (window_size (self h)) 3 = Ok zeros
          ∧ slot (Z.of_nat i) cops = nd_map to_float32 zeros
          ∧ slot (Z.of_nat i) torques = nd_map to_float32 zeros
          ∧ slot (Z.of_nat i) forces = nd_map to_float32 zeros
          ∧ ∀ partial,
              fill_contact (ground_contact_cop_torque_force_in_root_frame arrays)
                (getMassKg subject) start (start + window_size (self h))
                (contact_indices_of (contact_bodies (self h)) subject)
                partial (Z.of_nat i)
              = Ok partial.
Proof.
  intros Hwf (si & subject & trial & arrays & start & Horigin)%origin_of_window.
  pose proof (origin_bounds _ _ _ _ _ _ _ _ Horigin) as (Hsize & Hstart & Hfit & Hlen).
  pose proof (origin_well_formed _ _ _ _ _ _ _ _ Hwf Horigin) as Harrays.
  pose proof Horigin as [_ _ _ _ _ _ Hmake].
  apply make_window_inv in Hmake as (zeros & filled & Hzeros & Hfill & Hin & Hout & _).
  destruct (filled_spec _ _ _ _ _ _ _ _ Hzeros Hfill Harrays Hstart Hfit)
    as (_ & Habsent & _).
  destruct filled as [[cops torques] forces].
  exists si, subject, trial, arrays, start,
    (torch_tensor cops (device (self h))), (torch_tensor torques (device (self h))),
    (torch_tensor forces (device (self h))).
  split; [done|]. rewrite Hout.
  split; [done|]. split; [done|]. split; [done|].
  intros i name Hname Hnot.
  specialize (Habsent i name Hname Hnot).
  unfold contact_slots in Habsent.
  pose proof (f_equal (λ x : ContactArrays, x.1.1) Habsent) as Hcops.
  pose proof (f_equal (λ x : ContactArrays, x.1.2) Habsent) as Htorques.
  pose proof (f_equal (λ x : ContactArrays, x.2) Habsent) as Hforces.
  simpl in Hcops, Htorques, Hforces.
  exists (slice_cols (3 * Z.of_nat i) (3 * Z.of_nat i + 3) zeros).
  split;
    [apply (zeros_slot _ (length (contact_bodies (self h))));
     [done|by eapply lookup_lt_Some]|].
  rewrite !slot_torch_tensor, Hcops, Htorques, Hforces.
  split; [done|]. split; [done|]. split; [done|].
  intros partial. unfold fill_contact, contact_indices_of.
  rewrite (getitem_fmap_lookup _ _ _ _ Hname), index_or_minus_one_absent by done.
  done.
Qed.
End window_properties.

(* ===================================================================== *)
(** ** Discovery and construction, further *)
(* ===================================================================== *)

Section string_facts.

Lemma substring_whole (s : string) : String.substring 0 (String.length s) s = s.
Proof. induction s as [|c s IH]; [done|]. simpl. by rewrite IH. Qed.

Lemma substring_after (pre suf : string) :
  String.substring (String.length pre) (String.length suf) (pre +:+ suf) = suf.
Proof. induction pre as [|c pre IH]; [apply substring_whole|]. simpl. apply IH. Qed.

Lemma string_length_append (a b : string) :
  String.length (a +:+ b) = (String.length a + String.length b)%nat.
Proof. induction a as [|x a IH]; [done|]. simpl. by f_equal. Qed.

Lemma string_append_assoc (a b c : string) : (a +:+ b) +:+ c = a +:+ b +:+ c.
Proof.
  induction a as [|x a IH]; [done|].
  change (String x ((a +:+ b) +:+ c) = String x (a +:+ b +:+ c)). by f_equal.
Qed.

Lemma string_split (s : string) (j : nat) :
  (j ≤ String.length s)%nat →
  s = String.substring 0 j s +:+ String.substring j (String.length s - j) s.
Proof.
  induction j as [|j IH] in s |- *; intros Hj.
  - rewrite Nat.sub_0_r, substring_whole. by destruct s.
  - destruct s as [|c s]; [simpl in Hj; lia|]. simpl in *.
    change (String c s
            = String c (String.substring 0 j s
                        +:+ String.substring j (String.length s - j) s)).
    f_equal. apply IH. lia.
Qed.

(** [s.endswith(suffix)] holds exactly of the strings that end in [suffix]. *)
Lemma endswith_iff (s suffix : string) :
  endswith s suffix = true ↔ ∃ pre, s = pre +:+ suffix.
Proof.
  unfold endswith. split.
  - destruct (decide _) as [Hk|]; [|done]. intros Heq%String.eqb_eq.
    exists (String.substring 0 (String.length s - String.length suffix) s).
    pose proof (string_split s (String.length s - String.length suffix)) as Hs.
    replace (String.length s - (String.length s - String.length suffix))%nat
      with (String.length suffix) in Hs by lia.
    rewrite Heq in Hs. apply Hs. lia.
  - intros (pre & ->). rewrite string_length_append.
    rewrite decide_True by lia.
    replace (String.length pre + String.length suffix - String.length suffix)%nat
      with (String.length pre) by lia.
    rewrite substring_after. apply String.eqb_refl.
Qed.

Lemma endswith_append (p s suffix : string) :
  endswith s suffix = true → endswith (p +:+ s) suffix = true.
Proof.
  rewrite !endswith_iff. intros (pre & ->). exists (p +:+ pre).
  by rewrite string_append_assoc.
Qed.

Lemma os_path_join_endswith (root file suffix : string) :
  endswith file suffix = true → endswith (os_path_join root file) suffix = true.
Proof.
  intros Hfile. unfold os_path_join.
  destruct (startswith file "/"); [done|].
  destruct (decide (root = "")); [done|].
  destruct (endswith root "/").
  - by apply endswith_append.
  - apply endswith_append. by apply (endswith_append "/").
Qed.
End string_facts.

Section construction_more.
Context `{Numeric} `{Nimble} `{!FileSystem}.

Lemma discover_b3d data_path paths :
  discover data_path = Ok paths → Forall (λ p, endswith p ".b3d" = true) paths.
Proof.
  unfold discover. destruct (os_path_isdir data_path).
  - intros [= <-]. apply Forall_forall. intros p Hp%list_elem_of_In.
    apply in_flat_map in Hp as ([[root dirs] files] & _ & Hp).
    apply list_elem_of_In, list_elem_of_fmap in Hp as (file & -> & Hfile).
    apply list_elem_of_filter in Hfile as (Hext%Is_true_true & _).
    by apply os_path_join_endswith.
  - destruct (endswith data_path ".b3d") eqn:Hext; [|done].
    intros [= <-]. by constructor.
Qed.

Lemma Forall_slice {A} (P : A → Prop) lo hi (l : list A) :
  Forall P l → Forall P (slice lo hi l).
Proof. intros Hl. unfold slice. by apply Forall_take, Forall_drop. Qed.

(** X1. Every subject path of a constructed dataset ends in ['.b3d'],
    whether it was given as a single file or found by walking a
    directory. *)
Theorem subject_paths_are_recordings data_path size geo dev testing skip d :
  __init__ data_path size geo dev testing skip = Ok d →
  Forall (λ p, endswith p ".b3d" = true) (subject_paths d).
Proof.
  intros (paths & Hdisc%discover_b3d & _ & _ & -> & _)%init_inv.
  destruct testing; [by apply Forall_slice|done].
Qed.

(** What [mapM] over a body that can raise returns when it completes. *)
Lemma mapM_result_Ok {A B} (f : A → result B) (l : list A) (ys : list B) :
  mapM f l = Ok ys → Forall2 (λ x y, f x = Ok y) l ys.
Proof.
  induction l as [|x l IH] in ys |- *; simpl.
  - intros [= <-]. constructor.
  - destruct (f x) as [y|e] eqn:Hx; [|done]. simpl.
    destruct (mapM f l) as [ys'|e]; [|done]. simpl.
    intros [= <-]. constructor; [done|]. by apply IH.
Qed.

(** What a successful construction has loaded. *)
Lemma init_loaded data_path size geo dev testing skip d :
  __init__ data_path size geo dev testing skip = Ok d →
  ∃ loaded,
    skeletons d = loaded.*1
    ∧ skeletons_contact_bodies d = loaded.*2
    ∧ (if skip then loaded = []
       else Forall2 (λ path sk, load_skeleton geo (contact_bodies d) path = Ok sk)
              (subject_paths d) loaded).
Proof.
  unfold __init__. intros Hinit.
  destruct (discover data_path) as [paths|e]; [|done]. simpl in Hinit.
  destruct (if decide (len paths > 0) then _ else _) as [[[dofs joints] bodies]|e];
    [|done].
  simpl in Hinit.
  destruct (if negb skip then _ else _) as [loaded|e] eqn:Hload; [|done].
  simpl in Hinit. injection Hinit as <-. simpl.
  exists loaded. split; [done|]. split; [done|].
  destruct skip; simpl in Hload.
  - by injection Hload as <-.
  - by apply mapM_result_Ok.
Qed.

Lemma slice_to_take {A} (n : Z) (l : list A) :
  0 ≤ n → slice_to n l = take (Z.to_nat n) l.
Proof.
  intros Hn. unfold slice_to, slice, clamp, len.
  rewrite (decide_False (P := 0 < 0)) by lia.
  rewrite (decide_False (P := n < 0)) by lia.
  replace (Z.to_nat (Z.min 0 (Z.of_nat (length l)))) with 0%nat by lia.
  rewrite drop_0.
  destruct (decide (n ≤ Z.of_nat (length l))).
  - f_equal. lia.
  - rewrite !take_ge by lia. done.
Qed.

(** X2. A constructed dataset holds one skeleton and one list of body
    handles per subject path, or none at all when skeleton loading is
    skipped; each list of handles has one entry per registry name, the
    handle [getBodyNode] returned on the subject's skeleton for that
    name; and under [testing_with_short_dataset] the subject paths are
    the first two discovered ones. *)
Theorem skeletons_follow_subject_paths data_path size geo dev testing skip d :
  __init__ data_path size geo dev testing skip = Ok d →
  length (skeletons d) = length (skeletons_contact_bodies d)
  ∧ length (skeletons d) = (if skip then 0%nat else length (subject_paths d))
  ∧ Forall2 (λ skeleton handles,
               mapM (getBodyNode skeleton) (contact_bodies d) = Ok handles)
      (skeletons d) (skeletons_contact_bodies d)
  ∧ Forall (λ handles, length handles = length (contact_bodies d))
      (skeletons_contact_bodies d)
  ∧ ∃ paths,
      discover data_path = Ok paths
      ∧ subject_paths d = (if testing then take 2 paths else paths).
Proof.
  intros Hinit.
  pose proof (init_loaded _ _ _ _ _ _ _ Hinit) as (loaded & -> & -> & Hloaded).
  apply init_inv in Hinit as (paths & Hdisc & _ & _ & Hpaths & _).
  assert (Forall (λ sk : Skeleton * list (option BodyNode),
                    mapM (getBodyNode sk.1) (contact_bodies d) = Ok sk.2) loaded)
    as Hhandles.
  { destruct skip; [subst loaded; constructor|].
    eapply Forall2_Forall_r; [exact Hloaded|]. apply Forall_forall.
    intros path _ sk. unfold load_skeleton.
    destruct (SubjectOnDisk_open path) as [subject|e]; [|done]. simpl.
    destruct (readSkel _ _ _) as [skeleton|e]; [|done]. simpl.
    destruct (mapM (getBodyNode skeleton) (contact_bodies d)) as [handles|e] eqn:Hmap;
      [|done].
    simpl. by intros [= <-]. }
  rewrite !length_fmap. split; [done|]. split; [|split; [|split]].
  - destruct skip; [by subst loaded|]. symmetry. by eapply Forall2_length.
  - apply Forall2_fmap, Forall2_same_length_lookup. split; [done|].
    intros i sk sk' Hsk Hsk'. rewrite Hsk in Hsk'. injection Hsk' as <-.
    by eapply (Forall_lookup_1 _ _ _ _ Hhandles).
  - apply Forall_fmap. eapply Forall_impl; [exact Hhandles|]. simpl.
    intros sk Hsk%mapM_result_Ok. symmetry. by eapply Forall2_length.
  - exists paths. split; [done|]. rewrite Hpaths.
    destruct testing; [|done]. by rewrite slice_to_take.
Qed.
End construction_more.

(* ===================================================================== *)
(** ** Calls, further *)
(* ===================================================================== *)

Section call_more.
Context `{Numeric} `{Nimble} `{!FileSystem}.

Lemma raises_nil : ¬ raises [].
Proof. intros (e & He). by apply elem_of_nil in He. Qed.

Lemma raises_mjoin (trs : list (list event)) : raises (mjoin trs) ↔ Exists raises trs.
Proof.
  induction trs as [|tr trs IH]; simpl.
  - split; [by intros ?%raises_nil|by intros ?%Exists_nil].
  - by rewrite raises_app, Exists_cons, IH.
Qed.

Lemma not_raises_mjoin (trs : list (list event)) :
  ¬ raises (mjoin trs) ↔ Forall (λ tr, ¬ raises tr) trs.
Proof.
  rewrite raises_mjoin. split.
  - intros Hnex. apply Forall_forall. intros tr Htr Hr.
    apply Hnex, Exists_exists. by exists tr.
  - intros Hall (tr & Htr & Hr)%Exists_exists.
    rewrite Forall_forall in Hall. by apply (Hall tr).
Qed.

Lemma committed_mjoin (trs : list (list event)) :
  ¬ raises (mjoin trs) → committed (mjoin trs) = mjoin (committed <$> trs).
Proof.
  induction trs as [|tr trs IH]; [done|]. simpl.
  intros (Hnr1 & Hnr2)%(not_iff_compat (raises_app _ _))%Decidable.not_or.
  rewrite committed_app by done. by rewrite IH.
Qed.

Lemma prepare_trace_app d l1 l2 :
  prepare_trace d (Some (l1 ++ l2))
  = prepare_trace d (Some l1) ++ prepare_trace d (Some l2).
Proof. unfold prepare_trace, selected. by rewrite fmap_app, join_app. Qed.

(** Whether a trace completes or raises, and with what, does not depend
    on the count or the heap it starts from. *)
Lemma replay_outcome_unit tr n n' h h' :
  match (replay tr n h).1 with Ok _ => Ok () | Raise e => Raise e end
  = match (replay tr n' h').1 with Ok _ => Ok () | Raise e => Raise e end.
Proof.
  induction tr as [|ev tr IH] in n, n', h, h' |- *; [done|].
  destruct ev; simpl; auto.
Qed.

Lemma prepare_completes_iff s h :
  (prepare_data_for_subset s h).1 = Ok () ↔ ¬ raises (prepare_trace (self h) s).
Proof.
  rewrite prepare_outcome, prepare_replay. split.
  - destruct (replay _ _ _).1 as [n|e] eqn:Hrun; [|done].
    intros _. by apply replay_Ok in Hrun as (Hnr & _).
  - intros Hnr. by rewrite replay_not_raises.
Qed.

Lemma prepare_completed s h h' :
  prepare_data_for_subset s h = (Ok (), h') →
  ¬ raises (prepare_trace (self h) s) ∧ h' = (prepare_data_for_subset s h).2.
Proof.
  intros Hrun. split; [|by rewrite Hrun].
  apply prepare_completes_iff. by rewrite Hrun.
Qed.

(** X3. A subset processed as two consecutive parts: when the call on the
    first part completes, the call on the whole subset ends as the call
    on the second part does, and its store is the store of the first
    part followed by the store of the second, also when the second part
    raises; when the call on the first part raises, the call on the whole
    subset raises the same exception and leaves the same heap. *)
Theorem subsets_compose l1 l2 h :
  match (prepare_data_for_subset (Some l1) h).1 with
  | Ok _ =>
      (prepare_data_for_subset (Some (l1 ++ l2)) h).1
      = (prepare_data_for_subset (Some l2) h).1
      ∧ windows (self (prepare_data_for_subset (Some (l1 ++ l2)) h).2)
        = windows (self (prepare_data_for_subset (Some l1) h).2)
          ++ windows (self (prepare_data_for_subset (Some l2) h).2)
  | Raise e =>
      prepare_data_for_subset (Some (l1 ++ l2)) h
      = prepare_data_for_subset (Some l1) h
  end.
Proof.
  destruct (prepare_data_for_subset (Some l1) h).1 as [[]|e] eqn:Hfirst.
  - apply prepare_completes_iff in Hfirst as Hnr. split.
    + rewrite !prepare_outcome, !prepare_replay, prepare_trace_app, replay_app.
      pose proof (replay_not_raises _ 0 (emptied h) Hnr) as Hok.
      destruct (replay (prepare_trace (self h) (Some l1)) 0 (emptied h))
        as [[n|e] h1]; [|done].
      apply replay_outcome_unit.
    + rewrite !prepare_windows, prepare_trace_app. by apply committed_app.
  - rewrite prepare_outcome, prepare_replay in Hfirst.
    rewrite !prepare_unfold, !prepare_replay, prepare_trace_app, replay_app.
    by destruct (replay (prepare_trace (self h) (Some l1)) 0 (emptied h))
      as [[n|e'] h1].
Qed.

Lemma subject_trace_completes paths size bodies dev subject_index :
  ¬ raises (subject_trace paths size bodies dev subject_index) →
  0 ≤ subject_index < 2 ^ 32
  ∧ ∃ path subject,
      getitem paths subject_index = Ok path
      ∧ SubjectOnDisk_open path = Ok subject
      ∧ loadAllFrames_raises subject true = None
      ∧ ¬ raises (mjoin (trial_trace size bodies dev subject_index subject
                           (loadAllFrames subject true)
                         <$> range (getNumTrials subject))).
Proof.
  unfold subject_trace.
  destruct (decide (0 ≤ subject_index < 2 ^ 32));
    [|intros Hnr; exfalso; apply Hnr; eexists; by left].
  intros Hnr%not_raises_cons. split; [done|].
  destruct (getitem _ _) as [path|e]; [|exfalso; apply Hnr; eexists; by left].
  destruct (SubjectOnDisk_open path) as [subject|e] eqn:Hopen;
    [|exfalso; apply Hnr; eexists; by left].
  destruct (loadAllFrames_raises subject true) as [e|] eqn:Hload;
    [exfalso; apply Hnr; eexists; by left|].
  by exists path, subject.
Qed.

(** X4. A call that completes was given valid positions only: every
    subject index it walked over is a position of [subject_paths]
    counted from the front, never a negative index counted from the
    end, and the recording at that position opened. *)
Theorem completed_call_indices_in_range s h h' :
  prepare_data_for_subset s h = (Ok (), h') →
  Forall (λ subject_index,
            0 ≤ subject_index < len (subject_paths (self h))
            ∧ ∃ subject, subject_at (self h) subject_index = Ok subject)
    (selected (self h) s).
Proof.
  intros (Hnr & _)%prepare_completed.
  unfold prepare_trace in Hnr. apply not_raises_mjoin in Hnr.
  rewrite Forall_fmap in Hnr. eapply Forall_impl; [exact Hnr|]. simpl.
  intros si (Hsi & path & subject & Hpath & Hopen & _)%subject_trace_completes.
  split.
  - apply getitem_nonneg_Ok in Hpath as Hlookup; [|lia].
    apply lookup_lt_Some in Hlookup. unfold len. lia.
  - exists subject. unfold subject_at. by rewrite Hpath.
Qed.

(** X5. With a negative window size no window is ever stored, whether
    the call completes or raises. *)
Theorem negative_window_size_stores_nothing s h :
  window_size (self h) < 0 →
  windows (self (prepare_data_for_subset s h).2) = [].
Proof.
  intros Hsize.
  destruct (windows (self (prepare_data_for_subset s h).2)) as [|w ws] eqn:Hws; [done|].
  assert (w ∈ windows (self (prepare_data_for_subset s h).2)) as Hw
    by (rewrite Hws; by left).
  apply origin_of_window in Hw as (si & subject & trial & arrays & start & Horigin).
  apply origin_bounds in Horigin as (? & _). lia.
Qed.

Lemma seeds_nil_app tr1 tr2 : seeds tr1 = [] → seeds tr2 = [] → seeds (tr1 ++ tr2) = [].
Proof.
  intros Hnil1 Hnil2. induction tr1 as [|ev tr1 IH]; [done|].
  destruct ev; simpl in *; auto. done.
Qed.

Lemma seeds_app tr1 tr2 : ¬ raises tr1 → seeds (tr1 ++ tr2) = seeds tr1 ++ seeds tr2.
Proof.
  induction tr1 as [|ev tr1 IH]; [done|]. intros Hnr.
  pose proof (not_raises_cons _ _ Hnr) as Hnr'.
  destruct ev; simpl; rewrite ?IH by done; try done.
  exfalso. apply Hnr. exists e. by left.
Qed.

Lemma seeds_trial_trace size bodies dev subject_index subject header trial :
  seeds (trial_trace size bodies dev subject_index subject header trial) = [].
Proof.
  unfold trial_trace. destruct (pull_trial _ _ _) as [d|e]; [|done].
  induction (candidate_starts size (trial_length d)) as [|start starts IH]; [done|].
  rewrite fmap_cons. unfold window_event at 1.
  destruct (any_missing _ _) as [[|]|e]; simpl; try done.
  by destruct (make_window _ _ _ _ _ _ _).
Qed.

Lemma seeds_subject_trace paths size bodies dev subject_index :
  seeds (subject_trace paths size bodies dev subject_index)
  = if decide (0 ≤ subject_index < 2 ^ 32) then [subject_index] else [].
Proof.
  unfold subject_trace. destruct (decide _); [|done]. simpl. f_equal.
  destruct (getitem _ _) as [path|e]; [|done].
  destruct (SubjectOnDisk_open path) as [subject|e]; [|done].
  destruct (loadAllFrames_raises subject true) as [e|]; [done|].
  induction (range (getNumTrials subject)) as [|trial trials IH]; [done|].
  rewrite fmap_cons. simpl. apply seeds_nil_app; [apply seeds_trial_trace|done].
Qed.

Lemma seeds_prepare_trace d s :
  ¬ raises (prepare_trace d s) → seeds (prepare_trace d s) = selected d s.
Proof.
  unfold prepare_trace.
  induction (selected d s) as [|si l IH]; [done|].
  rewrite fmap_cons. simpl.
  intros (Hnr1 & Hnr2)%(not_iff_compat (raises_app _ _))%Decidable.not_or.
  rewrite seeds_app, IH by done. rewrite seeds_subject_trace.
  apply subject_trace_completes in Hnr1 as (Hsi & _).
  by rewrite decide_True.
Qed.

Lemma replay_seed tr n h :
  np_random_state (replay tr n h).2
  = match last (seeds tr) with
    | Some seed => Some seed
    | None => np_random_state h
    end.
Proof.
  induction tr as [|ev tr IH] in n, h |- *; [done|].
  destruct ev; simpl; rewrite ?IH; try done.
  rewrite last_cons. by destruct (last (seeds tr)).
Qed.

Lemma subject_trace_fails d subject_index e :
  index_fails d subject_index = Some e →
  subject_trace (subject_paths d) (window_size d) (contact_bodies d) (device d)
    subject_index
  = (if decide (0 ≤ subject_index < 2 ^ 32) then [EvSeed subject_index] else [])
    ++ [EvRaise e].
Proof.
  unfold index_fails, subject_trace, subject_at.
  destruct (decide (0 ≤ subject_index < 2 ^ 32)); [|by intros [= <-]].
  destruct (getitem _ _) as [path|e']; simpl; [|by intros [= <-]].
  destruct (SubjectOnDisk_open path) as [subject|e']; [done|by intros [= <-]].
Qed.

(** X6. A subject index whose turn fails before its first trial stops
    the call with that exception: a negative index, or one of [2**32] or
    more, raises [ValueError] where the generator is seeded, so a
    negative index never counts from the end; an index past the end
    raises [IndexError]; a recording that does not open raises what
    opening it raises.  The windows of the subject indices before it stay
    in the store, and nothing after it is processed. *)
Theorem failing_index_stops_call l1 subject_index l2 h e :
  (prepare_data_for_subset (Some l1) h).1 = Ok () →
  index_fails (self h) subject_index = Some e →
  (prepare_data_for_subset (Some (l1 ++ subject_index :: l2)) h).1 = Raise e
  ∧ windows (self (prepare_data_for_subset (Some (l1 ++ subject_index :: l2)) h).2)
    = windows (self (prepare_data_for_subset (Some l1) h).2)
  ∧ (¬ (0 ≤ subject_index < 2 ^ 32) → e = ValueError)
  ∧ (len (subject_paths (self h)) ≤ subject_index < 2 ^ 32 → e = IndexError).
Proof.
  intros Hnr%prepare_completes_iff Hfails.
  assert (prepare_trace (self h) (Some (subject_index :: l2))
          = ((if decide (0 ≤ subject_index < 2 ^ 32) then [EvSeed subject_index] else [])
             ++ [EvRaise e])
            ++ prepare_trace (self h) (Some l2)) as Htail.
  { unfold prepare_trace, selected. rewrite fmap_cons. simpl.
    by rewrite (subject_trace_fails _ _ _ Hfails). }
  split; [|split; [|split]].
  - rewrite prepare_outcome, prepare_replay, prepare_trace_app, replay_app, Htail.
    pose proof (replay_not_raises _ 0 (emptied h) Hnr) as Hok.
    destruct (replay (prepare_trace (self h) (Some l1)) 0 (emptied h))
      as [[n|e'] h1]; [|done].
    by destruct (decide (0 ≤ subject_index < 2 ^ 32)).
  - rewrite !prepare_windows, prepare_trace_app, committed_app, Htail by done.
    destruct (decide (0 ≤ subject_index < 2 ^ 32)); simpl; by rewrite app_nil_r.
  - intros Hseed. unfold index_fails in Hfails.
    rewrite decide_False in Hfails by done. by injection Hfails as <-.
  - intros Hpast. unfold index_fails, subject_at in Hfails.
    rewrite decide_True in Hfails by (unfold len in Hpast; lia).
    rewrite getitem_nonneg in Hfails by (unfold len in Hpast; lia).
    rewrite (lookup_ge_None_2 (subject_paths (self h))) in Hfails
      by (unfold len in Hpast; lia).
    by injection Hfails as <-.
Qed.

(** X7. A call reseeds numpy's global generator once per subject index,
    with the index: when it completes, the generator is left seeded with
    the last index of the subset, and is left as it was when the subset
    is empty. *)
Theorem generator_left_at_last_index s h h' :
  prepare_data_for_subset s h = (Ok (), h') →
  np_random_state h'
  = match last (selected (self h) s) with
    | Some subject_index => Some subject_index
    | None => np_random_state h
    end.
Proof.
  intros (Hnr & ->)%prepare_completed.
  by rewrite prepare_heap, prepare_replay, replay_seed, seeds_prepare_trace.
Qed.
End call_more.

(* ===================================================================== *)
(** ** The store, further *)
(* ===================================================================== *)

Section store_more.
Context `{Numeric} `{Nimble} `{!FileSystem}.

(** The windows of the turns of a loop, one turn after the other. *)
Lemma committed_turns {A} (f : A → list event) (g : A → list (result Window))
    (l : list A) :
  ¬ raises (mjoin (f <$> l)) →
  (∀ x, x ∈ l → ¬ raises (f x) → Ok <$> committed (f x) = g x) →
  Ok <$> committed (mjoin (f <$> l)) = mjoin (g <$> l).
Proof.
  induction l as [|x l IH]; [done|].
  rewrite !fmap_cons. simpl.
  intros (Hnr1 & Hnr2)%(not_iff_compat (raises_app _ _))%Decidable.not_or Hturn.
  rewrite committed_app, fmap_app by done.
  rewrite IH by (done || intros y Hy; apply Hturn; by right).
  f_equal. apply Hturn; [by left|done].
Qed.

Lemma window_events_committed size bodies dev subject_index subject trial d starts :
  probably_missing d
    = (λ reason, bool_decide (reason ≠ notMissingGRF)) <$> getMissingGRF subject trial →
  Forall (λ start, 0 ≤ start) starts →
  ¬ raises (window_event size bodies dev subject_index subject d <$> starts) →
  Ok <$> committed (window_event size bodies dev subject_index subject d <$> starts)
  = make_window size bodies dev subject_index subject d
    <$> filter (λ start, ¬ candidate_flagged size subject trial start) starts.
Proof.
  intros Hflags Hstarts.
  induction Hstarts as [|start starts Hstart _ IH]; [done|].
  rewrite fmap_cons. intros Hnr.
  specialize (IH (not_raises_cons _ _ Hnr)).
  remember (window_event size bodies dev subject_index subject d <$> starts) as rest.
  unfold window_event in Hnr |- *.
  rewrite Hflags in Hnr |- *.
  destruct (any_missing _ (range2 start (start + size))) as [b|e] eqn:Hscan.
  - apply any_missing_flagged in Hscan; [|done].
    destruct b.
    + rewrite filter_cons_False by (intros Hn; apply Hn; by apply Hscan). done.
    + rewrite filter_cons_True by (intros ?%Hscan; done).
      destruct (make_window _ _ _ _ _ _ _) as [w|e] eqn:Hmake.
      * change (committed (EvWindow w :: rest)) with (w :: committed rest).
        rewrite !fmap_cons, Hmake. by f_equal.
      * exfalso. apply Hnr. exists e. by left.
  - exfalso. apply Hnr. exists e. by left.
Qed.

Lemma trial_committed d subject_index subject trial :
  let tr := trial_trace (window_size d) (contact_bodies d) (device d) subject_index
              subject (loadAllFrames subject true) trial in
  ¬ raises tr → Ok <$> committed tr = trial_windows d subject_index subject trial.
Proof.
  simpl. unfold trial_trace, trial_windows.
  destruct (pull_trial _ _ _) as [arrays|e] eqn:Hpull.
  - apply pull_trial_inv in Hpull as (_ & _ & _ & _ & _ & _ & Hflags & Hlen & _).
    rewrite candidate_starts_range, Hlen. intros Hnr.
    by apply window_events_committed; [|apply range_nonneg|].
  - intros Hnr. exfalso. apply Hnr. exists e. by left.
Qed.

Lemma subject_committed d subject_index :
  let tr := subject_trace (subject_paths d) (window_size d) (contact_bodies d)
              (device d) subject_index in
  ¬ raises tr → Ok <$> committed tr = subject_windows d subject_index.
Proof.
  simpl. intros Hnr.
  pose proof (subject_trace_completes _ _ _ _ _ Hnr)
    as (Hsi & path & subject & Hpath & Hopen & Hload & Hnr').
  unfold subject_trace, subject_windows, subject_at.
  rewrite decide_True, Hpath by done. simpl. rewrite Hopen, Hload.
  apply committed_turns; [done|].
  intros trial _. apply trial_committed.
Qed.

(** X8. The store of a completed call, in order: the subject indices in
    the order of the subset (an index given twice contributes twice),
    for each its trials in order, and for each trial one window per
    candidate start without a flagged frame, in increasing order of the
    start; consecutive candidate starts are one frame apart. *)
Theorem store_in_subject_trial_start_order s h h' :
  prepare_data_for_subset s h = (Ok (), h') →
  Ok <$> windows (self h')
  = mjoin (subject_windows (self h) <$> selected (self h) s).
Proof.
  intros (Hnr & ->)%prepare_completed.
  rewrite prepare_windows. unfold prepare_trace in *.
  apply committed_turns; [done|].
  intros si _. apply subject_committed.
Qed.

Lemma input_keys_size : size input_keys = 10%nat.
Proof.
  unfold input_keys. rewrite size_list_to_set; [done|].
  apply (bool_decide_unpack _). vm_compute. exact I.
Qed.

Lemma output_keys_size : size output_keys = 7%nat.
Proof.
  unfold output_keys. rewrite size_list_to_set; [done|].
  apply (bool_decide_unpack _). vm_compute. exact I.
Qed.

Lemma numpy_input_dict_dom d start stop : dom (numpy_input_dict d start stop) = input_keys.
Proof.
  unfold numpy_input_dict, input_keys. rewrite !dom_insert_L, dom_empty_L.
  simpl. set_solver.
Qed.

Lemma numpy_output_dict_dom d mass start stop filled :
  dom (numpy_output_dict d mass start stop filled) = output_keys.
Proof.
  unfold numpy_output_dict, output_keys. destruct filled as [[cops torques] forces].
  rewrite !dom_insert_L, dom_empty_L. simpl. set_solver.
Qed.

(** X9. Every window of the store has exactly the ten input fields and
    the seven output fields the extractor writes, no two under one name
    and none under ['contact'], and every tensor of it is on the
    dataset's device. *)
Theorem window_fields_and_device s h w :
  w ∈ windows (self (prepare_data_for_subset s h).2) →
  dom (window_inputs w) = input_keys
  ∧ size (window_inputs w) = 10%nat
  ∧ dom (window_labels w) = output_keys
  ∧ size (window_labels w) = 7%nat
  ∧ window_labels w !! OutputDataKeys.CONTACT = None
  ∧ map_Forall (λ _ t, tensor_device t = device (self h)) (window_inputs w)
  ∧ map_Forall (λ _ t, tensor_device t = device (self h)) (window_labels w).
Proof.
  intros (si & subject & trial & arrays & start & Horigin)%origin_of_window.
  destruct Horigin as [_ _ _ _ _ _ Hmake].
  apply make_window_inv in Hmake as (zeros & filled & _ & _ & Hin & Hout & _).
  assert (dom (window_inputs w) = input_keys) as Hdin
    by (by rewrite Hin, dom_fmap_L, numpy_input_dict_dom).
  assert (dom (window_labels w) = output_keys) as Hdout
    by (by rewrite Hout, dom_fmap_L, numpy_output_dict_dom).
  split; [done|]. split; [by rewrite <- size_dom, Hdin, input_keys_size|].
  split; [done|]. split; [by rewrite <- size_dom, Hdout, output_keys_size|].
  split; [|split].
  - apply not_elem_of_dom. rewrite Hdout. unfold output_keys.
    rewrite elem_of_list_to_set. apply (bool_decide_unpack _). vm_compute. exact I.
  - rewrite Hin. apply map_Forall_fmap. by intros key a _.
  - rewrite Hout. apply map_Forall_fmap. by intros key a _.
Qed.
End store_more.

Section width_facts.
Context `{Numeric}.

Lemma set_cols_ncols {A} (a : ndarray A) lo hi b a' :
  set_cols a lo hi b = Ok a' → ncols a' = ncols a.
Proof. unfold set_cols. destruct (decide _); [|done]. by intros [= <-]. Qed.

Lemma fill_contact_ncols packed mass ws we cis arrays i arrays' :
  fill_contact packed mass ws we cis arrays i = Ok arrays' →
  ncols arrays'.1.1 = ncols arrays.1.1
  ∧ ncols arrays'.1.2 = ncols arrays.1.2
  ∧ ncols arrays'.2 = ncols arrays.2.
Proof.
  unfold fill_contact. destruct (getitem cis i) as [ci|e]; [|done]. simpl.
  destruct (decide (ci >= 0)); [|by intros [= <-]].
  destruct arrays as [[cops torques] forces].
  destruct (set_cols cops _ _ _) as [cops'|e] eqn:Hcops; [|done]. simpl.
  destruct (set_cols torques _ _ _) as [torques'|e] eqn:Htorques; [|done]. simpl.
  destruct (set_cols forces _ _ _) as [forces'|e] eqn:Hforces; [|done]. simpl.
  intros [= <-]. simpl.
  by rewrite (set_cols_ncols _ _ _ _ _ Hcops), (set_cols_ncols _ _ _ _ _ Htorques),
    (set_cols_ncols _ _ _ _ _ Hforces).
Qed.

Lemma fill_loop_ncols packed mass ws we cis positions arrays arrays' :
  foldR (fill_contact packed mass ws we cis) arrays positions = Ok arrays' →
  ncols arrays'.1.1 = ncols arrays.1.1
  ∧ ncols arrays'.1.2 = ncols arrays.1.2
  ∧ ncols arrays'.2 = ncols arrays.2.
Proof.
  induction positions as [|i positions IH] in arrays |- *; simpl.
  - by intros [= <-].
  - destruct (fill_contact packed mass ws we cis arrays i) as [arrays1|e] eqn:Hstep;
      [|done].
    simpl. intros (-> & -> & ->)%IH. by apply fill_contact_ncols in Hstep.
Qed.
End width_facts.

Section shape_more.
Context `{Numeric} `{Nimble} `{!FileSystem}.

(** X10. In every window of the store the centre-of-pressure, torque and
    force outputs have three columns per registry entry, whichever
    subject the window was built for and however many contact bodies
    that subject records. *)
Theorem contact_outputs_width s h w key :
  w ∈ windows (self (prepare_data_for_subset s h).2) →
  key ∈ [ OutputDataKeys.GROUND_CONTACT_COPS_IN_ROOT_FRAME;
          OutputDataKeys.GROUND_CONTACT_TORQUES_IN_ROOT_FRAME;
          OutputDataKeys.GROUND_CONTACT_FORCES_IN_ROOT_FRAME ] →
  ∃ t, window_labels w !! key = Some t
       ∧ ncols (tensor_data t) = (3 * length (contact_bodies (self h)))%nat.
Proof.
  intros (si & subject & trial & arrays & start & Horigin)%origin_of_window Hkey.
  destruct Horigin as [_ _ _ _ _ _ Hmake].
  apply make_window_inv in Hmake as (zeros & filled & Hzeros & Hfill & _ & Hout & _).
  apply np_zeros_shaped in Hzeros as (_ & _ & _ & _ & Hcols & _).
  apply fill_loop_ncols in Hfill as (Hc & Ht & Hf).
  destruct filled as [[cops torques] forces].
  change (ncols cops = ncols zeros) in Hc.
  change (ncols torques = ncols zeros) in Ht.
  change (ncols forces = ncols zeros) in Hf.
  assert (Z.to_nat (3 * len (contact_bodies (self h)))
          = (3 * length (contact_bodies (self h)))%nat) as Hwidth
    by (unfold len; lia).
  rewrite Hout.
  repeat (apply elem_of_cons in Hkey as [->|Hkey]);
    [| | |by apply elem_of_nil in Hkey].
  - exists (torch_tensor cops (device (self h))). split; [done|].
    rewrite <- Hwidth, <- Hcols. exact Hc.
  - exists (torch_tensor torques (device (self h))). split; [done|].
    rewrite <- Hwidth, <- Hcols. exact Ht.
  - exists (torch_tensor forces (device (self h))). split; [done|].
    rewrite <- Hwidth, <- Hcols. exact Hf.
Qed.

(** X11. Reading the store by position: an index from [-len] up to
    [len - 1] gives the window at that position, a negative one counting
    from the end, and any other index raises [IndexError]. *)
Theorem getitem_within_length d index :
  (- __len__ d ≤ index < __len__ d →
   ∃ w, __getitem__ d index = Ok w
        ∧ windows d !! Z.to_nat (index mod __len__ d) = Some w)
  ∧ (¬ (- __len__ d ≤ index < __len__ d) → __getitem__ d index = Raise IndexError).
Proof.
  unfold __getitem__, __len__, getitem. split.
  - intros Hindex.
    assert (index mod len (windows d)
            = if decide (index < 0) then index + len (windows d) else index) as Hpos.
    { destruct (decide (index < 0)).
      - symmetry. apply (Z.mod_unique_pos _ _ (-1)); lia.
      - by apply Z.mod_small; lia. }
    rewrite Hpos. rewrite (decide_False (P := _ < 0)) by (destruct (decide (index < 0)); lia).
    destruct (lookup_lt_is_Some_2 (windows d)
                (Z.to_nat (if decide (index < 0) then index + len (windows d) else index)))
      as [w Hw].
    { unfold len in *. destruct (decide (index < 0)); lia. }
    exists w. by rewrite Hw.
  - intros Hout.
    destruct (decide (index < 0)).
    + destruct (decide (index + len (windows d) < 0)); [done|]. lia.
    + rewrite decide_False by lia.
      destruct (windows d !! Z.to_nat index) eqn:Hw; [|done].
      apply lookup_lt_Some in Hw. unfold len in *. lia.
Qed.
End shape_more.

(* ===================================================================== *)
(** ** Calls that complete *)
(* ===================================================================== *)

Section completion_facts.
Context `{Numeric} `{Nimble} `{!FileSystem}.

Lemma getitem_inside {A} (l : list A) i : 0 ≤ i < len l → ∃ x, getitem l i = Ok x.
Proof.
  intros Hi. rewrite getitem_nonneg by lia.
  destruct (lookup_lt_is_Some_2 l (Z.to_nat i)) as [x Hx]; [unfold len in Hi; lia|].
  exists x. by rewrite Hx.
Qed.

Lemma getitem_last {A} (l : list A) : l ≠ [] → ∃ x, getitem l (-1) = Ok x.
Proof.
  intros Hl. unfold getitem. rewrite (decide_True (P := -1 < 0)) by lia.
  assert (0 < len l) by (destruct l; [done|unfold len; simpl; lia]).
  rewrite decide_False by lia.
  destruct (lookup_lt_is_Some_2 l (Z.to_nat (-1 + len l))) as [x Hx];
    [unfold len in *; lia|].
  exists x. by rewrite Hx.
Qed.

(** The scan for a flagged frame does not raise on frames that have a
    flag. *)
Lemma any_missing_total flags frames :
  Forall (λ i, 0 ≤ i < len flags) frames → ∃ b, any_missing flags frames = Ok b.
Proof.
  induction 1 as [|i frames Hi _ (b & IH)]; simpl; [by exists false|].
  destruct (getitem_inside flags i Hi) as (flag & ->). simpl.
  destruct flag; [by exists true|by exists b].
Qed.

Lemma pull_trial_ready subject trial :
  0 ≤ trial → trial_ready subject trial →
  ∃ d, pull_trial subject (loadAllFrames subject true) trial = Ok d.
Proof.
  intros Htrial Hready. unfold trial_ready in Hready. unfold pull_trial.
  rewrite getitem_nonneg by done.
  destruct (getTrials _ !! Z.to_nat trial) as [t|]; [|done]. simpl.
  destruct Hready as (Hpasses & _).
  destruct (getitem_inside (getPasses t) 0) as (p_in & ->).
  { destruct (getPasses t); [done|]. unfold len. simpl. lia. }
  simpl. destruct (getitem_last (getPasses t) Hpasses) as (p_out & ->). simpl. eauto.
Qed.

(** [a[:, lo:hi] = b] does not raise when [b] has the rows of [a] and the
    width of the column range. *)
Lemma set_cols_fits {A} (a : ndarray A) lo hi b :
  nrows b = nrows a → 0 ≤ lo → lo ≤ hi → hi ≤ Z.of_nat (ncols a) →
  Z.of_nat (ncols b) = hi - lo →
  ∃ a', set_cols a lo hi b = Ok a'.
Proof.
  intros Hrows Hlo Hhi Hfit Hcols. unfold set_cols.
  assert (slice_width (ncols a) lo hi = Z.to_nat (hi - lo)) as ->.
  { unfold slice_width. by rewrite !clamp_inside by lia. }
  rewrite decide_True; [eauto|]. split; left; [done|lia].
Qed.

Lemma fill_contact_fits packed mass ws we cis (m n : nat) arrays i :
  rectangular packed →
  0 ≤ i < Z.of_nat n →
  (let '(cops, torques, forces) := arrays in
   contact_shaped m n cops ∧ contact_shaped m n torques ∧ contact_shaped m n forces) →
  (∃ ci, getitem cis i = Ok ci ∧ (0 ≤ ci → 9 * ci + 9 ≤ Z.of_nat (ncols packed))) →
  0 ≤ ws → ws ≤ we → we ≤ Z.of_nat (nrows packed) → Z.to_nat (we - ws) = m →
  ∃ arrays', fill_contact packed mass ws we cis arrays i = Ok arrays'.
Proof.
  intros Hpacked Hi Hshaped (ci & Hci & Hfit) Hws Hwe Hrows Hm.
  unfold fill_contact. rewrite Hci. simpl.
  destruct (decide (ci >= 0)) as [Hpos|]; [|eauto].
  destruct arrays as [[cops torques] forces].
  destruct Hshaped as ((Hc1 & Hc2 & Hc3) & (Ht1 & Ht2 & Ht3) & (Hf1 & Hf2 & Hf3)).
  specialize (Hfit ltac:(lia)).
  destruct (slice2_shape ws we (9 * ci) (9 * ci + 3) packed Hpacked) as (_ & Hn1 & Hk1).
  destruct (slice2_shape ws we (9 * ci + 3) (9 * ci + 6) packed Hpacked) as (_ & Hn2 & Hk2).
  destruct (slice2_shape ws we (9 * ci + 6) (9 * ci + 9) packed Hpacked) as (_ & Hn3 & Hk3).
  specialize (Hn1 Hws Hwe Hrows). specialize (Hn2 Hws Hwe Hrows).
  specialize (Hn3 Hws Hwe Hrows).
  specialize (Hk1 ltac:(lia) ltac:(lia) ltac:(lia)).
  specialize (Hk2 ltac:(lia) ltac:(lia) ltac:(lia)).
  specialize (Hk3 ltac:(lia) ltac:(lia) ltac:(lia)).
  destruct (set_cols_fits cops (3 * i) (3 * i + 3)
              (slice2 ws we (9 * ci) (9 * ci + 3) packed)) as (cops' & ->);
    [congruence|lia|lia|rewrite Hc2; lia|lia|].
  simpl.
  destruct (set_cols_fits torques (3 * i) (3 * i + 3)
              (div_scalar (slice2 ws we (9 * ci + 3) (9 * ci + 6) packed) mass))
    as (torques' & ->);
    [unfold div_scalar; rewrite nrows_nd_map; congruence|lia|lia|rewrite Ht2; lia
    |unfold div_scalar; rewrite ncols_nd_map; lia|].
  simpl.
  destruct (set_cols_fits forces (3 * i) (3 * i + 3)
              (div_scalar (slice2 ws we (9 * ci + 6) (9 * ci + 9) packed) mass))
    as (forces' & ->);
    [unfold div_scalar; rewrite nrows_nd_map; congruence|lia|lia|rewrite Hf2; lia
    |unfold div_scalar; rewrite ncols_nd_map; lia|].
  simpl. eauto.
Qed.

Lemma fill_loop_fits packed mass ws we cis (m n : nat) positions arrays :
  rectangular packed →
  Forall (λ i, 0 ≤ i < Z.of_nat n
               ∧ ∃ ci, getitem cis i = Ok ci
                       ∧ (0 ≤ ci → 9 * ci + 9 ≤ Z.of_nat (ncols packed))) positions →
  (let '(cops, torques, forces) := arrays in
   contact_shaped m n cops ∧ contact_shaped m n torques ∧ contact_shaped m n forces) →
  0 ≤ ws → ws ≤ we → we ≤ Z.of_nat (nrows packed) → Z.to_nat (we - ws) = m →
  ∃ arrays', foldR (fill_contact packed mass ws we cis) arrays positions = Ok arrays'.
Proof.
  intros Hpacked Hpos Hshaped Hws Hwe Hrows Hm. revert arrays Hshaped.
  induction Hpos as [|i positions (Hi & Hci) _ IH]; intros arrays Hshaped; simpl;
    [eauto|].
  destruct (fill_contact_fits _ mass _ _ _ m n arrays i
              Hpacked Hi Hshaped Hci Hws Hwe Hrows Hm) as (arrays1 & Hstep).
  rewrite Hstep. simpl. apply IH.
  by destruct (fill_contact_spec _ _ _ _ _ m n _ _ _ Hstep Hpacked Hi Hshaped) as (? & _).
Qed.

(** A window within a trial whose pulled arrays keep the recording
    contract is built without raising. *)
Lemma make_window_fits size bodies dev subject_index subject d start frames :
  0 ≤ size →
  device_error dev = None →
  arrays_well_formed frames (length (getGroundForceBodies subject)) d →
  0 ≤ start → start + size ≤ frames →
  ∃ w, make_window size bodies dev subject_index subject d start = Ok w.
Proof.
  intros Hsize Hdev (Hall & Hpacked) Hstart Hfit. unfold make_window.
  unfold torch_tensor_returns. rewrite Hdev.
  replace (start + size - start) with size by lia.
  destruct (np_zeros size (3 * len bodies)) as [zeros|e] eqn:Hzeros; cycle 1.
  { unfold np_zeros in Hzeros. rewrite decide_False in Hzeros by (unfold len; lia). done. }
  simpl. apply np_zeros_shaped in Hzeros as (_ & _ & _ & Hrect & Hcols & Hrows).
  assert (rectangular (ground_contact_cop_torque_force_in_root_frame d)
          ∧ Z.of_nat (nrows (ground_contact_cop_torque_force_in_root_frame d)) = frames)
    as (Hprect & Hprows).
  { rewrite Forall_forall in Hall. apply Hall.
    unfold trial_arrays_list. do 10 right. by left. }
  assert (contact_shaped (Z.to_nat size) (length bodies) zeros) as Hshaped.
  { split; [done|]. split; [|done]. rewrite Hcols. unfold len. lia. }
  destruct (fill_loop_fits (ground_contact_cop_torque_force_in_root_frame d)
              (getMassKg subject) start (start + size)
              (contact_indices_of bodies subject) (Z.to_nat size) (length bodies)
              (range (len bodies)) (zeros, zeros, zeros)) as (filled & ->);
    [done| |done|lia|lia|lia|lia|simpl; eauto].
  apply Forall_forall. intros i Hi%elem_of_seqZ. unfold len in Hi.
  split; [lia|].
  destruct (lookup_lt_is_Some_2 bodies (Z.to_nat i)) as [name Hname]; [lia|].
  exists (index_or_minus_one name (getGroundForceBodies subject)). split.
  - pose proof (getitem_fmap_lookup
                  (λ body, index_or_minus_one body (getGroundForceBodies subject))
                  bodies (Z.to_nat i) name Hname) as Hget.
    by rewrite Z2Nat.id in Hget by lia.
  - intros Hpos.
    destruct (decide (name ∈ getGroundForceBodies subject)) as [Hin|Hnin].
    + destruct (index_or_minus_one_present _ _ Hin) as (c & -> & _ & Hlt).
      rewrite Hpacked. lia.
    + rewrite index_or_minus_one_absent in Hpos by done. lia.
Qed.

Lemma window_event_fits size bodies dev subject_index subject d start frames e :
  0 ≤ size →
  device_error dev = None →
  arrays_well_formed frames (length (getGroundForceBodies subject)) d →
  0 ≤ start → start + size ≤ frames → frames ≤ len (probably_missing d) →
  window_event size bodies dev subject_index subject d start ≠ EvRaise e.
Proof.
  intros Hsize Hdev Harrays Hstart Hfit Hflags. unfold window_event.
  destruct (any_missing_total (probably_missing d) (range2 start (start + size)))
    as (b & ->).
  { apply Forall_forall. intros i Hi%elem_of_seqZ. lia. }
  destruct b; [done|].
  by destruct (make_window_fits size bodies dev subject_index subject d start frames)
    as (w & ->).
Qed.

Lemma trial_trace_fits size bodies dev subject_index subject trial :
  0 ≤ size → device_error dev = None →
  subject_well_formed subject → subject_ready subject →
  0 ≤ trial < getNumTrials subject →
  ¬ raises (trial_trace size bodies dev subject_index subject
              (loadAllFrames subject true) trial).
Proof.
  intros Hsize Hdev Hwf Hready Htrial.
  assert (trial_ready subject trial) as Htr.
  { unfold subject_ready in Hready. rewrite Forall_forall in Hready.
    apply Hready, elem_of_seqZ. lia. }
  destruct (pull_trial_ready subject trial) as (d & Hpull); [lia|done|].
  unfold trial_trace. rewrite Hpull.
  pose proof (pull_trial_well_formed _ _ _ Hwf Htrial Hpull) as Harrays.
  apply pull_trial_inv in Hpull as (t & _ & _ & Ht & _ & _ & Hflags & Hlen & _).
  apply getitem_nonneg_Ok in Ht; [|lia].
  unfold trial_ready in Htr. rewrite Ht in Htr. destruct Htr as (_ & Hreasons).
  intros (e & (start & Hev & Hstart%elem_of_seqZ)%list_elem_of_fmap).
  symmetry in Hev. revert Hev.
  apply (window_event_fits _ _ _ _ _ _ _ (getTrialLength subject trial));
    [done|done|done|lia|lia|].
  rewrite Hflags. unfold len in *. by rewrite length_fmap.
Qed.

Lemma subject_trace_fits d subject_index :
  0 ≤ window_size d → device_error (device d) = None →
  index_ready d subject_index →
  ¬ raises (subject_trace (subject_paths d) (window_size d) (contact_bodies d)
              (device d) subject_index).
Proof.
  intros Hsize Hdev (Hsi & Hseed & Hsubject). unfold subject_trace, subject_at in *.
  rewrite decide_True by lia.
  destruct (getitem (subject_paths d) subject_index) as [path|e]; [|done].
  simpl in Hsubject.
  destruct (SubjectOnDisk_open path) as [subject|e]; [|done].
  destruct Hsubject as (-> & Hwf & Hready).
  apply (not_iff_compat (raises_app [EvSeed subject_index] _)).
  intros [(e & He)|Hr].
  - by apply list_elem_of_singleton in He.
  - apply raises_mjoin, Exists_exists in Hr as (tr & Htr & Hr).
    apply list_elem_of_fmap in Htr as (trial & -> & Htrial%elem_of_seqZ).
    revert Hr. apply trial_trace_fits; [done..|lia].
Qed.

(** X12. A call completes, without raising, when the window size is not
    negative, torch can put a tensor on the dataset's device, and every
    subject index the call walks over is a position of [subject_paths]
    whose recording opens, loads its frames without raising, keeps the
    recording library's contract, and has for each trial a header entry
    with at least one pass and a missing-ground-truth reason for every
    frame. *)
Theorem ready_call_completes s h :
  0 ≤ window_size (self h) →
  device_error (device (self h)) = None →
  Forall (index_ready (self h)) (selected (self h) s) →
  ∃ h', prepare_data_for_subset s h = (Ok (), h').
Proof.
  intros Hsize Hdev Hready.
  exists (prepare_data_for_subset s h).2.
  assert ((prepare_data_for_subset s h).1 = Ok ()) as Hok.
  { apply prepare_completes_iff. unfold prepare_trace. apply not_raises_mjoin.
    rewrite Forall_fmap. eapply Forall_impl; [exact Hready|].
    intros si Hsi. by apply subject_trace_fits. }
  destruct (prepare_data_for_subset s h) as [r h']. simpl in *. by rewrite Hok.
Qed.
End completion_facts.

(* ===================================================================== *)
(** ** Construction and the flags *)
(* ===================================================================== *)

Section flag_facts.
Context `{Numeric} `{Nimble} `{!FileSystem}.

(** A call reads the subject paths, the window size, the registry and
    the device of the object, and nothing else of it. *)
Lemma prepare_reads s h1 h2 :
  subject_paths (self h1) = subject_paths (self h2) →
  window_size (self h1) = window_size (self h2) →
  contact_bodies (self h1) = contact_bodies (self h2) →
  device (self h1) = device (self h2) →
  (prepare_data_for_subset s h1).1 = (prepare_data_for_subset s h2).1
  ∧ windows (self (prepare_data_for_subset s h1).2)
    = windows (self (prepare_data_for_subset s h2).2).
Proof.
  intros Hp Hs Hb Hd.
  assert (prepare_trace (self h1) s = prepare_trace (self h2) s) as Htr
    by (unfold prepare_trace, selected; by rewrite Hp, Hs, Hb, Hd).
  split.
  - rewrite !prepare_outcome, !prepare_replay, Htr.
    by rewrite (replay_outcome_heap _ _ (emptied h1) (emptied h2)).
  - by rewrite !prepare_windows, Htr.
Qed.

(** X13. [skip_loading_skeletons] changes nothing but the skeletons: when
    construction with the skeletons succeeds, construction without them
    succeeds too, with no skeleton and no body handles and the same
    subject paths, registry and dimensions, and every call on either
    object ends the same way with the same store. *)
Theorem skipping_skeletons_keeps_windows data_path size geo dev testing d :
  __init__ data_path size geo dev testing false = Ok d →
  ∃ d',
    __init__ data_path size geo dev testing true = Ok d'
    ∧ skeletons d' = [] ∧ skeletons_contact_bodies d' = []
    ∧ subject_paths d' = subject_paths d
    ∧ contact_bodies d' = contact_bodies d
    ∧ num_dofs d' = num_dofs d ∧ num_joints d' = num_joints d
    ∧ ∀ s state,
        let run := λ object,
          prepare_data_for_subset s {| self := object; np_random_state := state |} in
        (run d').1 = (run d).1
        ∧ windows (self (run d').2) = windows (self (run d).2).
Proof.
  unfold __init__. intros Hinit.
  destruct (discover data_path) as [paths|e]; [|done]. simpl in *.
  destruct (if decide (len paths > 0) then _ else _) as [[[dofs joints] bodies]|e];
    [|done].
  simpl in *.
  destruct (mapM _ _) as [loaded|e]; [|done].
  simpl in Hinit. injection Hinit as <-.
  eexists. split; [reflexivity|]. simpl.
  repeat (split; [done|]).
  intros s state. simpl. by apply prepare_reads.
Qed.

Lemma mapM_result_total {A B} (f : A → result B) (l : list A) :
  Forall (λ x, ∃ y, f x = Ok y) l → ∃ ys, mapM f l = Ok ys.
Proof.
  induction 1 as [|x l (y & Hx) _ (ys & IH)]; simpl; [by eexists|].
  rewrite Hx. simpl. rewrite IH. simpl. by eexists.
Qed.

(** X14. Construction succeeds exactly when the path is a directory or
    ends in ['.b3d'], the first discovered recording (if any) opens, and,
    unless skeleton loading is skipped, for every kept subject path the
    recording opens, [readSkel] returns, and [getBodyNode] returns on
    what it returned for every name of the registry.  With
    [skip_loading_skeletons] a recording after the first that does not
    open is met by the call that walks over it, not by the constructor. *)
Theorem construction_succeeds_iff data_path size geo dev testing skip :
  (∃ d, __init__ data_path size geo dev testing skip = Ok d)
  ↔ ∃ paths registry,
      discover data_path = Ok paths
      ∧ match paths with
        | [] => registry = []
        | first :: _ =>
            ∃ subject, SubjectOnDisk_open first = Ok subject
                       ∧ registry = harmonize (getGroundForceBodies subject)
        end
      ∧ (skip = false →
         Forall (λ path,
                   ∃ subject skeleton,
                     SubjectOnDisk_open path = Ok subject
                     ∧ readSkel subject (getNumProcessingPasses subject - 1) geo
                       = Ok skeleton
                     ∧ Forall (λ body, ∃ handle, getBodyNode skeleton body = Ok handle)
                         registry)
           (if testing then take 2 paths else paths)).
Proof.
  split.
  - intros (d & Hinit).
    pose proof (init_loaded _ _ _ _ _ _ _ Hinit) as (loaded & _ & _ & Hloaded).
    apply init_inv in Hinit as (paths & Hdisc & _ & _ & Hpaths & Hfirst).
    exists paths, (contact_bodies d). split; [done|]. split.
    + destruct paths as [|first paths']; [done|].
      destruct Hfirst as (subject & Hopen & Hbodies). eauto.
    + intros ->. rewrite slice_to_take in Hpaths by done.
      change (Z.to_nat 2) with 2%nat in Hpaths. rewrite <- Hpaths.
      eapply Forall2_Forall_l; [exact Hloaded|]. apply Forall_forall.
      intros sk _ path. unfold load_skeleton.
      destruct (SubjectOnDisk_open path) as [subject|e]; [|done]. simpl.
      destruct (readSkel _ _ _) as [skeleton|e] eqn:Hskel; [|done]. simpl.
      destruct (mapM (getBodyNode skeleton) (contact_bodies d)) as [handles|e] eqn:Hmap;
        [|done].
      intros _. exists subject, skeleton. split; [done|]. split; [done|].
      apply mapM_result_Ok in Hmap.
      eapply Forall2_Forall_l; [exact Hmap|]. apply Forall_forall. eauto.
  - intros (paths & registry & Hdisc & Hfirst & Hall).
    unfold __init__. rewrite Hdisc. simpl.
    assert (∃ dofs joints,
              (if decide (len paths > 0) then
                 path ← getitem paths 0;
                 subject ← SubjectOnDisk_open path;
                 Ok (Some (getNumDofs subject), Some (getNumJoints subject),
                     harmonize (getGroundForceBodies subject))
               else Ok (None, None, [])) = Ok (dofs, joints, registry))
      as (dofs & joints & ->).
    { destruct paths as [|first paths'].
      - rewrite decide_False by (unfold len; simpl; lia). subst registry. eauto.
      - rewrite decide_True by (unfold len; simpl; lia).
        rewrite getitem_nonneg by done. simpl.
        destruct Hfirst as (subject & -> & ->). simpl. eauto. }
    simpl. destruct skip; simpl; [eauto|].
    destruct (mapM_result_total (load_skeleton geo registry)
                (if testing then slice_to 2 paths else paths)) as (loaded & ->);
      [|simpl; eauto].
    rewrite slice_to_take by done. change (Z.to_nat 2) with 2%nat.
    eapply Forall_impl; [exact (Hall eq_refl)|]. simpl.
    intros path (subject & skeleton & Hopen & Hskel & Hhandles).
    unfold load_skeleton. rewrite Hopen. simpl. rewrite Hskel. simpl.
    destruct (mapM_result_total (getBodyNode skeleton) registry Hhandles)
      as (handles & ->).
    simpl. eauto.
Qed.

Lemma filter_no_recording (files : list string) :
  Forall (λ file, endswith file ".b3d" = false) files →
  filter (λ file, endswith file ".b3d") files = [].
Proof.
  induction 1 as [|file files Hfile _ IH]; [done|].
  rewrite filter_cons_False; [done|]. rewrite Hfile. by intros [].
Qed.

Lemma discover_nothing data_path :
  os_path_isdir data_path = true →
  Forall (λ '(root, dirs, files), Forall (λ file, endswith file ".b3d" = false) files)
    (os_walk data_path) →
  discover data_path = Ok [].
Proof.
  intros Hdir Hwalk. unfold discover. rewrite Hdir. f_equal.
  induction Hwalk as [|[[root dirs] files] walk Hfiles _ IH]; [done|].
  simpl. by rewrite filter_no_recording, IH.
Qed.

(** X15. A folder without any ['.b3d'] file gives a dataset without
    subjects: construction succeeds whatever the flags, no recording is
    opened, the dimensions are never set, the registry and the skeletons
    are empty, and a call over all subjects completes and changes
    nothing. *)
Theorem folder_without_recordings_gives_empty_dataset
    data_path size geo dev testing skip :
  os_path_isdir data_path = true →
  Forall (λ '(root, dirs, files), Forall (λ file, endswith file ".b3d" = false) files)
    (os_walk data_path) →
  ∃ d,
    __init__ data_path size geo dev testing skip = Ok d
    ∧ subject_paths d = []
    ∧ num_dofs d = None ∧ num_joints d = None
    ∧ contact_bodies d = []
    ∧ skeletons d = []
    ∧ ∀ state,
        let h := {| self := d; np_random_state := state |} in
        prepare_data_for_subset None h = (Ok (), h).
Proof.
  intros Hdir Hwalk. unfold __init__.
  rewrite (discover_nothing _ Hdir Hwalk). simpl.
  destruct testing, skip; simpl; eexists; (split; [reflexivity|]); simpl;
    repeat (split; [done|]); done.
Qed.
End flag_facts.

(* ===================================================================== *)
(** ** The example recording, run *)
(* ===================================================================== *)

#[local] Existing Instances ieee_numeric example_nimble Example.example_fs.

Import Example.

(** The heap before the call, the same heap with a window already in the
    store, and the heap after the call. *)
#[local] Abbreviation example_heap := (initial_heap example_dataset).
#[local] Abbreviation example_heap_with_window :=
  (initial_heap (with_windows [window_at 0] example_dataset)).
#[local] Abbreviation prepared := ((prepare_data_for_subset None example_heap).2).

Example example_construction :
  __init__ "data" 5 "geo" "cpu" false false = Ok example_dataset.
Proof. reflexivity. Qed.

(** Subject A lists ["calcn_l"; "calcn_r"; "pelvis"]: the registry is
    ["calcn_l"; "calcn_r"], six columns per per-body output. *)
Example example_registry :
  harmonize ["calcn_l"; "calcn_r"; "pelvis"] = ["calcn_l"; "calcn_r"].
Proof. reflexivity. Qed.

(** Ten frames, windows of five, frames 3 and 7 flagged: each of the six
    candidate starts has a flagged frame in its range. *)
Example example_all_flagged :
  filter (candidate_flagged 5 subject_a 0) (range (num_candidates 5 10))
  = [0; 1; 2; 3; 4; 5].
Proof. vm_compute. reflexivity. Qed.

(** Four windows are stored and six candidates are skipped, out of ten. *)
Example example_run :
  (prepare_data_for_subset_counting None example_heap).1 = Ok 6
  ∧ __len__ (self prepared) = 4
  ∧ total_candidates example_dataset None = 10
  ∧ window_subject_index <$> windows (self prepared) = [0; 0; 1; 1]
  ∧ np_random_state prepared = Some 1.
Proof. vm_compute. repeat split; reflexivity. Qed.

(** 70 kg and a recorded force of 700 N: the stored force is 10, and a
    recorded torque of 35 is stored as 0.5; the centre of pressure 0.25
    is stored as it is. *)
Example example_mass_division :
  slot 0 <$> window_labels (window_at 0) !! OutputDataKeys.GROUND_CONTACT_FORCES_IN_ROOT_FRAME
  = Some (NdArray 3 (replicate 5 (replicate 3 10%float)))
  ∧ slot 0 <$> window_labels (window_at 0)
                 !! OutputDataKeys.GROUND_CONTACT_TORQUES_IN_ROOT_FRAME
    = Some (NdArray 3 (replicate 5 (replicate 3 0.5%float)))
  ∧ slot 0 <$> window_labels (window_at 0)
                 !! OutputDataKeys.GROUND_CONTACT_COPS_IN_ROOT_FRAME
    = Some (NdArray 3 (replicate 5 (replicate 3 0.25%float))).
Proof. vm_compute. repeat split; reflexivity. Qed.

(** Subject B does not record ["calcn_l"]: its slot is zero; ["calcn_r"]
    is the first raw body of B, stored in registry slot 1. *)
Example example_absent_body :
  tensor_data <$> window_labels (window_at 2)
                    !! OutputDataKeys.GROUND_CONTACT_FORCES_IN_ROOT_FRAME
  = Some (NdArray 6 (replicate 5 [0; 0; 0; 2; 2; 2]%float)).
Proof. vm_compute. reflexivity. Qed.

(* ===================================================================== *)
(** ** The stated properties on the example recording *)
(* ===================================================================== *)

(** The example recordings keep the recording library's contract. *)
Ltac example_well_formed :=
  let path := fresh "path" in
  let subject := fresh "subject" in
  let Hopen := fresh "Hopen" in
  intros path subject Hopen; simpl in Hopen;
  repeat case_decide; simplify_eq;
  apply (@bool_decide_unpack _ (subject_well_formed_dec _)); vm_compute; exact I.

(** The window at a position below the length of a store is in the store. *)
Lemma default_lookup_elem_of {A} (d : A) (l : list A) (i : nat) :
  (i <? length l)%nat = true → default d (l !! i) ∈ l.
Proof.
  intros Hi%Nat.ltb_lt. destruct (lookup_lt_is_Some_2 l i Hi) as [x Hx].
  rewrite Hx. simpl. by eapply list_elem_of_lookup_2.
Qed.

Lemma pair_from_fst {A B} (p : A * B) (a : A) : p.1 = a → p = (a, p.2).
Proof. destruct p. simpl. by intros ->. Qed.

Ltac example_window :=
  apply default_lookup_elem_of; vm_compute; reflexivity.

Lemma windows_are_whole_valid_runs_example :
  (∀ path subject, SubjectOnDisk_open path = Ok subject → subject_well_formed subject)
  ∧ window_at 0 ∈ windows (self prepared)
  ∧ ∃ subject_index subject trial arrays start,
    origin (self example_heap) None (window_at 0) subject_index subject trial arrays start
    ∧ map_Forall (λ _ t, Z.of_nat (nrows (tensor_data t)) = window_size (self example_heap))
        (window_inputs (window_at 0))
    ∧ map_Forall (λ _ t, Z.of_nat (nrows (tensor_data t)) = window_size (self example_heap))
        (window_labels (window_at 0))
    ∧ (∀ i, start ≤ i < start + window_size (self example_heap) →
            getMissingGRF subject trial !! Z.to_nat i = Some notMissingGRF)
    ∧ 0 ≤ start
    ∧ start + window_size (self example_heap) ≤ getTrialLength subject trial.
Proof.
  assert (∀ path subject,
            SubjectOnDisk_open path = Ok subject → subject_well_formed subject) as Hwf
    by example_well_formed.
  assert (window_at 0 ∈ windows (self prepared))
    as Hw by example_window.
  split; [exact Hwf|]. split; [exact Hw|].
  exact (windows_are_whole_valid_runs None example_heap (window_at 0) Hwf Hw).
Defined.

Lemma outputs_divided_by_mass_example :
  (∀ path subject, SubjectOnDisk_open path = Ok subject → subject_well_formed subject)
  ∧ window_at 2 ∈ windows (self prepared)
  ∧ ∃ subject_index subject trial arrays start t p_in p_out,
    origin (self example_heap) None (window_at 2) subject_index subject trial arrays start
    ∧ getitem (getTrials (loadAllFrames subject true)) trial = Ok t
    ∧ getitem (getPasses t) 0 = Ok p_in
    ∧ getitem (getPasses t) (-1) = Ok p_out
    ∧ let size := window_size (self example_heap) in
      let mass := getMassKg subject in
      let per_mass := λ x, fdiv x mass in
      let unscaled := λ x : float64, x in
      let raw_bodies := getGroundForceBodies subject in
      let packed := getGroundBodyCopTorqueForceInRootFrame p_out in
      let output := λ key f raw,
        field_from (window_labels (window_at 2)) key size (nrows raw) f raw start 0 in
      let input := λ key raw,
        field_from (window_inputs (window_at 2)) key size (nrows raw) unscaled raw start 0 in
      let input_columns := λ key raw (lo hi : Z),
        field_from (window_inputs (window_at 2)) key size (slice_width (nrows raw) lo hi)
          unscaled raw start (Z.to_nat lo) in
      output OutputDataKeys.GROUND_CONTACT_WRENCHES_IN_ROOT_FRAME per_mass
        (getGroundBodyWrenchesInRootFrame p_out)
      ∧ (∀ (i : nat) name,
           contact_bodies (self example_heap) !! i = Some name → name ∈ raw_bodies →
           ∃ (c : nat) cops torques forces,
             raw_bodies !! c = Some name
             ∧ (∀ c' : nat, (c' < c)%nat → raw_bodies !! c' ≠ Some name)
             ∧ window_labels (window_at 2) !! OutputDataKeys.GROUND_CONTACT_COPS_IN_ROOT_FRAME
               = Some cops
             ∧ window_labels (window_at 2) !! OutputDataKeys.GROUND_CONTACT_TORQUES_IN_ROOT_FRAME
               = Some torques
             ∧ window_labels (window_at 2) !! OutputDataKeys.GROUND_CONTACT_FORCES_IN_ROOT_FRAME
               = Some forces
             ∧ array_from size 3 unscaled packed start (9 * c)
                 (slot (Z.of_nat i) cops)
             ∧ array_from size 3 per_mass packed start (9 * c + 3)
                 (slot (Z.of_nat i) torques)
             ∧ array_from size 3 per_mass packed start (9 * c + 6)
                 (slot (Z.of_nat i) forces))
      ∧ output OutputDataKeys.TAU unscaled (getTaus p_out)
      ∧ output OutputDataKeys.RESIDUAL_WRENCH_IN_ROOT_FRAME unscaled
          (getResidualWrenchInRootFrame p_out)
      ∧ output OutputDataKeys.COM_ACC_IN_ROOT_FRAME unscaled (getComAccsInRootFrame p_out)
      ∧ input InputDataKeys.POS (getPoses p_in)
      ∧ input InputDataKeys.VEL (getVels p_in)
      ∧ input InputDataKeys.ACC (getAccs p_in)
      ∧ input InputDataKeys.JOINT_CENTERS_IN_ROOT_FRAME (getJointCentersInRootFrame p_in)
      ∧ input InputDataKeys.ROOT_POS_HISTORY_IN_ROOT_FRAME
          (getRootPosHistoryInRootFrame p_in)
      ∧ input InputDataKeys.ROOT_EULER_HISTORY_IN_ROOT_FRAME
          (getRootEulerHistoryInRootFrame p_in)
      ∧ input_columns InputDataKeys.ROOT_ANGULAR_VEL_IN_ROOT_FRAME
          (getRootSpatialVelInRootFrame p_in) 0 3
      ∧ input_columns InputDataKeys.ROOT_LINEAR_VEL_IN_ROOT_FRAME
          (getRootSpatialVelInRootFrame p_in) 3 6
      ∧ input_columns InputDataKeys.ROOT_ANGULAR_ACC_IN_ROOT_FRAME
          (getRootSpatialAccInRootFrame p_in) 0 3
      ∧ input_columns InputDataKeys.ROOT_LINEAR_ACC_IN_ROOT_FRAME
          (getRootSpatialAccInRootFrame p_in) 3 6.
Proof.
  assert (∀ path subject,
            SubjectOnDisk_open path = Ok subject → subject_well_formed subject) as Hwf
    by example_well_formed.
  assert (window_at 2 ∈ windows (self prepared))
    as Hw by example_window.
  split; [exact Hwf|]. split; [exact Hw|].
  exact (outputs_divided_by_mass None example_heap (window_at 2) Hwf Hw).
Defined.

Lemma registry_from_first_subject_example :
  __init__ "data" 5 "geo" "cpu" false false = Ok example_dataset
  ∧ discover "data" = Ok ["data/a.b3d"; "data/b.b3d"]
  ∧ ["data/a.b3d"; "data/b.b3d"] !! 0%nat = Some "data/a.b3d"
  ∧ ∃ subject,
      SubjectOnDisk_open "data/a.b3d" = Ok subject
      ∧ contact_bodies example_dataset = first_seen (getGroundForceBodies subject)
      ∧ NoDup (contact_bodies example_dataset)
      ∧ ("pelvis" ∉ contact_bodies example_dataset)
      ∧ (∀ name, name ∈ contact_bodies example_dataset ↔
                 (name ∈ getGroundForceBodies subject ∧ name ≠ "pelvis"))
      ∧ (∀ path' subject' name,
           path' ∈ ["data/a.b3d"; "data/b.b3d"] →
           SubjectOnDisk_open path' = Ok subject' →
           name ∈ getGroundForceBodies subject' →
           name ∉ getGroundForceBodies subject →
           name ∉ contact_bodies example_dataset).
Proof.
  assert (__init__ "data" 5 "geo" "cpu" false false = Ok example_dataset) as Hinit
    by reflexivity.
  assert (discover "data" = Ok ["data/a.b3d"; "data/b.b3d"]) as Hdisc
    by reflexivity.
  split; [exact Hinit|]. split; [exact Hdisc|]. split; [reflexivity|].
  exact (registry_from_first_subject "data" 5 "geo" "cpu" false false example_dataset
           ["data/a.b3d"; "data/b.b3d"] "data/a.b3d" Hinit Hdisc eq_refl).
Defined.

Lemma absent_bodies_zero_example :
  (∀ path subject, SubjectOnDisk_open path = Ok subject → subject_well_formed subject)
  ∧ window_at 2 ∈ windows (self prepared)
  ∧ ∃ subject_index subject trial arrays start cops torques forces,
    origin (self example_heap) None (window_at 2) subject_index subject trial arrays start
    ∧ window_labels (window_at 2) !! OutputDataKeys.GROUND_CONTACT_COPS_IN_ROOT_FRAME
      = Some cops
    ∧ window_labels (window_at 2) !! OutputDataKeys.GROUND_CONTACT_TORQUES_IN_ROOT_FRAME
      = Some torques
    ∧ window_labels (window_at 2) !! OutputDataKeys.GROUND_CONTACT_FORCES_IN_ROOT_FRAME
      = Some forces
    ∧ ∀ (i : nat) name,
        contact_bodies (self example_heap) !! i = Some name →
        name ∉ getGroundForceBodies subject →
        ∃ zeros,
          np_zeros (window_size (self example_heap)) 3 = Ok zeros
          ∧ slot (Z.of_nat i) cops = nd_map to_float32 zeros
          ∧ slot (Z.of_nat i) torques = nd_map to_float32 zeros
          ∧ slot (Z.of_nat i) forces = nd_map to_float32 zeros
          ∧ ∀ partial,
              fill_contact (ground_contact_cop_torque_force_in_root_frame arrays)
                (getMassKg subject) start (start + window_size (self example_heap))
                (contact_indices_of (contact_bodies (self example_heap)) subject)
                partial (Z.of_nat i)
              = Ok partial.
Proof.
  assert (∀ path subject,
            SubjectOnDisk_open path = Ok subject → subject_well_formed subject) as Hwf
    by example_well_formed.
  assert (window_at 2 ∈ windows (self prepared))
    as Hw by example_window.
  split; [exact Hwf|]. split; [exact Hw|].
  exact (absent_bodies_zero None example_heap (window_at 2) Hwf Hw).
Defined.

Lemma length_is_candidates_less_skipped_example :
  prepare_data_for_subset None example_heap
  = (Ok (), prepared)
  ∧ ∃ num_skipped,
      prepare_data_for_subset_counting None example_heap
      = (Ok num_skipped, prepared)
      ∧ __len__ (self prepared)
        = total_candidates (self example_heap) None - num_skipped
      ∧ num_skipped = total_flagged (self example_heap) None.
Proof.
  assert (prepare_data_for_subset None example_heap
          = (Ok (), prepared)) as Hrun
    by (apply pair_from_fst; vm_compute; reflexivity).
  split; [exact Hrun|].
  exact (length_is_candidates_less_skipped None example_heap
           prepared Hrun).
Defined.

Lemma single_file_needs_extension_example :
  os_path_isdir "data.txt" = false
  ∧ endswith "data.txt" ".b3d" = false
  ∧ __init__ "data.txt" 5 "geo" "cpu" false false = Raise AssertionError.
Proof.
  split; [reflexivity|]. split; [reflexivity|].
  exact (single_file_needs_extension "data.txt" 5 "geo" "cpu" false false eq_refl eq_refl).
Defined.

Lemma prepare_twice_identical_example :
  same_frame (self example_heap) (self example_heap_with_window)
  ∧ (prepare_data_for_subset (Some [1]) example_heap).1
    = (prepare_data_for_subset (Some [1]) example_heap_with_window).1
  ∧ windows (self (prepare_data_for_subset (Some [1]) example_heap).2)
    = windows (self (prepare_data_for_subset (Some [1]) example_heap_with_window).2)
  ∧ (prepare_data_for_subset (Some [1]) (prepare_data_for_subset (Some [1]) example_heap).2).1
    = (prepare_data_for_subset (Some [1]) example_heap).1
  ∧ self (prepare_data_for_subset (Some [1])
            (prepare_data_for_subset (Some [1]) example_heap).2).2
    = self (prepare_data_for_subset (Some [1]) example_heap).2.
Proof.
  assert (same_frame (self example_heap) (self example_heap_with_window)) as Hframe
    by reflexivity.
  split; [exact Hframe|].
  exact (prepare_twice_identical (Some [1]) example_heap example_heap_with_window Hframe).
Defined.

Lemma root_motion_split_example :
  window_at 0 ∈ windows (self prepared)
  ∧ ∃ subject_index subject trial arrays start t p_in,
    origin (self example_heap) None (window_at 0) subject_index subject trial arrays start
    ∧ getitem (getTrials (loadAllFrames subject true)) trial = Ok t
    ∧ getitem (getPasses t) 0 = Ok p_in
    ∧ let frames := slice_rows start (start + window_size (self example_heap)) in
      let vel6 := transpose (getRootSpatialVelInRootFrame p_in) in
      let acc6 := transpose (getRootSpatialAccInRootFrame p_in) in
      let dev := device (self example_heap) in
      window_inputs (window_at 0) !! InputDataKeys.ROOT_ANGULAR_VEL_IN_ROOT_FRAME
        = Some (torch_tensor (slice_cols 0 3 (frames vel6)) dev)
      ∧ window_inputs (window_at 0) !! InputDataKeys.ROOT_LINEAR_VEL_IN_ROOT_FRAME
        = Some (torch_tensor (slice_cols 3 6 (frames vel6)) dev)
      ∧ window_inputs (window_at 0) !! InputDataKeys.ROOT_ANGULAR_ACC_IN_ROOT_FRAME
        = Some (torch_tensor (slice_cols 0 3 (frames acc6)) dev)
      ∧ window_inputs (window_at 0) !! InputDataKeys.ROOT_LINEAR_ACC_IN_ROOT_FRAME
        = Some (torch_tensor (slice_cols 3 6 (frames acc6)) dev).
Proof.
  assert (window_at 0 ∈ windows (self prepared))
    as Hw by example_window.
  split; [exact Hw|].
  exact (root_motion_split None example_heap (window_at 0) Hw).
Defined.

Lemma store_empty_after_construction_example :
  __init__ "data" 5 "geo" "cpu" true false = Ok example_dataset
  ∧ windows example_dataset = []
  ∧ __len__ example_dataset = 0
  ∧ (∀ index, __getitem__ example_dataset index = Raise IndexError)
  ∧ slice_to 100 ([] : list Window) = [].
Proof.
  assert (__init__ "data" 5 "geo" "cpu" true false = Ok example_dataset) as Hinit
    by reflexivity.
  split; [exact Hinit|].
  exact (store_empty_after_construction "data" 5 "geo" "cpu" true false example_dataset Hinit).
Defined.

(* ===================================================================== *)
(** ** The further properties on the example recording *)
(* ===================================================================== *)

(** The example dataset with a negative window size. *)
#[local] Abbreviation negative_heap :=
  (initial_heap
     {| subject_paths := ["data/a.b3d"; "data/b.b3d"];
        window_size := -1;
        geometry_folder := "geo";
        device := "cpu";
        windows := [];
        num_dofs := Some 2;
        num_joints := Some 1;
        contact_bodies := ["calcn_l"; "calcn_r"];
        skeletons := [];
        skeletons_contact_bodies := [] |}).

Lemma subject_paths_are_recordings_example :
  __init__ "data" 5 "geo" "cpu" false false = Ok example_dataset
  ∧ Forall (λ p, endswith p ".b3d" = true) (subject_paths example_dataset).
Proof.
  assert (__init__ "data" 5 "geo" "cpu" false false = Ok example_dataset) as Hinit
    by reflexivity.
  split; [exact Hinit|].
  exact (subject_paths_are_recordings "data" 5 "geo" "cpu" false false example_dataset
           Hinit).
Defined.

Lemma skeletons_follow_subject_paths_example :
  __init__ "data" 5 "geo" "cpu" true false = Ok example_dataset
  ∧ length (skeletons example_dataset) = length (skeletons_contact_bodies example_dataset)
  ∧ length (skeletons example_dataset) = length (subject_paths example_dataset)
  ∧ Forall2 (λ skeleton handles,
               mapM (getBodyNode skeleton) (contact_bodies example_dataset) = Ok handles)
      (skeletons example_dataset) (skeletons_contact_bodies example_dataset)
  ∧ Forall (λ handles, length handles = length (contact_bodies example_dataset))
      (skeletons_contact_bodies example_dataset)
  ∧ ∃ paths,
      discover "data" = Ok paths
      ∧ subject_paths example_dataset = take 2 paths.
Proof.
  assert (__init__ "data" 5 "geo" "cpu" true false = Ok example_dataset) as Hinit
    by reflexivity.
  split; [exact Hinit|].
  exact (skeletons_follow_subject_paths "data" 5 "geo" "cpu" true false example_dataset
           Hinit).
Defined.

Lemma completed_call_indices_in_range_example :
  prepare_data_for_subset None example_heap = (Ok (), prepared)
  ∧ Forall (λ subject_index,
              0 ≤ subject_index < len (subject_paths (self example_heap))
              ∧ ∃ subject, subject_at (self example_heap) subject_index = Ok subject)
      (selected (self example_heap) None).
Proof.
  assert (prepare_data_for_subset None example_heap = (Ok (), prepared)) as Hrun
    by (apply pair_from_fst; vm_compute; reflexivity).
  split; [exact Hrun|].
  exact (completed_call_indices_in_range None example_heap prepared Hrun).
Defined.

Lemma negative_window_size_stores_nothing_example :
  window_size (self negative_heap) < 0
  ∧ windows (self (prepare_data_for_subset (Some [1]) negative_heap).2) = [].
Proof.
  assert (window_size (self negative_heap) < 0) as Hsize by reflexivity.
  split; [exact Hsize|].
  exact (negative_window_size_stores_nothing (Some [1]) negative_heap Hsize).
Defined.

Lemma failing_index_stops_call_example :
  (prepare_data_for_subset (Some [1]) example_heap).1 = Ok ()
  ∧ index_fails (self example_heap) (-1) = Some ValueError
  ∧ (prepare_data_for_subset (Some ([1] ++ -1 :: [0])) example_heap).1
    = Raise ValueError
  ∧ windows (self (prepare_data_for_subset (Some ([1] ++ -1 :: [0])) example_heap).2)
    = windows (self (prepare_data_for_subset (Some [1]) example_heap).2)
  ∧ (¬ (0 ≤ -1 < 2 ^ 32) → ValueError = ValueError)
  ∧ (len (subject_paths (self example_heap)) ≤ -1 < 2 ^ 32 → ValueError = IndexError).
Proof.
  assert ((prepare_data_for_subset (Some [1]) example_heap).1 = Ok ()) as Hrun
    by (vm_compute; reflexivity).
  assert (index_fails (self example_heap) (-1) = Some ValueError) as Hfails
    by reflexivity.
  split; [exact Hrun|]. split; [exact Hfails|].
  exact (failing_index_stops_call [1] (-1) [0] example_heap ValueError Hrun Hfails).
Defined.

Lemma generator_left_at_last_index_example :
  prepare_data_for_subset None example_heap = (Ok (), prepared)
  ∧ np_random_state prepared
    = match last (selected (self example_heap) None) with
      | Some subject_index => Some subject_index
      | None => np_random_state example_heap
      end.
Proof.
  assert (prepare_data_for_subset None example_heap = (Ok (), prepared)) as Hrun
    by (apply pair_from_fst; vm_compute; reflexivity).
  split; [exact Hrun|].
  exact (generator_left_at_last_index None example_heap prepared Hrun).
Defined.

Lemma store_in_subject_trial_start_order_example :
  prepare_data_for_subset None example_heap = (Ok (), prepared)
  ∧ Ok <$> windows (self prepared)
    = mjoin (subject_windows (self example_heap) <$> selected (self example_heap) None).
Proof.
  assert (prepare_data_for_subset None example_heap = (Ok (), prepared)) as Hrun
    by (apply pair_from_fst; vm_compute; reflexivity).
  split; [exact Hrun|].
  exact (store_in_subject_trial_start_order None example_heap prepared Hrun).
Defined.

Lemma window_fields_and_device_example :
  window_at 0 ∈ windows (self prepared)
  ∧ dom (window_inputs (window_at 0)) = input_keys
  ∧ size (window_inputs (window_at 0)) = 10%nat
  ∧ dom (window_labels (window_at 0)) = output_keys
  ∧ size (window_labels (window_at 0)) = 7%nat
  ∧ window_labels (window_at 0) !! OutputDataKeys.CONTACT = None
  ∧ map_Forall (λ _ t, tensor_device t = device (self example_heap))
      (window_inputs (window_at 0))
  ∧ map_Forall (λ _ t, tensor_device t = device (self example_heap))
      (window_labels (window_at 0)).
Proof.
  assert (window_at 0 ∈ windows (self prepared)) as Hw by example_window.
  split; [exact Hw|].
  exact (window_fields_and_device None example_heap (window_at 0) Hw).
Defined.

Lemma contact_outputs_width_example :
  window_at 2 ∈ windows (self prepared)
  ∧ OutputDataKeys.GROUND_CONTACT_FORCES_IN_ROOT_FRAME
    ∈ [ OutputDataKeys.GROUND_CONTACT_COPS_IN_ROOT_FRAME;
        OutputDataKeys.GROUND_CONTACT_TORQUES_IN_ROOT_FRAME;
        OutputDataKeys.GROUND_CONTACT_FORCES_IN_ROOT_FRAME ]
  ∧ ∃ t,
      window_labels (window_at 2) !! OutputDataKeys.GROUND_CONTACT_FORCES_IN_ROOT_FRAME
      = Some t
      ∧ ncols (tensor_data t) = (3 * length (contact_bodies (self example_heap)))%nat.
Proof.
  assert (window_at 2 ∈ windows (self prepared)) as Hw by example_window.
  assert (OutputDataKeys.GROUND_CONTACT_FORCES_IN_ROOT_FRAME
          ∈ [ OutputDataKeys.GROUND_CONTACT_COPS_IN_ROOT_FRAME;
              OutputDataKeys.GROUND_CONTACT_TORQUES_IN_ROOT_FRAME;
              OutputDataKeys.GROUND_CONTACT_FORCES_IN_ROOT_FRAME ]) as Hkey
    by (rewrite !elem_of_cons; auto).
  split; [exact Hw|]. split; [exact Hkey|].
  exact (contact_outputs_width None example_heap (window_at 2)
           OutputDataKeys.GROUND_CONTACT_FORCES_IN_ROOT_FRAME Hw Hkey).
Defined.

Lemma ready_call_completes_example :
  0 ≤ window_size (self example_heap)
  ∧ device_error (device (self example_heap)) = None
  ∧ Forall (index_ready (self example_heap)) (selected (self example_heap) None)
  ∧ ∃ h', prepare_data_for_subset None example_heap = (Ok (), h').
Proof.
  assert (0 ≤ window_size (self example_heap)) as Hsize by (by intros ?).
  assert (device_error (device (self example_heap)) = None) as Hdev by reflexivity.
  assert (Forall (index_ready (self example_heap)) (selected (self example_heap) None))
    as Hready by (apply (bool_decide_unpack _); vm_compute; exact I).
  split; [exact Hsize|]. split; [exact Hdev|]. split; [exact Hready|].
  exact (ready_call_completes None example_heap Hsize Hdev Hready).
Defined.

Lemma skipping_skeletons_keeps_windows_example :
  __init__ "data" 5 "geo" "cpu" false false = Ok example_dataset
  ∧ ∃ d',
      __init__ "data" 5 "geo" "cpu" false true = Ok d'
      ∧ skeletons d' = [] ∧ skeletons_contact_bodies d' = []
      ∧ subject_paths d' = subject_paths example_dataset
      ∧ contact_bodies d' = contact_bodies example_dataset
      ∧ num_dofs d' = num_dofs example_dataset
      ∧ num_joints d' = num_joints example_dataset
      ∧ ∀ s state,
          let run := λ object,
            prepare_data_for_subset s {| self := object; np_random_state := state |} in
          (run d').1 = (run example_dataset).1
          ∧ windows (self (run d').2) = windows (self (run example_dataset).2).
Proof.
  assert (__init__ "data" 5 "geo" "cpu" false false = Ok example_dataset) as Hinit
    by reflexivity.
  split; [exact Hinit|].
  exact (skipping_skeletons_keeps_windows "data" 5 "geo" "cpu" false example_dataset
           Hinit).
Defined.

Lemma folder_without_recordings_gives_empty_dataset_example :
  @os_path_isdir _ _ folder_without_recordings "data" = true
  ∧ Forall (λ '(root, dirs, files),
              Forall (λ file, endswith file ".b3d" = false) files)
      (@os_walk _ _ folder_without_recordings "data")
  ∧ ∃ d,
      @__init__ _ _ folder_without_recordings "data" 5 "geo" "cpu" false false = Ok d
      ∧ subject_paths d = []
      ∧ num_dofs d = None ∧ num_joints d = None
      ∧ contact_bodies d = []
      ∧ skeletons d = []
      ∧ ∀ state,
          let h := {| self := d; np_random_state := state |} in
          @prepare_data_for_subset _ _ folder_without_recordings None h = (Ok (), h).
Proof.
  assert (@os_path_isdir _ _ folder_without_recordings "data" = true) as Hdir
    by reflexivity.
  assert (Forall (λ '(root, dirs, files),
                    Forall (λ file, endswith file ".b3d" = false) files)
            (@os_walk _ _ folder_without_recordings "data")) as Hwalk
    by (repeat constructor).
  split; [exact Hdir|]. split; [exact Hwalk|].
  exact (@folder_without_recordings_gives_empty_dataset _ _ folder_without_recordings
           "data" 5 "geo" "cpu" false false Hdir Hwalk).
Defined.

(* ===================================================================== *)
(** ** Stored values are float32 values *)
(* ===================================================================== *)

Example rounding_construction :
  @__init__ _ _ Rounding.rounding_fs "c.b3d" 5 "geo" "cpu" false false
  = Ok Rounding.rounding_dataset.
Proof. reflexivity. Qed.

(** One third is not a float32 number. *)
Lemma third_is_rounded : round_to_binary32 (1 / 3) ≠ (1 / 3)%float.
Proof.
  intros Heq. apply (f_equal Prim2SF) in Heq. vm_compute in Heq. discriminate.
Qed.

Example rounding_wrench_stored :
  tensor_data <$> window_labels Rounding.rounding_window
                    !! OutputDataKeys.GROUND_CONTACT_WRENCHES_IN_ROOT_FRAME
  = Some (NdArray 6 (replicate 5 (replicate 6 (round_to_binary32 (1 / 3))))).
Proof. vm_compute. reflexivity. Qed.

Example rounding_wrench_recorded :
  entry (getGroundBodyWrenchesInRootFrame Rounding.pass_c) 0 0 = Some 1%float.
Proof. reflexivity. Qed.

(** A recorded wrench of 1 on a subject of 3 kg: the stored wrench is the
    float32 number nearest to one third, not the float64 quotient. *)
Lemma wrench_not_exactly_divided :
  Rounding.rounding_window
    ∈ windows (self (@prepare_data_for_subset _ _ Rounding.rounding_fs None
                       Rounding.rounding_heap).2)
  ∧ window_subject_index Rounding.rounding_window = 0
  ∧ @subject_at _ _ Rounding.rounding_fs Rounding.rounding_dataset 0
    = Ok Rounding.subject_c
  ∧ getTrials (loadAllFrames Rounding.subject_c true)
    = [ {| getPasses := [Rounding.pass_c] |} ]
  ∧ ¬ Rounding.exactly_from (window_labels Rounding.rounding_window)
        OutputDataKeys.GROUND_CONTACT_WRENCHES_IN_ROOT_FRAME
        (λ x, x / getMassKg Rounding.subject_c)%float
        (getGroundBodyWrenchesInRootFrame Rounding.pass_c) 0 0.
Proof.
  split; [apply default_lookup_elem_of; vm_compute; reflexivity|].
  split; [vm_compute; reflexivity|].
  split; [reflexivity|]. split; [reflexivity|].
  intros (tensor & Hlookup & Hentries).
  pose proof rounding_wrench_stored as Hdata.
  rewrite Hlookup in Hdata. injection Hdata as Hdata.
  specialize (Hentries 0%nat 0%nat). rewrite Hdata in Hentries.
  destruct Hentries as (x & Hx & Hentry); [unfold nrows; simpl; lia..|].
  change (entry (getGroundBodyWrenchesInRootFrame Rounding.pass_c) 0 0 = Some x) in Hx.
  rewrite rounding_wrench_recorded in Hx. injection Hx as <-.
  apply third_is_rounded.
  change (Some (round_to_binary32 (1 / 3)) = Some (1 / 3)%float) in Hentry.
  exact (f_equal (default 0%float) Hentry).
Qed.

(* ===================================================================== *)
(** ** The library's failures reach the caller *)
(* ===================================================================== *)

(** [readSkel] returned [None]: the constructor raises [AttributeError]
    where it asks the skeleton for the first body handle, although the
    recording opened; with [skip_loading_skeletons] it succeeds. *)
Example missing_skeleton_raises :
  @__init__ _ NoSkeleton.optional_nimble NoSkeleton.no_skeleton_fs
    "d.b3d" 5 "geo" "cpu" false false = Raise AttributeError
  ∧ ∃ d, @__init__ _ NoSkeleton.optional_nimble NoSkeleton.no_skeleton_fs
           "d.b3d" 5 "geo" "cpu" false true = Ok d.
Proof. split; [reflexivity|]. eexists. reflexivity. Qed.

(** A device torch cannot use: the call raises at the first window it
    builds and stores nothing. *)
Example unusable_device_raises :
  let h := initial_heap
             {| subject_paths := ["data/a.b3d"; "data/b.b3d"];
                window_size := 5;
                geometry_folder := "geo";
                device := "cuda";
                windows := [];
                num_dofs := Some 2;
                num_joints := Some 1;
                contact_bodies := ["calcn_l"; "calcn_r"];
                skeletons := [];
                skeletons_contact_bodies := [] |} in
  (prepare_data_for_subset None h).1 = Raise RuntimeError
  ∧ __len__ (self (prepare_data_for_subset None h).2) = 0.
Proof. split; vm_compute; reflexivity. Qed.
